(** * MQTT forwarder: the message handler of [mqtt_forwarder.py]

    A shallow embedding of [MQTTForwarder.on_message], [is_json],
    [convert_json_format] and [forward_message], together with the parts of
    the Python runtime they call: [bytes.decode('utf-8')], [str.strip],
    [str.startswith], [str.replace], [json.loads] and [json.dumps].

    Python [str] values are sequences of Unicode code points, so a [str] is a
    list of code points here.  Python floats are kept behind an interface
    ([PyFloat]): the handler only ever parses them, tests them against zero
    and prints them.  The two limits of the interpreter that [json.loads]
    can meet, on the digits of an integer and on the depth of nesting, are
    parameters as well ([PyRuntime]). *)

From Stdlib Require Import List ZArith NArith Bool Lia.
From Stdlib Require Import Strings.String Strings.Ascii Strings.Byte.
From Stdlib Require DecimalFacts DecimalPos DecimalZ.
Import ListNotations.

(** ** Python strings *)

Module Str.

(** A code point, [0 .. 0x10FFFF]. *)
Definition char := N.

Definition str := list char.

Definition ch (a : ascii) : char := N_of_ascii a.

Arguments ch a : simpl never.

(** The [str] whose characters are those of an ASCII literal. *)
Definition py (s : string) : str := List.map ch (list_ascii_of_string s).

Definition QUOTE : char := 34%N.
Definition BACKSLASH : char := 92%N.

Fixpoint eqb (a b : str) : bool :=
  match a, b with
  | [], [] => true
  | x :: a', y :: b' => N.eqb x y && eqb a' b'
  | _, _ => false
  end.

(** [s.startswith(prefix)] *)
Fixpoint startswith (prefix s : str) : bool :=
  match prefix with
  | [] => true
  | p :: prefix' =>
      match s with
      | [] => false
      | c :: s' => N.eqb p c && startswith prefix' s'
      end
  end.

(** [s.replace(old, new)] for a non-empty [old]: every non-overlapping
    occurrence, scanning from the left.  [skip] counts the characters of
    an occurrence still to be dropped. *)
Fixpoint replace_from (old new : str) (skip : nat) (s : str) : str :=
  match s with
  | [] => []
  | c :: s' =>
      match skip with
      | S k => replace_from old new k s'
      | O =>
          if startswith old s
          then new ++ replace_from old new (List.length old - 1) s'
          else c :: replace_from old new O s'
      end
  end.

(** [s.replace(old, new)]; an empty [old] matches before every character
    and at the end. *)
Definition replace (old new s : str) : str :=
  match old with
  | [] => List.flat_map (fun c => new ++ [c]) s ++ new
  | _ :: _ => replace_from old new O s
  end.

(** [c.isspace()]: the code points CPython's [_PyUnicode_IsWhitespace]
    accepts. *)
Definition isspace (c : char) : bool :=
  ((9 <=? c) && (c <=? 13) || (28 <=? c) && (c <=? 32)
   || (c =? 133) || (c =? 160) || (c =? 5760)
   || (8192 <=? c) && (c <=? 8202)
   || (c =? 8232) || (c =? 8233) || (c =? 8239) || (c =? 8287)
   || (c =? 12288))%N.

Fixpoint lstrip (s : str) : str :=
  match s with
  | [] => []
  | c :: s' => if isspace c then lstrip s' else s
  end.

Definition rstrip (s : str) : str := List.rev (lstrip (List.rev s)).

(** [s.strip()] *)
Definition strip (s : str) : str := rstrip (lstrip s).

(** ** [bytes.decode('utf-8')], strict *)

Definition bytes := list byte.

Definition bytes_of (s : string) : bytes := list_byte_of_string s.

Definition is_cont (b : N) : bool := ((128 <=? b) && (b <? 192))%N.

Definition is_surrogate (c : N) : bool := ((55296 <=? c) && (c <=? 57343))%N.

(** [None] stands for [UnicodeDecodeError]: a stray or missing continuation
    byte, an overlong form, a surrogate, or a code point above 0x10FFFF. *)
Fixpoint utf8_decode (bs : bytes) : option str :=
  match bs with
  | [] => Some []
  | b0 :: r0 =>
      let n0 := Byte.to_N b0 in
      if (n0 <? 128)%N then option_map (cons n0) (utf8_decode r0)
      else if (n0 <? 194)%N then None
      else if (n0 <? 224)%N then
        match r0 with
        | b1 :: r1 =>
            let n1 := Byte.to_N b1 in
            if is_cont n1
            then option_map (cons ((n0 - 192) * 64 + (n1 - 128))%N)
                            (utf8_decode r1)
            else None
        | _ => None
        end
      else if (n0 <? 240)%N then
        match r0 with
        | b1 :: b2 :: r2 =>
            let n1 := Byte.to_N b1 in
            let n2 := Byte.to_N b2 in
            let c := ((n0 - 224) * 4096 + (n1 - 128) * 64 + (n2 - 128))%N in
            if is_cont n1 && is_cont n2 && (2048 <=? c)%N
               && negb (is_surrogate c)
            then option_map (cons c) (utf8_decode r2)
            else None
        | _ => None
        end
      else if (n0 <? 245)%N then
        match r0 with
        | b1 :: b2 :: b3 :: r3 =>
            let n1 := Byte.to_N b1 in
            let n2 := Byte.to_N b2 in
            let n3 := Byte.to_N b3 in
            let c := ((n0 - 240) * 262144 + (n1 - 128) * 4096
                      + (n2 - 128) * 64 + (n3 - 128))%N in
            if is_cont n1 && is_cont n2 && is_cont n3
               && (65536 <=? c)%N && (c <=? 1114111)%N
            then option_map (cons c) (utf8_decode r3)
            else None
        | _ => None
        end
      else None
  end.

End Str.

Import Str.

(** ** Python floats, behind an interface

    The handler never computes with a float: [json.loads] builds one from a
    literal ([float(text)]), [not parsed_data] compares it with zero, and
    [json.dumps] prints it ([float.__repr__], or one of the three names for
    the values that are not finite). *)

Inductive float_kind := Finite | NotANumber | PosInf | NegInf.

Class PyFloat (F : Type) : Type := {
  float_of_literal : str -> F;
  float_repr : F -> str;
  float_kind_of : F -> float_kind;
  float_is_zero : F -> bool;
  float_nan : F;
  float_inf : F;
  float_neginf : F
}.

(** ** The limits of the interpreter

    [json.loads] does not only fail with [JSONDecodeError].  Converting an
    integer literal raises [ValueError] when the literal has more digits
    than [sys.get_int_max_str_digits()] allows (4300 unless changed, 0 for
    no limit; literals of up to 640 digits are never refused), and entering
    an object or an array raises [RecursionError] when the recursion limit
    is reached.  How much nesting is left when the handler calls
    [json.loads] depends on the stack under the callback: one level is
    taken to be there always, [nesting_spare] counts the levels beyond
    it. *)

Class PyRuntime : Type := {
  int_max_str_digits : nat;
  nesting_spare : nat
}.

(** ** [json.loads]

    The decoder of CPython's [json] package with its default settings
    ([strict=True], the C scanner): [JSONDecoder.decode] around [scan_once],
    [scanstring], the number matcher and the object and array parsers.
    Positions in the text are kept as the suffix still to be read.

    The scanner is written twice.  [scan_once], [parse_object] and
    [parse_array] read a text with the limits of the interpreter set
    aside: they give the value a text denotes ([json_value]).
    [scan_once_unicode], [parse_object_unicode] and [parse_array_unicode]
    are the same functions as the interpreter runs them, stopping with
    [ValueError] or [RecursionError] where a limit is met; [json_loads] is
    built on these, and [scan_refines] relates the two. *)

Module Json.

(** The outcome of scanning one term at the head of a text.
    [DecodeError] stands for [JSONDecodeError] (and the [StopIteration]
    that [raw_decode] turns into one). *)
Inductive scan (A : Type) :=
| Scanned (a : A) (rest : str)
| DecodeError
| OutOfFuel.

Arguments Scanned {A}.
Arguments DecodeError {A}.
Arguments OutOfFuel {A}.

(** JSON whitespace: space, tab, line feed, carriage return. *)
Definition is_ws (c : char) : bool :=
  ((c =? 32) || (c =? 9) || (c =? 10) || (c =? 13))%N.

Fixpoint skip_ws (s : str) : str :=
  match s with
  | [] => []
  | c :: s' => if is_ws c then skip_ws s' else s
  end.

Definition is_digit (c : char) : bool := ((48 <=? c) && (c <=? 57))%N.

Definition is_digit19 (c : char) : bool := ((49 <=? c) && (c <=? 57))%N.

(** The longest run of ASCII digits at the head of [s], and what follows. *)
Fixpoint span_digits (s : str) : str * str :=
  match s with
  | [] => ([], [])
  | c :: s' =>
      if is_digit c
      then let '(ds, r) := span_digits s' in (c :: ds, r)
      else ([], s)
  end.

Definition is_nil (s : str) : bool :=
  match s with [] => true | _ => false end.

(** The number matcher, in the four steps of the C scanner.  Each step
    returns the text it read and the rest. *)

(** An optional minus sign. *)
Definition read_sign (s : str) : str * str :=
  match s with
  | c :: s' => if (c =? ch "-")%N then ([c], s') else ([], s)
  | [] => ([], s)
  end.

(** The integer part: a digit from 1 to 9 followed by any digits, or a
    single zero. *)
Definition read_int (s : str) : option (str * str) :=
  match s with
  | [] => None
  | d :: s' =>
      if is_digit19 d
      then let '(ds, r) := span_digits s' in Some (d :: ds, r)
      else if (d =? ch "0")%N then Some ([d], s')
      else None
  end.

(** An optional fraction: a dot followed by one or more digits. *)
Definition read_frac (s : str) : str * str :=
  match s with
  | dot :: d1 :: s' =>
      if (dot =? ch ".")%N && is_digit d1
      then let '(ds, r) := span_digits s' in (dot :: d1 :: ds, r)
      else ([], s)
  | _ => ([], s)
  end.

(** An optional exponent: e or E, an optional sign, one or more digits;
    without a digit nothing is read. *)
Definition read_exp (s : str) : str * str :=
  match s with
  | e :: s' =>
      if ((e =? ch "e") || (e =? ch "E"))%N
      then
        let '(sgn, s'') :=
          match s' with
          | c :: t =>
              if ((c =? ch "-") || (c =? ch "+"))%N
              then ([c], t) else ([], s')
          | [] => ([], s')
          end in
        let '(ds, r) := span_digits s'' in
        match ds with
        | [] => ([], s)
        | _ :: _ => (e :: sgn ++ ds, r)
        end
      else ([], s)
  | [] => ([], s)
  end.

(** Returns whether a fraction or an exponent was read, the text matched,
    and the rest. *)
Definition match_number (s : str) : option (bool * str * str) :=
  let '(sign, s1) := read_sign s in
  match read_int s1 with
  | None => None
  | Some (ip, r1) =>
      let '(frac, r2) := read_frac r1 in
      let '(exp, r3) := read_exp r2 in
      Some (negb (is_nil frac && is_nil exp), sign ++ ip ++ frac ++ exp, r3)
  end.

(** One decimal digit in front of a [Decimal.uint]. *)
Definition digit_cons (c : char) (u : Decimal.uint) : Decimal.uint :=
  match (c - 48)%N with
  | 0%N => Decimal.D0 u
  | 1%N => Decimal.D1 u
  | 2%N => Decimal.D2 u
  | 3%N => Decimal.D3 u
  | 4%N => Decimal.D4 u
  | 5%N => Decimal.D5 u
  | 6%N => Decimal.D6 u
  | 7%N => Decimal.D7 u
  | 8%N => Decimal.D8 u
  | _ => Decimal.D9 u
  end.

Fixpoint uint_of_digits (s : str) : Decimal.uint :=
  match s with
  | [] => Decimal.Nil
  | c :: s' => digit_cons c (uint_of_digits s')
  end.

(** [int(text)] for a text the number matcher accepted without fraction
    or exponent. *)
Definition int_of_literal (s : str) : Z :=
  match s with
  | c :: s' =>
      if (c =? ch "-")%N
      then Z.of_int (Decimal.Neg (uint_of_digits s'))
      else Z.of_int (Decimal.Pos (uint_of_digits s))
  | [] => 0%Z
  end.

Definition hexval (c : char) : option N :=
  if is_digit c then Some (c - 48)%N
  else if ((97 <=? c) && (c <=? 102))%N then Some (c - 87)%N
  else if ((65 <=? c) && (c <=? 70))%N then Some (c - 55)%N
  else None.

(** The four hex digits of a [\uXXXX] escape. *)
Definition hex4 (a b c d : char) : option N :=
  match hexval a, hexval b, hexval c, hexval d with
  | Some x, Some y, Some z, Some w =>
      Some (x * 4096 + y * 256 + z * 16 + w)%N
  | _, _, _, _ => None
  end.

Definition is_high_surrogate (c : N) : bool :=
  ((55296 <=? c) && (c <=? 56319))%N.

Definition is_low_surrogate (c : N) : bool :=
  ((56320 <=? c) && (c <=? 57343))%N.

Definition join_surrogates (hi lo : N) : N :=
  (65536 + ((hi - 55296) * 1024 + (lo - 56320)))%N.

(** The character a one-letter escape stands for. *)
Definition simple_escape (e : char) : option char :=
  if (e =? QUOTE)%N then Some QUOTE
  else if (e =? BACKSLASH)%N then Some BACKSLASH
  else if (e =? ch "/")%N then Some (ch "/")
  else if (e =? ch "b")%N then Some 8%N
  else if (e =? ch "f")%N then Some 12%N
  else if (e =? ch "n")%N then Some 10%N
  else if (e =? ch "r")%N then Some 13%N
  else if (e =? ch "t")%N then Some 9%N
  else None.

Definition pending_chars (pending : option N) : str :=
  match pending with Some hi => [hi] | None => [] end.

Definition prepend (pre : str) (r : option (str * str)) : option (str * str) :=
  match r with
  | Some (body, rest) => Some (pre ++ body, rest)
  | None => None
  end.

(** [scanstring], strict: the text after an opening quote, up to and
    including the closing quote.  [pending] is a high surrogate read from
    a [\uXXXX] escape that a low surrogate escape may still complete.
    [None] is a decode error: no closing quote, a raw control character,
    or a bad escape. *)
Fixpoint scanstring_from (pending : option N) (s : str)
  : option (str * str) :=
  match s with
  | [] => None
  | c :: s1 =>
      if (c =? QUOTE)%N then Some (pending_chars pending, s1)
      else if (c =? BACKSLASH)%N then
        match s1 with
        | [] => None
        | e :: s2 =>
            if (e =? ch "u")%N then
              match s2 with
              | h1 :: h2 :: h3 :: h4 :: s3 =>
                  match hex4 h1 h2 h3 h4 with
                  | None => None
                  | Some uni =>
                      match pending with
                      | Some hi =>
                          if is_low_surrogate uni
                          then prepend [join_surrogates hi uni]
                                       (scanstring_from None s3)
                          else if is_high_surrogate uni
                          then prepend [hi] (scanstring_from (Some uni) s3)
                          else prepend [hi; uni] (scanstring_from None s3)
                      | None =>
                          if is_high_surrogate uni
                          then scanstring_from (Some uni) s3
                          else prepend [uni] (scanstring_from None s3)
                      end
                  end
              | _ => None
              end
            else
              match simple_escape e with
              | Some x =>
                  prepend (pending_chars pending ++ [x])
                          (scanstring_from None s2)
              | None => None
              end
        end
      else if (c <? 32)%N then None
      else prepend (pending_chars pending ++ [c]) (scanstring_from None s1)
  end.

Definition scanstring (s : str) : option (str * str) :=
  scanstring_from None s.

(** ** [json.dumps], with [ensure_ascii=False] and the default
    separators

    The encoder is taken without the limits of the interpreter: the
    integers it is given were read within the digit limit or come from
    the clock, and the recursion limit, which it would meet inside the
    [try] of [forward_message], is not modelled for it. *)

Definition hexdigit (n : N) : char :=
  if (n <? 10)%N then (48 + n)%N else (87 + n)%N.

(** How [encode_basestring] writes one character: the quote, the
    backslash and the control characters are escaped, all else is
    copied. *)
Definition escape_char (c : char) : str :=
  if (c =? QUOTE)%N then [BACKSLASH; QUOTE]
  else if (c =? BACKSLASH)%N then [BACKSLASH; BACKSLASH]
  else if (c =? 10)%N then [BACKSLASH; ch "n"]
  else if (c =? 13)%N then [BACKSLASH; ch "r"]
  else if (c =? 9)%N then [BACKSLASH; ch "t"]
  else if (c =? 8)%N then [BACKSLASH; ch "b"]
  else if (c =? 12)%N then [BACKSLASH; ch "f"]
  else if (c <? 32)%N
  then [BACKSLASH; ch "u"; ch "0"; ch "0";
        hexdigit (c / 16)%N; hexdigit (c mod 16)%N]
  else [c].

Definition encode_basestring (s : str) : str :=
  QUOTE :: List.flat_map escape_char s ++ [QUOTE].

Fixpoint digits_of_uint (u : Decimal.uint) : str :=
  match u with
  | Decimal.Nil => []
  | Decimal.D0 u' => 48%N :: digits_of_uint u'
  | Decimal.D1 u' => 49%N :: digits_of_uint u'
  | Decimal.D2 u' => 50%N :: digits_of_uint u'
  | Decimal.D3 u' => 51%N :: digits_of_uint u'
  | Decimal.D4 u' => 52%N :: digits_of_uint u'
  | Decimal.D5 u' => 53%N :: digits_of_uint u'
  | Decimal.D6 u' => 54%N :: digits_of_uint u'
  | Decimal.D7 u' => 55%N :: digits_of_uint u'
  | Decimal.D8 u' => 56%N :: digits_of_uint u'
  | Decimal.D9 u' => 57%N :: digits_of_uint u'
  end.

(** [int.__repr__] *)
Definition int_repr (n : Z) : str :=
  match Z.to_int n with
  | Decimal.Pos u => digits_of_uint u
  | Decimal.Neg u => ch "-" :: digits_of_uint u
  end.

(** [sep.join(parts)] *)
Fixpoint join (sep : str) (parts : list str) : str :=
  match parts with
  | [] => []
  | [p] => p
  | p :: rest => p ++ sep ++ join sep rest
  end.

End Json.

Import Json.

(** ** A float model to run the handler with

    Decimal numbers [m * 10^e] kept exactly, and the three values that are
    not finite.  It stands in for binary floating point where a concrete
    run is wanted; the theorems below hold for every [PyFloat]. *)

Module DecimalFloat.

Inductive dfloat :=
| DFin (m e : Z)
| DNaN
| DInf
| DNegInf.

(** Mantissa digits and exponent of a number literal. *)
Definition of_literal (text : str) : dfloat :=
  let '(neg, body) :=
    match text with
    | c :: t => if (c =? ch "-")%N then (true, t) else (false, text)
    | [] => (false, text)
    end in
  let '(ip, r1) := Json.span_digits body in
  let '(fd, r2) :=
    match r1 with
    | c :: t => if (c =? ch ".")%N then Json.span_digits t else ([], r1)
    | [] => ([], r1)
    end in
  let ex :=
    match r2 with
    | _ :: c :: t =>
        if (c =? ch "+")%N then Json.int_of_literal t
        else Json.int_of_literal (c :: t)
    | _ => 0%Z
    end in
  let m := Z.of_uint (Json.uint_of_digits (ip ++ fd)) in
  DFin (if neg then - m else m) (ex - Z.of_nat (List.length fd)).

Definition repr (f : dfloat) : str :=
  match f with
  | DFin m e => Json.int_repr m ++ ch "e" :: Json.int_repr e
  | DNaN => py "nan"
  | DInf => py "inf"
  | DNegInf => py "-inf"
  end.

Definition kind_of (f : dfloat) : float_kind :=
  match f with
  | DFin _ _ => Finite
  | DNaN => NotANumber
  | DInf => PosInf
  | DNegInf => NegInf
  end.

Definition is_zero (f : dfloat) : bool :=
  match f with
  | DFin m _ => (m =? 0)%Z
  | _ => false
  end.

(** The digits of an integer: its text without the sign. *)
Definition magnitude (n : Z) : Decimal.uint :=
  match Z.to_int n with
  | Decimal.Pos u => u
  | Decimal.Neg u => u
  end.

Definition model : PyFloat dfloat :=
  {| float_of_literal := of_literal;
     float_repr := repr;
     float_kind_of := kind_of;
     float_is_zero := is_zero;
     float_nan := DNaN;
     float_inf := DInf;
     float_neginf := DNegInf |}.

End DecimalFloat.

(** ** A runtime to run the handler with

    The limits of CPython as it is shipped: integers of at most 4300
    digits, and a recursion limit of 1000, of which the client's loop and
    the handler have used some twenty frames when [json.loads] is
    called. *)

Module CPython.

Definition runtime : PyRuntime :=
  {| int_max_str_digits := 4300;
     nesting_spare := 979 |}.

End CPython.

(** An inbound message: [msg.topic], [msg.payload]. *)
Record message := {
  topic : str;
  payload : bytes
}.

(** ** Sample messages *)

Module Samples.

Definition device_topic : str := py "status/AMT12345678901234".

(** A topic whose device part repeats the prefix. *)
Definition nested_topic : str := py "status/AMTstatus/AMT1".

Definition other_topic : str := py "alarm/AMT12345678901234".

Definition q : bytes := [Byte.x22].

(** The bytes of [{"AI1": 7, "AI2": [true]}]. *)
Definition object_payload : bytes :=
  bytes_of "{" ++ q ++ bytes_of "AI1" ++ q ++ bytes_of ": 7, "
  ++ q ++ bytes_of "AI2" ++ q ++ bytes_of ": [true]}".

(** The bytes of [{"AI1": 0.07997}]. *)
Definition float_payload : bytes :=
  bytes_of "{" ++ q ++ bytes_of "AI1" ++ q ++ bytes_of ": 0.07997}".

(** A lone byte 0xFF, which no UTF-8 text contains. *)
Definition bad_utf8 : bytes := [Byte.xff].

(** The bytes of [{"a": 1, "a": 2}]. *)
Definition repeated_payload : bytes :=
  bytes_of "{" ++ q ++ bytes_of "a" ++ q ++ bytes_of ": 1, "
  ++ q ++ bytes_of "a" ++ q ++ bytes_of ": 2}".

(** The bytes of a text whose characters are all ASCII. *)
Definition ascii_bytes (s : str) : bytes :=
  List.flat_map (fun c => match Byte.of_N c with
                          | Some b => [b]
                          | None => []
                          end) s.

(** A number of 4301 digits followed by the letter [x], as text and as
    bytes; and 2000 opening brackets.  Neither is JSON. *)
Definition overlong_text : str := List.repeat (ch "1") 4301 ++ py "x".

Definition overlong_payload : bytes :=
  List.repeat Byte.x31 4301 ++ bytes_of "x".

Definition deep_text : str := List.repeat (ch "[") 2000.

Definition deep_payload : bytes := List.repeat Byte.x5b 2000.

Definition bad_message : message :=
  {| topic := device_topic; payload := bad_utf8 |}.

Definition overlong_message : message :=
  {| topic := device_topic; payload := overlong_payload |}.

Definition deep_message : message :=
  {| topic := device_topic; payload := deep_payload |}.

Definition text_message : message :=
  {| topic := device_topic; payload := bytes_of " not json " |}.

Definition blank_message : message :=
  {| topic := device_topic; payload := bytes_of "   " |}.

Definition other_message : message :=
  {| topic := other_topic; payload := bytes_of "7" |}.

Definition zero_message : message :=
  {| topic := device_topic; payload := bytes_of "0" |}.

End Samples.


(** * The forwarder and its values *)

Section Forwarder.

Context {F : Type} {FL : PyFloat F} {RT : PyRuntime}.

(** ** Python values, as [json.loads] builds them *)

(** A [dict] keeps its keys in insertion order; [json.loads] only builds
    dicts with [str] keys. *)
#[local] Unset Elimination Schemes.

Inductive value :=
| VNone
| VBool (b : bool)
| VInt (n : Z)
| VFloat (f : F)
| VStr (s : str)
| VList (l : list value)
| VDict (d : list (str * value)).

#[local] Set Elimination Schemes.

(** [d[k] = v]: an existing key keeps its place and takes the new value. *)
Fixpoint dict_set (d : list (str * value)) (k : str) (v : value)
  : list (str * value) :=
  match d with
  | [] => [(k, v)]
  | (k', v') :: d' =>
      if Str.eqb k' k then (k', v) :: d' else (k', v') :: dict_set d' k v
  end.

(** [d.get(k)] *)
Fixpoint dict_get (d : list (str * value)) (k : str) : option value :=
  match d with
  | [] => None
  | (k', v') :: d' => if Str.eqb k' k then Some v' else dict_get d' k
  end.

(** [bool(v)]: what [not v] negates. *)
Definition truthy (v : value) : bool :=
  match v with
  | VNone => false
  | VBool b => b
  | VInt n => negb (n =? 0)%Z
  | VFloat f => negb (float_is_zero f)
  | VStr s => match s with [] => false | _ => true end
  | VList l => match l with [] => false | _ => true end
  | VDict d => match d with [] => false | _ => true end
  end.

(** [isinstance(v, dict)] and [isinstance(v, list)] *)
Definition is_dict (v : value) : bool :=
  match v with VDict _ => true | _ => false end.

Definition is_list (v : value) : bool :=
  match v with VList _ => true | _ => false end.

(** ** The decoder, limits set aside *)

(** The number at the head of [s], as [int] or [float]. *)
Definition scan_number (s : str) : scan value :=
  match match_number s with
  | Some (is_float, text, rest) =>
      if is_float
      then Scanned (VFloat (float_of_literal text)) rest
      else Scanned (VInt (int_of_literal text)) rest
  | None => DecodeError
  end.

(** [scan_once], with the loops of the object and array parsers.
    [parse_object] and [parse_array] start where a key, respectively an
    element, is expected. *)
Fixpoint scan_once (fuel : nat) (s : str) {struct fuel} : scan value :=
  match fuel with
  | O => OutOfFuel
  | S fuel' =>
      match s with
      | [] => DecodeError
      | c :: s' =>
          if (c =? QUOTE)%N then
            match scanstring s' with
            | Some (text, rest) => Scanned (VStr text) rest
            | None => DecodeError
            end
          else if (c =? ch "{")%N then
            match skip_ws s' with
            | c1 :: s1 =>
                if (c1 =? ch "}")%N then Scanned (VDict []) s1
                else parse_object fuel' [] (c1 :: s1)
            | [] => DecodeError
            end
          else if (c =? ch "[")%N then
            match skip_ws s' with
            | c1 :: s1 =>
                if (c1 =? ch "]")%N then Scanned (VList []) s1
                else parse_array fuel' [] (c1 :: s1)
            | [] => DecodeError
            end
          else if startswith (py "null") s then
            Scanned VNone (skipn 4 s)
          else if startswith (py "true") s then
            Scanned (VBool true) (skipn 4 s)
          else if startswith (py "false") s then
            Scanned (VBool false) (skipn 5 s)
          else if startswith (py "NaN") s then
            Scanned (VFloat float_nan) (skipn 3 s)
          else if startswith (py "Infinity") s then
            Scanned (VFloat float_inf) (skipn 8 s)
          else if startswith (py "-Infinity") s then
            Scanned (VFloat float_neginf) (skipn 9 s)
          else scan_number s
      end
  end

with parse_object (fuel : nat) (pairs : list (str * value)) (s : str)
       {struct fuel} : scan value :=
  match fuel with
  | O => OutOfFuel
  | S fuel' =>
      match s with
      | [] => DecodeError
      | q :: s1 =>
          if (q =? QUOTE)%N then
            match scanstring s1 with
            | None => DecodeError
            | Some (key, s2) =>
                match skip_ws s2 with
                | [] => DecodeError
                | colon :: s3 =>
                    if (colon =? ch ":")%N then
                      match scan_once fuel' (skip_ws s3) with
                      | Scanned v s4 =>
                          let pairs' := dict_set pairs key v in
                          match skip_ws s4 with
                          | [] => DecodeError
                          | d :: s5 =>
                              if (d =? ch "}")%N
                              then Scanned (VDict pairs') s5
                              else if (d =? ch ",")%N
                              then parse_object fuel' pairs' (skip_ws s5)
                              else DecodeError
                          end
                      | DecodeError => DecodeError
                      | OutOfFuel => OutOfFuel
                      end
                    else DecodeError
                end
            end
          else DecodeError
      end
  end

with parse_array (fuel : nat) (items : list value) (s : str)
       {struct fuel} : scan value :=
  match fuel with
  | O => OutOfFuel
  | S fuel' =>
      match scan_once fuel' s with
      | Scanned v s1 =>
          let items' := items ++ [v] in
          match skip_ws s1 with
          | [] => DecodeError
          | d :: s2 =>
              if (d =? ch "]")%N then Scanned (VList items') s2
              else if (d =? ch ",")%N
              then parse_array fuel' items' (skip_ws s2)
              else DecodeError
          end
      | DecodeError => DecodeError
      | OutOfFuel => OutOfFuel
      end
  end.

(** [JSONDecoder.decode]: one term, with whitespace allowed around it
    and nothing else after it.  The fuel is more than twice the length of
    the text, which no scan uses up ([decode_total] below). *)
Definition decode (s : str) : scan value :=
  match scan_once (S (2 * List.length s)) (skip_ws s) with
  | Scanned v rest =>
      match skip_ws rest with
      | [] => Scanned v []
      | _ :: _ => DecodeError
      end
  | DecodeError => DecodeError
  | OutOfFuel => OutOfFuel
  end.

(** The value a text denotes: what [json.loads(s)] returns when it meets
    no limit of the interpreter.  [None] stands for [JSONDecodeError]; a
    text that starts with a byte order mark is refused outright. *)
Definition json_value (s : str) : option value :=
  if startswith [65279%N] s then None
  else
    match decode s with
    | Scanned v _ => Some v
    | DecodeError => None
    | OutOfFuel => None
    end.

(** How the encoder writes a float. *)
Definition float_str (f : F) : str :=
  match float_kind_of f with
  | Finite => float_repr f
  | NotANumber => py "NaN"
  | PosInf => py "Infinity"
  | NegInf => py "-Infinity"
  end.

Fixpoint json_dumps (v : value) : str :=
  match v with
  | VNone => py "null"
  | VBool true => py "true"
  | VBool false => py "false"
  | VInt n => int_repr n
  | VFloat f => float_str f
  | VStr s => encode_basestring s
  | VList l => ch "[" :: join (py ", ") (List.map json_dumps l) ++ [ch "]"]
  | VDict d =>
      ch "{"
      :: join (py ", ")
           (List.map (fun kv => encode_basestring (fst kv) ++ py ": "
                                ++ json_dumps (snd kv)) d)
      ++ [ch "}"]
  end.

(** ** The forwarder *)

(** The exceptions the handler can meet.  [ClientError] is whatever the
    MQTT client raises from [publish]. *)
Inductive exn :=
| UnicodeDecodeError
| JSONDecodeError
| ValueError
| RecursionError
| KeyError (k : str)
| TypeError
| ClientError (code : Z).

Inductive result (A : Type) :=
| Ok (a : A)
| Raise (e : exn).

Arguments Ok {A}.
Arguments Raise {A}.

(** ** The decoder, as the interpreter runs it *)

(** What a call of the scanner comes to: a term and the rest of the text,
    or an exception.  [Raised JSONDecodeError] also stands for the
    [StopIteration] that [raw_decode] turns into one. *)
Inductive scanned :=
| Returned (v : value) (rest : str)
| Raised (e : exn)
| NoFuel.

(** The deepest nesting [json.loads] enters. *)
Definition max_nesting : nat := S nesting_spare.

(** Whether [int(text)] refuses a literal of so many digits: only past
    640 digits is the limit looked at, and 0 turns it off. *)
Definition int_too_long (digits : nat) : bool :=
  ((640 <? digits) && (0 <? int_max_str_digits)
   && (int_max_str_digits <? digits))%nat.

(** [_match_number_unicode]: the number at the head of [s].  The digits
    of an integer are counted without its sign. *)
Definition match_number_unicode (s : str) : scanned :=
  match match_number s with
  | Some (is_float, text, rest) =>
      if is_float
      then Returned (VFloat (float_of_literal text)) rest
      else if int_too_long (List.length (snd (read_sign text)))
      then Raised ValueError
      else Returned (VInt (int_of_literal text)) rest
  | None => Raised JSONDecodeError
  end.

(** [scan_once_unicode], with [_parse_object_unicode] and
    [_parse_array_unicode].  [room] is the number of objects and arrays
    that can still be entered, one inside the other: entering one when
    none is left is what [Py_EnterRecursiveCall] refuses. *)
Fixpoint scan_once_unicode (fuel room : nat) (s : str) {struct fuel}
  : scanned :=
  match fuel with
  | O => NoFuel
  | S fuel' =>
      match s with
      | [] => Raised JSONDecodeError
      | c :: s' =>
          if (c =? QUOTE)%N then
            match scanstring s' with
            | Some (text, rest) => Returned (VStr text) rest
            | None => Raised JSONDecodeError
            end
          else if (c =? ch "{")%N then
            match room with
            | O => Raised RecursionError
            | S room' =>
                match skip_ws s' with
                | c1 :: s1 =>
                    if (c1 =? ch "}")%N then Returned (VDict []) s1
                    else parse_object_unicode fuel' room' [] (c1 :: s1)
                | [] => Raised JSONDecodeError
                end
            end
          else if (c =? ch "[")%N then
            match room with
            | O => Raised RecursionError
            | S room' =>
                match skip_ws s' with
                | c1 :: s1 =>
                    if (c1 =? ch "]")%N then Returned (VList []) s1
                    else parse_array_unicode fuel' room' [] (c1 :: s1)
                | [] => Raised JSONDecodeError
                end
            end
          else if startswith (py "null") s then
            Returned VNone (skipn 4 s)
          else if startswith (py "true") s then
            Returned (VBool true) (skipn 4 s)
          else if startswith (py "false") s then
            Returned (VBool false) (skipn 5 s)
          else if startswith (py "NaN") s then
            Returned (VFloat float_nan) (skipn 3 s)
          else if startswith (py "Infinity") s then
            Returned (VFloat float_inf) (skipn 8 s)
          else if startswith (py "-Infinity") s then
            Returned (VFloat float_neginf) (skipn 9 s)
          else match_number_unicode s
      end
  end

with parse_object_unicode (fuel room : nat) (pairs : list (str * value))
       (s : str) {struct fuel} : scanned :=
  match fuel with
  | O => NoFuel
  | S fuel' =>
      match s with
      | [] => Raised JSONDecodeError
      | q :: s1 =>
          if (q =? QUOTE)%N then
            match scanstring s1 with
            | None => Raised JSONDecodeError
            | Some (key, s2) =>
                match skip_ws s2 with
                | [] => Raised JSONDecodeError
                | colon :: s3 =>
                    if (colon =? ch ":")%N then
                      match scan_once_unicode fuel' room (skip_ws s3) with
                      | Returned v s4 =>
                          let pairs' := dict_set pairs key v in
                          match skip_ws s4 with
                          | [] => Raised JSONDecodeError
                          | d :: s5 =>
                              if (d =? ch "}")%N
                              then Returned (VDict pairs') s5
                              else if (d =? ch ",")%N
                              then parse_object_unicode fuel' room pairs'
                                     (skip_ws s5)
                              else Raised JSONDecodeError
                          end
                      | Raised e => Raised e
                      | NoFuel => NoFuel
                      end
                    else Raised JSONDecodeError
                end
            end
          else Raised JSONDecodeError
      end
  end

with parse_array_unicode (fuel room : nat) (items : list value) (s : str)
       {struct fuel} : scanned :=
  match fuel with
  | O => NoFuel
  | S fuel' =>
      match scan_once_unicode fuel' room s with
      | Returned v s1 =>
          let items' := items ++ [v] in
          match skip_ws s1 with
          | [] => Raised JSONDecodeError
          | d :: s2 =>
              if (d =? ch "]")%N then Returned (VList items') s2
              else if (d =? ch ",")%N
              then parse_array_unicode fuel' room items' (skip_ws s2)
              else Raised JSONDecodeError
          end
      | Raised e => Raised e
      | NoFuel => NoFuel
      end
  end.

(** [JSONDecoder.decode], with the fuel of [decode]. *)
Definition decode_unicode (s : str) : scanned :=
  match scan_once_unicode (S (2 * List.length s)) max_nesting (skip_ws s) with
  | Returned v rest =>
      match skip_ws rest with
      | [] => Returned v []
      | _ :: _ => Raised JSONDecodeError
      end
  | Raised e => Raised e
  | NoFuel => NoFuel
  end.

(** [json.loads(s)] for a [str].  A text that starts with a byte order
    mark is refused outright.  The fuel is never used up
    ([decode_unicode_total] below). *)
Definition json_loads (s : str) : result value :=
  if startswith [65279%N] s then Raise JSONDecodeError
  else
    match decode_unicode s with
    | Returned v _ => Ok v
    | Raised e => Raise e
    | NoFuel => Raise JSONDecodeError
    end.

(** The exceptions of [json.loads] that come from a limit of the
    interpreter, not from the text being malformed. *)
Definition is_limit (e : exn) : bool :=
  match e with
  | ValueError | RecursionError => true
  | _ => false
  end.

(** Whether [json.loads] reads a text through without meeting a limit. *)
Definition within_limits (text : str) : bool :=
  match json_loads text with
  | Ok _ => true
  | Raise e => negb (is_limit e)
  end.

(** A result of the scanner as the interpreter runs it, against the
    result with the limits set aside: the same, unless a limit was met. *)
Definition agree (r : scanned) (p : scan value) : Prop :=
  match r with
  | Returned v rest => p = Scanned v rest
  | Raised e =>
      if is_limit e then True else e = JSONDecodeError /\ p = DecodeError
  | NoFuel => p = OutOfFuel
  end.

(** A result that is not an exception from a limit. *)
Definition no_limit (r : scanned) : Prop :=
  match r with
  | Raised e => is_limit e = false
  | _ => True
  end.

(** A text too short to meet a limit: it has no more characters than
    [json.loads] enters levels of nesting, nor than [int] accepts
    digits. *)
Definition short_enough (text : str) : bool :=
  (List.length text <=? max_nesting)%nat
  && negb (int_too_long (List.length text)).

(** [paho.mqtt.client.Client], as far as the handler uses it: [publish]
    either raises or returns the [rc] of its result. *)
Record mqtt_client := {
  publish : value -> str -> result Z
}.

Definition MQTT_ERR_SUCCESS : Z := 0.

(** The attributes of an [MQTTForwarder]. *)
Record forwarder := {
  config : value;
  client : option mqtt_client;
  is_running : bool;
  is_connected : bool
}.

Inductive level := INFO | WARNING | ERROR.

(** The log lines of the handler, by content. *)
Inductive log_line :=
| EmptyMessageSkipped
| DeviceMessage (device_id payload : str)
| EmptyJsonSkipped
| HandlerFailed (e : exn)
| ForwardSucceeded (sn topic : value)
| ForwardFailed (rc : Z)
| ClientNotConnected
| ForwardRaised (e : exn).

(** What the handler does to the outside: log lines, and calls of
    [client.publish]. *)
Inductive event :=
| Log (lvl : level) (line : log_line)
| Publish (topic : value) (text : str).

(** Methods of the forwarder: they read and may update [self], emit
    events, and return or raise. *)
Definition M (A : Type) : Type :=
  forwarder -> result A * forwarder * list event.

Definition ret {A : Type} (a : A) : M A :=
  fun self => (Ok a, self, []).

Definition bind {A B : Type} (m : M A) (k : A -> M B) : M B :=
  fun self =>
    match m self with
    | (Ok a, self1, ev1) =>
        let '(r, self2, ev2) := k a self1 in (r, self2, ev1 ++ ev2)
    | (Raise e, self1, ev1) => (Raise e, self1, ev1)
    end.

(** [try: m  except Exception as e: handler e] *)
Definition try_except {A : Type} (m : M A) (handler : exn -> M A) : M A :=
  fun self =>
    match m self with
    | (Ok a, self1, ev1) => (Ok a, self1, ev1)
    | (Raise e, self1, ev1) =>
        let '(r, self2, ev2) := handler e self1 in (r, self2, ev1 ++ ev2)
    end.

Definition lift {A : Type} (r : result A) : M A :=
  fun self => (r, self, []).

Definition get_self : M forwarder :=
  fun self => (Ok self, self, []).

Definition log (lvl : level) (line : log_line) : M unit :=
  fun self => (Ok tt, self, [Log lvl line]).

(** [client.publish(topic, text)] *)
Definition call_publish (c : mqtt_client) (topic : value) (text : str)
  : M Z :=
  fun self => (publish c topic text, self, [Publish topic text]).

Notation "x <- m ;; k" := (bind m (fun x => k))
  (at level 61, m at next level, right associativity).
Notation "m ;;; k" := (bind m (fun _ => k))
  (at level 61, right associativity).

(** [v[k]] for a [str] key. *)
Definition getitem (v : value) (k : str) : result value :=
  match v with
  | VDict d =>
      match dict_get d k with
      | Some x => Ok x
      | None => Raise (KeyError k)
      end
  | _ => Raise TypeError
  end.

(** [is_json]: [True] when [json.loads(text)] returns, [False] when it
    raises [JSONDecodeError] or [TypeError]; any other exception leaves
    [is_json].  ([on_message] calls [json.loads] again when the answer is
    [True], one frame less deep than [is_json] did: with at least as much
    room for nesting, so with the same result.) *)
Definition is_json (text : str) : result bool :=
  match json_loads text with
  | Ok _ => Ok true
  | Raise JSONDecodeError => Ok false
  | Raise TypeError => Ok false
  | Raise e => Raise e
  end.

(** One [{"name": key, "value": value}]. *)
Definition record (kv : str * value) : value :=
  VDict [(py "name", VStr (fst kv)); (py "value", snd kv)].

(** [convert_json_format]: a dict becomes the list of its records, in
    the order of [data.items()]; anything else is returned as it is. *)
Definition convert_json_format (data : value) : value :=
  match data with
  | VDict d => VList (List.map record d)
  | _ => data
  end.

(** [forward_message] *)
Definition forward_message (data : value) : M unit :=
  try_except
    (self <- get_self ;;
     match client self with
     | Some c =>
         if is_connected self then
           let message_json := json_dumps data in
           forward <- lift (getitem (config self) (py "forward")) ;;
           topic <- lift (getitem forward (py "topic")) ;;
           rc <- call_publish c topic message_json ;;
           if (rc =? MQTT_ERR_SUCCESS)%Z then
             sn <- lift (getitem data (py "SN")) ;;
             log INFO (ForwardSucceeded sn topic)
           else log ERROR (ForwardFailed rc)
         else log ERROR ClientNotConnected
     | None => log ERROR ClientNotConnected
     end)
    (fun e => log ERROR (ForwardRaised e)).

(** [data_content if isinstance(data_content, list) else [data_content]] *)
Definition as_array (data_content : value) : value :=
  if is_list data_content then data_content else VList [data_content].

(** The dict built as [forward_data]. *)
Definition forward_data (data_array : value) (device_id : str) (now : Z)
  : value :=
  VDict [(py "data", data_array);
         (py "SN", VStr (py "AMT" ++ device_id));
         (py "Type", VStr (py "park"));
         (py "flexem_timestamp", VInt now)].

(** [not parsed_data or (isinstance(parsed_data, dict)
     and len(parsed_data) == 0)] *)
Definition is_empty_json (parsed_data : value) : bool :=
  negb (truthy parsed_data)
  || (is_dict parsed_data
      && match parsed_data with
         | VDict d => (List.length d =? 0)%nat
         | _ => false
         end).

(** [on_message].  [now] is the clock reading
    [int(time.time() * 1000)] at the moment the envelope is built. *)
Definition on_message (msg : message) (now : Z) : M unit :=
  try_except
    (let topic := topic msg in
     text <- lift (match utf8_decode (payload msg) with
                   | Some t => Ok t
                   | None => Raise UnicodeDecodeError
                   end) ;;
     let payload := strip text in
     if Json.is_nil payload then log INFO EmptyMessageSkipped
     else if startswith (py "status/AMT") topic then
       let device_id := replace (py "status/AMT") [] topic in
       log INFO (DeviceMessage device_id payload) ;;;
       valid <- lift (is_json payload) ;;
       if valid then
         parsed_data <- lift (json_loads payload) ;;
         if is_empty_json parsed_data then log INFO EmptyJsonSkipped
         else
           let data_content := convert_json_format parsed_data in
           forward_message
             (forward_data (as_array data_content) device_id now)
       else
         let data_content := VStr payload in
         forward_message
           (forward_data (as_array data_content) device_id now)
     else ret tt)
    (fun e => log ERROR (HandlerFailed e)).

(** ** The decision inside [on_message]

    What [on_message] has settled by the time it would call
    [forward_message]: the spec's [decide]. *)

Inductive skip_reason := EmptyPayload | EmptyJson.

Inductive outcome :=
| Skip (why : skip_reason)
| OtherTopic
| Forward (envelope : value)
| Failed (e : exn).

Definition decide (topic : str) (raw : bytes) (now : Z) : outcome :=
  match utf8_decode raw with
  | None => Failed UnicodeDecodeError
  | Some text =>
      let payload := strip text in
      if Json.is_nil payload then Skip EmptyPayload
      else if startswith (py "status/AMT") topic then
        let device_id := replace (py "status/AMT") [] topic in
        match is_json payload with
        | Ok true =>
            match json_loads payload with
            | Ok parsed_data =>
                if is_empty_json parsed_data then Skip EmptyJson
                else Forward (forward_data
                                (as_array (convert_json_format parsed_data))
                                device_id now)
            | Raise e => Failed e
            end
        | Ok false =>
            Forward (forward_data (as_array (VStr payload)) device_id now)
        | Raise e => Failed e
        end
      else OtherTopic
  end.

(** The [data] entry of an envelope. *)
Definition data_of (envelope : value) : option value :=
  match envelope with
  | VDict d => dict_get d (py "data")
  | _ => None
  end.

Definition SN_of (envelope : value) : option value :=
  match envelope with
  | VDict d => dict_get d (py "SN")
  | _ => None
  end.

(** The calls of [client.publish] among the events. *)
Definition published (evs : list event) : list (value * str) :=
  List.flat_map (fun ev => match ev with
                           | Publish t m => [(t, m)]
                           | Log _ _ => []
                           end) evs.

(** The lines logged at level [ERROR]. *)
Definition errors (evs : list event) : list log_line :=
  List.flat_map (fun ev => match ev with
                           | Log ERROR line => [line]
                           | _ => []
                           end) evs.

(** The events of one call of [on_message], read off the decision. *)
Definition handler_events (self : forwarder) (msg : message) (now : Z)
  : list event :=
  let device_id := replace (py "status/AMT") [] (topic msg) in
  let text := match utf8_decode (payload msg) with
              | Some t => strip t
              | None => []
              end in
  match decide (topic msg) (payload msg) now with
  | Failed e =>
      match utf8_decode (payload msg) with
      | Some _ =>
          [Log INFO (DeviceMessage device_id text);
           Log ERROR (HandlerFailed e)]
      | None => [Log ERROR (HandlerFailed e)]
      end
  | Skip EmptyPayload => [Log INFO EmptyMessageSkipped]
  | Skip EmptyJson =>
      [Log INFO (DeviceMessage device_id text); Log INFO EmptyJsonSkipped]
  | OtherTopic => []
  | Forward envelope =>
      Log INFO (DeviceMessage device_id text)
      :: snd (forward_message envelope self)
  end.

(** A connected client whose [publish] always succeeds, and a
    configuration with the outbound topic [park/data]. *)
Definition good_client : mqtt_client :=
  {| publish := fun _ _ => Ok 0%Z |}.

Definition connected : forwarder :=
  {| config := VDict [(py "forward",
                       VDict [(py "topic", VStr (py "park/data"))])];
     client := Some good_client;
     is_running := true;
     is_connected := true |}.

(** ** Values that [json.loads] can return

    What the round trip through [json.dumps] and [json.loads] relies on:
    the floats are finite or one of the three special values, and no dict
    holds a key twice. *)

Definition float_ok (f : F) : Prop :=
  float_kind_of f = Finite
  \/ f = float_nan \/ f = float_inf \/ f = float_neginf.

#[warnings="-register-all"]
Inductive wf_value : value -> Prop :=
| wf_none : wf_value VNone
| wf_bool (b : bool) : wf_value (VBool b)
| wf_int (n : Z) : wf_value (VInt n)
| wf_float (f : F) : float_ok f -> wf_value (VFloat f)
| wf_str (s : str) : wf_value (VStr s)
| wf_list (l : list value) : Forall wf_value l -> wf_value (VList l)
| wf_dict (d : list (str * value)) :
    NoDup (List.map fst d) ->
    Forall (fun kv => wf_value (snd kv)) d ->
    wf_value (VDict d).

(** Whether a text is a number literal with a fraction or an exponent,
    matched to its end. *)
Definition is_float_literal (text : str) : bool :=
  match match_number text with
  | Some (true, _, []) => true
  | _ => false
  end.

(** What the round trip assumes of the floats: [float.__repr__] of a
    finite float is a number literal with a fraction or an exponent, from
    which [float] gives the same float back; [float] of a literal is
    finite, or an infinity when the literal is out of range; and the three
    special values are told apart. *)
Class PyFloatLaws : Prop := {
  repr_is_literal :
    forall f, float_kind_of f = Finite ->
              is_float_literal (float_repr f) = true;
  repr_round_trip :
    forall f, float_kind_of f = Finite -> float_of_literal (float_repr f) = f;
  literal_is_ok : forall text, float_ok (float_of_literal text);
  kind_of_nan : float_kind_of float_nan = NotANumber;
  kind_of_inf : float_kind_of float_inf = PosInf;
  kind_of_neginf : float_kind_of float_neginf = NegInf
}.

(** The number of nodes of a value: fuel enough to scan its text. *)
Fixpoint vsize (v : value) : nat :=
  match v with
  | VList l => S (list_sum (List.map (fun x => S (vsize x)) l))
  | VDict d => S (list_sum (List.map (fun kv => S (vsize (snd kv))) d))
  | _ => 1
  end.

(** Induction on values, through the lists and dicts inside them. *)
Fixpoint value_induction (P : value -> Prop)
    (HNone : P VNone)
    (HBool : forall b, P (VBool b))
    (HInt : forall n, P (VInt n))
    (HFloat : forall f, P (VFloat f))
    (HStr : forall s, P (VStr s))
    (HList : forall l, Forall P l -> P (VList l))
    (HDict : forall d, Forall (fun kv => P (snd kv)) d -> P (VDict d))
    (v : value) {struct v} : P v :=
  let rec := value_induction P HNone HBool HInt HFloat HStr HList HDict in
  match v with
  | VNone => HNone
  | VBool b => HBool b
  | VInt n => HInt n
  | VFloat f => HFloat f
  | VStr s => HStr s
  | VList l =>
      HList l
        ((fix go (l : list value) : Forall P l :=
            match l with
            | [] => Forall_nil P
            | x :: l' => Forall_cons x (rec x) (go l')
            end) l)
  | VDict d =>
      HDict d
        ((fix go (d : list (str * value))
           : Forall (fun kv => P (snd kv)) d :=
            match d with
            | [] => Forall_nil _
            | kv :: d' => Forall_cons kv (rec (snd kv)) (go d')
            end) d)
  end.

(** What may follow a number in a text for the number to end there:
    nothing, or a character that no step of the matcher reads. *)
Definition ends_number (rest : str) : bool :=
  match rest with
  | [] => true
  | c :: _ =>
      negb (is_digit c || (c =? ch ".") || (c =? ch "e") || (c =? ch "E")
            || (c =? ch "+") || (c =? ch "-"))%N
  end.

(** One entry of a dict as [json.dumps] writes it. *)
Definition dumps_entry (kv : str * value) : str :=
  encode_basestring (fst kv) ++ py ": " ++ json_dumps (snd kv).

(** [scan_once] reads the text of [v] back, given fuel for its nodes and a
    text that goes on with something that ends a number. *)
Definition scans_back (v : value) : Prop :=
  forall fuel rest,
    vsize v <= fuel ->
    ends_number rest = true ->
    scan_once fuel (json_dumps v ++ rest) = Scanned v rest.

(** ** The connection callbacks *)

(** [repr] of a list or a dict, as [str] falls back on it: the one part of
    [str] that is left open here. *)
Variable repr_container : value -> str.

(** [str(v)], as an f-string applies it to [v]. *)
Definition py_str (v : value) : str :=
  match v with
  | VNone => py "None"
  | VBool true => py "True"
  | VBool false => py "False"
  | VInt n => int_repr n
  | VFloat f => float_repr f
  | VStr s => s
  | VList _ => repr_container v
  | VDict _ => repr_container v
  end.

(** What [for x in v] runs over: the items of a list, the keys of a dict,
    the characters of a string; anything else is not iterable. *)
Definition iterate (v : value) : result (list value) :=
  match v with
  | VList l => Ok l
  | VDict d => Ok (List.map (fun kv => VStr (fst kv)) d)
  | VStr s => Ok (List.map (fun c => VStr [c]) s)
  | _ => Raise TypeError
  end.

(** The client handed to [on_connect], as far as it is used: [subscribe]
    returns or raises. *)
Record mqtt_subscriber := {
  subscribe : str -> result unit
}.

(** The log lines of the connection callbacks, by content. *)
Inductive conn_line :=
| BrokerConnected
| TopicSubscribed (topic : str)
| ConnectFailed (rc : Z)
| BrokerDisconnected (rc : Z).

(** What the connection callbacks do to the outside: log lines, and calls
    of [client.subscribe]. *)
Inductive conn_event :=
| ConnLog (lvl : level) (line : conn_line)
| Subscribe (topic : str).

(** [self.is_connected = b] *)
Definition set_connected (b : bool) (self : forwarder) : forwarder :=
  {| config := config self;
     client := client self;
     is_running := is_running self;
     is_connected := b |}.

(** [f"status/AMT{device_id}"] *)
Definition subscription_topic (device_id : value) : str :=
  py "status/AMT" ++ py_str device_id.

(** The loop of [on_connect] over the devices: subscribe, then log; an
    exception from [subscribe] ends the loop. *)
Fixpoint subscribe_all (c : mqtt_subscriber) (devices : list value)
  : result unit * list conn_event :=
  match devices with
  | [] => (Ok tt, [])
  | device_id :: rest =>
      let topic := subscription_topic device_id in
      match subscribe c topic with
      | Ok _ =>
          let '(r, evs) := subscribe_all c rest in
          (r, Subscribe topic :: ConnLog INFO (TopicSubscribed topic) :: evs)
      | Raise e => (Raise e, [Subscribe topic])
      end
  end.

(** [on_connect]: the result, the forwarder afterwards, and the events. *)
Definition on_connect (c : mqtt_subscriber) (rc : Z) (self : forwarder)
  : result unit * forwarder * list conn_event :=
  if (rc =? 0)%Z then
    let self1 := set_connected true self in
    match getitem (config self1) (py "devices") with
    | Raise e => (Raise e, self1, [ConnLog INFO BrokerConnected])
    | Ok devices =>
        match iterate devices with
        | Raise e => (Raise e, self1, [ConnLog INFO BrokerConnected])
        | Ok items =>
            let '(r, evs) := subscribe_all c items in
            (r, self1, ConnLog INFO BrokerConnected :: evs)
        end
    end
  else
    (Ok tt, set_connected false self, [ConnLog ERROR (ConnectFailed rc)]).

(** [on_disconnect] *)
Definition on_disconnect (rc : Z) (self : forwarder)
  : result unit * forwarder * list conn_event :=
  (Ok tt, set_connected false self, [ConnLog WARNING (BrokerDisconnected rc)]).

(** The forwarder a callback leaves behind. *)
Definition state_after {A E : Type} (r : result A * forwarder * list E)
  : forwarder := snd (fst r).

(** The topics of the calls of [client.subscribe] among the events. *)
Definition subscribed (evs : list conn_event) : list str :=
  List.flat_map (fun ev => match ev with
                           | Subscribe t => [t]
                           | ConnLog _ _ => []
                           end) evs.

(** What [on_connect] emits for one device it subscribed. *)
Definition subscription_events (device_id : value) : list conn_event :=
  [Subscribe (subscription_topic device_id);
   ConnLog INFO (TopicSubscribed (subscription_topic device_id))].

(** ** Loading the configuration *)

(** What [open(config_file, 'r', encoding='utf-8')] meets: no such file,
    another operating system error, or a file with its bytes. *)
Inductive opened :=
| FileNotFound
| OtherOSError
| Opened (content : bytes).

(** Reading in text mode turns every line ending, [\r\n] or [\r], into
    [\n]. *)
Fixpoint universal_newlines (s : str) : str :=
  match s with
  | [] => []
  | c :: s' =>
      if (c =? 13)%N then
        10%N :: match s' with
                | d :: s'' =>
                    if (d =? 10)%N then universal_newlines s''
                    else universal_newlines s'
                | [] => []
                end
      else c :: universal_newlines s'
  end.

(** The exceptions [load_config] lets through: those of opening and
    reading the file, and what [json.load] raises other than
    [JSONDecodeError]. *)
Inductive load_error :=
| FileUnicodeError
| FileOSError
| LoadsRaised (e : exn).

(** How [load_config] ends: it returns the configuration, leaves through
    [sys.exit], or raises. *)
Inductive loaded :=
| Config (config : value)
| SysExit (status : Z)
| LoadRaised (e : load_error).

Inductive load_line := ConfigLoaded | ConfigMissing | ConfigMalformed.

(** [load_config], given what opening the file meets.  [json.load] reads
    the whole file and calls [json.loads]; the limits of the interpreter
    are taken as in the handler. *)
Definition load_config (file : opened) : loaded * list (level * load_line) :=
  match file with
  | FileNotFound => (SysExit 1, [(ERROR, ConfigMissing)])
  | OtherOSError => (LoadRaised FileOSError, [])
  | Opened content =>
      match utf8_decode content with
      | None => (LoadRaised FileUnicodeError, [])
      | Some text =>
          match json_loads (universal_newlines text) with
          | Ok config => (Config config, [(INFO, ConfigLoaded)])
          | Raise JSONDecodeError => (SysExit 1, [(ERROR, ConfigMalformed)])
          | Raise e => (LoadRaised (LoadsRaised e), [])
          end
      end
  end.

(** A configuration with two devices and the outbound topic, a client
    whose [subscribe] always succeeds, and one that refuses the second
    device. *)
Definition roster : value :=
  VDict [(py "devices",
          VList [VStr (py "12345678901234"); VStr (py "00000000000001")]);
         (py "forward", VDict [(py "topic", VStr (py "park/data"))])].

Definition with_roster (is_connected : bool) : forwarder :=
  {| config := roster;
     client := Some good_client;
     is_running := true;
     is_connected := is_connected |}.




(** The envelope of the payload [{"AI1": 0.07997}] from the sample
    device, at clock reading 5. *)
Definition sample_envelope : value :=
  forward_data
    (VList [record (py "AI1", VFloat (float_of_literal (py "0.07997")))])
    (py "12345678901234") 5.

Definition good_subscriber : mqtt_subscriber :=
  {| subscribe := fun _ => Ok tt |}.

Definition picky_subscriber : mqtt_subscriber :=
  {| subscribe := fun t =>
       if Str.eqb t (py "status/AMT00000000000001")
       then Raise (ClientError 4) else Ok tt |}.

(** * Properties *)

(** ** The runtime functions *)

Example startswith_example :
  startswith (py "status/AMT") Samples.device_topic = true.
Proof. reflexivity. Qed.

Example replace_example :
  replace (py "status/AMT") [] Samples.device_topic = py "12345678901234".
Proof. reflexivity. Qed.

Example strip_example : strip (py "  a b ") = py "a b".
Proof. reflexivity. Qed.

Example utf8_decode_example :
  utf8_decode (bytes_of "{}") = Some (py "{}")
  /\ utf8_decode Samples.bad_utf8 = None.
Proof. split; reflexivity. Qed.

Lemma lstrip_spaces (s : str) : forallb isspace s = true -> lstrip s = [].
Proof.
  induction s as [|c s IH]; simpl; [reflexivity|].
  intros H. apply andb_prop in H as [Hc Hs]. rewrite Hc. auto.
Qed.

Lemma strip_spaces (s : str) : forallb isspace s = true -> strip s = [].
Proof.
  intros H. unfold strip, rstrip. rewrite (lstrip_spaces _ H). reflexivity.
Qed.

(** The second test of the guard adds nothing: an empty dict is already
    falsy. *)
Lemma is_empty_json_falsy (v : value) : is_empty_json v = negb (truthy v).
Proof.
  unfold is_empty_json.
  destruct v as [| b | n | f | [|] | [|] | [|]]; simpl;
    rewrite ?orb_false_r; reflexivity.
Qed.

(** [forward_message] catches everything it meets: it returns, and leaves
    the forwarder as it was. *)
Lemma forward_message_returns (data : value) (self : forwarder) :
  exists evs, forward_message data self = (Ok tt, self, evs).
Proof.
  unfold forward_message, try_except, bind, get_self, lift, log,
    call_publish.
  destruct (client self) as [c|]; [|eexists; reflexivity].
  destruct (is_connected self); [|eexists; reflexivity].
  destruct (getitem (config self) (py "forward")) as [fw|e];
    [|eexists; reflexivity].
  destruct (getitem fw (py "topic")) as [tp|e]; [|eexists; reflexivity].
  destruct (publish c tp (json_dumps data)) as [rc|e];
    [|eexists; reflexivity].
  destruct (rc =? MQTT_ERR_SUCCESS)%Z; [|eexists; reflexivity].
  destruct (getitem data (py "SN")); eexists; reflexivity.
Qed.

(** [on_message] always returns, never changes the forwarder, and does
    what [decide] settled. *)
Lemma on_message_decide (self : forwarder) (msg : message) (now : Z) :
  on_message msg now self = (Ok tt, self, handler_events self msg now).
Proof.
  unfold on_message, handler_events, decide, try_except, bind, lift, log,
    ret.
  destruct (utf8_decode (payload msg)) as [text|]; [|reflexivity].
  destruct (Json.is_nil (strip text)); [reflexivity|].
  destruct (startswith (py "status/AMT") (topic msg)); [|reflexivity].
  pose proof (forward_message_returns
                (forward_data (as_array (VStr (strip text)))
                   (replace (py "status/AMT") [] (topic msg)) now) self)
    as [evs Hraw].
  unfold is_json.
  destruct (json_loads (strip text)) as [v|e].
  - destruct (is_empty_json v); [reflexivity|].
    destruct (forward_message_returns
                (forward_data (as_array (convert_json_format v))
                   (replace (py "status/AMT") [] (topic msg)) now) self)
      as [evs' ->].
    reflexivity.
  - destruct e; try reflexivity; rewrite Hraw; reflexivity.
Qed.

(** ** The decisions of the handler *)

Local Abbreviation prefix := (py "status/AMT").

Lemma loads_empty : json_loads [] = Raise JSONDecodeError.
Proof. reflexivity. Qed.

(** [decide] on a device topic, once the payload has been decoded and
    trimmed to a non-empty text that [json.loads] accepts. *)
Lemma decide_parsed (topic : str) (raw : bytes) (now : Z) (text : str)
      (v : value) :
  startswith prefix topic = true ->
  utf8_decode raw = Some text ->
  json_loads (strip text) = Ok v ->
  decide topic raw now =
    if is_empty_json v then Skip EmptyJson
    else Forward (forward_data (as_array (convert_json_format v))
                    (replace prefix [] topic) now).
Proof.
  intros Htopic Hraw Hloads. unfold decide, is_json.
  rewrite Hraw, Htopic, Hloads.
  destruct (strip text) as [|c s] eqn:E; [|reflexivity].
  rewrite loads_empty in Hloads. discriminate.
Qed.

(** [decide] on a device topic for a non-empty text that [json.loads]
    refuses with [JSONDecodeError]. *)
Lemma decide_unparsed (topic : str) (raw : bytes) (now : Z) (text : str) :
  startswith prefix topic = true ->
  utf8_decode raw = Some text ->
  strip text <> [] ->
  json_loads (strip text) = Raise JSONDecodeError ->
  decide topic raw now =
    Forward (forward_data (VList [VStr (strip text)])
               (replace prefix [] topic) now).
Proof.
  intros Htopic Hraw Hne Hloads. unfold decide, is_json.
  rewrite Hraw, Htopic, Hloads.
  destruct (strip text) as [|c s] eqn:E; [contradiction|reflexivity].
Qed.

(** [decide] on a device topic for a text at which [json.loads] meets a
    limit of the interpreter: the exception leaves [is_json]. *)
Lemma decide_limit (topic : str) (raw : bytes) (now : Z) (text : str)
      (e : exn) :
  startswith prefix topic = true ->
  utf8_decode raw = Some text ->
  json_loads (strip text) = Raise e ->
  is_limit e = true ->
  decide topic raw now = Failed e.
Proof.
  intros Htopic Hraw Hloads He. unfold decide, is_json.
  rewrite Hraw, Htopic, Hloads.
  destruct (strip text) as [|c s] eqn:E.
  - rewrite loads_empty in Hloads. injection Hloads as <-. discriminate.
  - destruct e; try discriminate; reflexivity.
Qed.

Lemma decide_blank (topic : str) (raw : bytes) (now : Z) (text : str) :
  utf8_decode raw = Some text ->
  strip text = [] ->
  decide topic raw now = Skip EmptyPayload.
Proof.
  intros Hraw Hstrip. unfold decide. rewrite Hraw, Hstrip. reflexivity.
Qed.

Lemma decide_other_topic (topic : str) (raw : bytes) (now : Z) (text : str) :
  startswith prefix topic = false ->
  utf8_decode raw = Some text ->
  strip text <> [] ->
  decide topic raw now = OtherTopic.
Proof.
  intros Htopic Hraw Hne. unfold decide. rewrite Hraw, Htopic.
  destruct (strip text); [contradiction|reflexivity].
Qed.

(** The two ways to an envelope: [json.loads] returned a value that is
    not empty, or [is_json] answered no. *)
Lemma decide_forward_cases (topic : str) (raw : bytes) (now : Z)
      (envelope : value) :
  decide topic raw now = Forward envelope ->
  exists text,
    utf8_decode raw = Some text
    /\ strip text <> []
    /\ startswith prefix topic = true
    /\ ((exists v,
           json_loads (strip text) = Ok v
           /\ is_empty_json v = false
           /\ envelope
              = forward_data (as_array (convert_json_format v))
                  (replace prefix [] topic) now)
        \/ (is_json (strip text) = Ok false
            /\ envelope
               = forward_data (VList [VStr (strip text)])
                   (replace prefix [] topic) now)).
Proof.
  unfold decide.
  destruct (utf8_decode raw) as [text|]; [|discriminate].
  destruct (strip text) as [|c t] eqn:E; [discriminate|]. cbn [is_nil].
  destruct (startswith prefix topic); [|discriminate].
  intros H. exists text. split; [reflexivity|]. rewrite E.
  split; [discriminate|]. split; [reflexivity|].
  destruct (is_json (c :: t)) as [[|]|e] eqn:J; [| |discriminate].
  - left. destruct (json_loads (c :: t)) as [v|e]; [|discriminate].
    exists v. split; [reflexivity|].
    destruct (is_empty_json v); [discriminate|].
    injection H as <-. split; reflexivity.
  - right. injection H as <-. split; reflexivity.
Qed.

(** A decision other than [Forward] publishes nothing. *)
Lemma no_forward_no_publish (self : forwarder) (msg : message) (now : Z) :
  (forall envelope,
      decide (topic msg) (payload msg) now <> Forward envelope) ->
  published (snd (on_message msg now self)) = [].
Proof.
  intros H. rewrite on_message_decide. unfold handler_events. simpl.
  destruct (decide (topic msg) (payload msg) now) as [[|]| |envelope|e];
    try reflexivity.
  - exfalso. apply (H envelope). reflexivity.
  - destruct (utf8_decode (payload msg)); reflexivity.
Qed.

(** What [forward_message] does when the client is connected, the
    configuration names the outbound topic, and [publish] reports
    success. *)
Lemma forward_message_connected (self : forwarder) (c : mqtt_client)
      (fw tp : value) (data_array : value) (device_id : str) (now : Z) :
  client self = Some c ->
  is_connected self = true ->
  getitem (config self) (py "forward") = Ok fw ->
  getitem fw (py "topic") = Ok tp ->
  publish c tp (json_dumps (forward_data data_array device_id now))
    = Ok MQTT_ERR_SUCCESS ->
  forward_message (forward_data data_array device_id now) self
  = (Ok tt, self,
     [Publish tp (json_dumps (forward_data data_array device_id now));
      Log INFO (ForwardSucceeded (VStr (py "AMT" ++ device_id)) tp)]).
Proof.
  intros Hc Hconn Hfw Htp Hpub.
  unfold forward_message, try_except, bind, get_self, lift, log,
    call_publish.
  rewrite Hc, Hconn, Hfw, Htp, Hpub. reflexivity.
Qed.

(** ** The claims about the decision *)

(** The guard [not parsed_data], as the code has it: on a device topic,
    a payload whose trimmed text is [0] or [false] is skipped as an empty
    JSON message, because the parsed value is falsy.  A message is skipped
    exactly when its trimmed text is empty or parses to a falsy value:
    [null], [false], a zero, an empty string, an empty array or an empty
    object. *)
Lemma falsy_json_is_skipped (topic : str) (raw : bytes) (now : Z)
      (text : str) :
  startswith prefix topic = true ->
  utf8_decode raw = Some text ->
  ((strip text = py "0" \/ strip text = py "false") ->
   decide topic raw now = Skip EmptyJson)
  /\ ((exists why, decide topic raw now = Skip why) <->
      (strip text = []
       \/ exists v, json_loads (strip text) = Ok v /\ truthy v = false)).
Proof.
  intros Htopic Hraw. split.
  - intros [H|H].
    + rewrite (decide_parsed topic raw now text (VInt 0) Htopic Hraw);
        [reflexivity | rewrite H; reflexivity].
    + rewrite (decide_parsed topic raw now text (VBool false) Htopic Hraw);
        [reflexivity | rewrite H; reflexivity].
  - split.
    + intros [why Hskip].
      destruct (strip text) as [|c s] eqn:E; [left; reflexivity|right].
      destruct (json_loads (c :: s)) as [v|e] eqn:L.
      * exists v. split; [reflexivity|].
        rewrite <- E in L.
        rewrite (decide_parsed topic raw now text v Htopic Hraw L) in Hskip.
        rewrite is_empty_json_falsy in Hskip.
        destruct (truthy v); [discriminate|reflexivity].
      * exfalso. revert Hskip. unfold decide, is_json.
        rewrite Hraw, Htopic, E, L. cbn [is_nil].
        destruct e; discriminate.
    + intros [H|[v [L T]]].
      * exists EmptyPayload. exact (decide_blank topic raw now text Hraw H).
      * exists EmptyJson.
        rewrite (decide_parsed topic raw now text v Htopic Hraw L).
        rewrite is_empty_json_falsy, T. reflexivity.
Qed.

(** C2, as the code has it: on a device topic, for a payload that parses
    to a truthy value that is not an object, the envelope's [data] is the
    one-element array of that value when it is a string, a number or a
    boolean, and the parsed array itself, not wrapped, when it is an
    array. *)
Theorem non_object_data (topic : str) (raw : bytes) (now : Z) (text : str)
        (v : value) :
  startswith prefix topic = true ->
  utf8_decode raw = Some text ->
  json_loads (strip text) = Ok v ->
  is_dict v = false ->
  truthy v = true ->
  exists envelope,
    decide topic raw now = Forward envelope
    /\ data_of envelope = Some (if is_list v then v else VList [v]).
Proof.
  intros Htopic Hraw L Hd T.
  rewrite (decide_parsed topic raw now text v Htopic Hraw L).
  rewrite is_empty_json_falsy, T.
  simpl. eexists. split; [reflexivity|].
  destruct v; try discriminate; reflexivity.
Qed.

(** C3, as the code has it: on a device topic, the payload [[]] is
    skipped as an empty JSON message, the empty array being falsy. *)
Theorem empty_array_is_skipped (topic : str) (raw : bytes) (now : Z)
        (text : str) :
  startswith prefix topic = true ->
  utf8_decode raw = Some text ->
  strip text = py "[]" ->
  decide topic raw now = Skip EmptyJson.
Proof.
  intros Htopic Hraw H.
  rewrite (decide_parsed topic raw now text (VList []) Htopic Hraw);
    [reflexivity | rewrite H; reflexivity].
Qed.

(** C4, as the code has it.  A payload that is not valid UTF-8 makes the
    handler log an error and forward nothing.  On a device topic, a
    payload that is valid UTF-8, not empty once trimmed, and that
    [json.loads] refuses with [JSONDecodeError] is not rejected: the
    envelope carries the trimmed text as its single [data] element, and
    with a connected client whose [publish] succeeds it is published and
    no error is logged. *)
Theorem malformed_payload_handling (self : forwarder) (msg : message)
        (now : Z) :
  (utf8_decode (payload msg) = None ->
   decide (topic msg) (payload msg) now = Failed UnicodeDecodeError
   /\ on_message msg now self
      = (Ok tt, self, [Log ERROR (HandlerFailed UnicodeDecodeError)]))
  /\ (forall text,
         utf8_decode (payload msg) = Some text ->
         strip text <> [] ->
         json_loads (strip text) = Raise JSONDecodeError ->
         startswith prefix (topic msg) = true ->
         let device_id := replace prefix [] (topic msg) in
         let envelope := forward_data (VList [VStr (strip text)])
                                      device_id now in
         decide (topic msg) (payload msg) now = Forward envelope
         /\ forall c fw tp,
             client self = Some c ->
             is_connected self = true ->
             getitem (config self) (py "forward") = Ok fw ->
             getitem fw (py "topic") = Ok tp ->
             publish c tp (json_dumps envelope) = Ok MQTT_ERR_SUCCESS ->
             on_message msg now self
             = (Ok tt, self,
                [Log INFO (DeviceMessage device_id (strip text));
                 Publish tp (json_dumps envelope);
                 Log INFO (ForwardSucceeded (VStr (py "AMT" ++ device_id))
                             tp)])).
Proof.
  split.
  - intros Hraw.
    assert (D : decide (topic msg) (payload msg) now
                = Failed UnicodeDecodeError)
      by (unfold decide; rewrite Hraw; reflexivity).
    split; [exact D|].
    rewrite on_message_decide. unfold handler_events. rewrite D, Hraw.
    reflexivity.
  - intros text Hraw Hne L Htopic. cbv zeta.
    pose proof (decide_unparsed _ _ now text Htopic Hraw Hne L) as D.
    split; [exact D|].
    intros c fw tp Hc Hconn Hfw Htp Hpub.
    rewrite on_message_decide. unfold handler_events.
    rewrite D, Hraw.
    rewrite (forward_message_connected self c fw tp _ _ _ Hc Hconn Hfw Htp
               Hpub).
    reflexivity.
Qed.

(** C6: on a device topic, for a payload that parses to an object with
    [n >= 1] keys, the envelope's [data] is the array of the [n] records
    [{"name": k, "value": v}], one per entry, in the order of the
    object's entries. *)
Theorem object_becomes_records (topic : str) (raw : bytes) (now : Z)
        (text : str) (d : list (str * value)) :
  startswith prefix topic = true ->
  utf8_decode raw = Some text ->
  json_loads (strip text) = Ok (VDict d) ->
  (1 <= List.length d)%nat ->
  exists envelope data,
    decide topic raw now = Forward envelope
    /\ data_of envelope = Some (VList data)
    /\ List.length data = List.length d
    /\ forall i k v,
         nth_error d i = Some (k, v) ->
         nth_error data i
         = Some (VDict [(py "name", VStr k); (py "value", v)]).
Proof.
  intros Htopic Hraw L Hn.
  rewrite (decide_parsed topic raw now text (VDict d) Htopic Hraw L).
  rewrite is_empty_json_falsy.
  destruct d as [|kv d]; [simpl in Hn; lia|].
  exists (forward_data (VList (List.map record (kv :: d)))
            (replace prefix [] topic) now), (List.map record (kv :: d)).
  split; [reflexivity|]. split; [reflexivity|].
  split; [apply length_map|].
  intros i k v Hi. rewrite nth_error_map, Hi. reflexivity.
Qed.

(** C7: a payload that is empty or only whitespace is skipped; on a
    device topic so are the payloads [{}] and [null]; and in none of
    these cases does the handler publish anything. *)
Theorem empty_payloads_are_skipped (self : forwarder) (msg : message)
        (now : Z) (text : str) :
  utf8_decode (payload msg) = Some text ->
  (forallb isspace text = true
   \/ strip text = py "{}" \/ strip text = py "null") ->
  (forallb isspace text = true ->
   decide (topic msg) (payload msg) now = Skip EmptyPayload)
  /\ (startswith prefix (topic msg) = true ->
      strip text = py "{}" \/ strip text = py "null" ->
      decide (topic msg) (payload msg) now = Skip EmptyJson)
  /\ published (snd (on_message msg now self)) = [].
Proof.
  intros Hraw Hcase.
  assert (Hblank : forallb isspace text = true ->
                   decide (topic msg) (payload msg) now = Skip EmptyPayload)
    by (intros H; apply (decide_blank _ _ now text Hraw), strip_spaces, H).
  assert (Hjson : startswith prefix (topic msg) = true ->
                  strip text = py "{}" \/ strip text = py "null" ->
                  decide (topic msg) (payload msg) now = Skip EmptyJson).
  { intros Htopic [H|H].
    - rewrite (decide_parsed _ _ now text (VDict []) Htopic Hraw);
        [reflexivity | rewrite H; reflexivity].
    - rewrite (decide_parsed _ _ now text VNone Htopic Hraw);
        [reflexivity | rewrite H; reflexivity]. }
  split; [exact Hblank|]. split; [exact Hjson|].
  apply no_forward_no_publish. intros envelope.
  destruct Hcase as [H|H]; [rewrite (Hblank H); discriminate|].
  destruct (startswith prefix (topic msg)) eqn:Htopic.
  - rewrite (Hjson eq_refl H). discriminate.
  - rewrite (decide_other_topic _ _ now text Htopic Hraw); [discriminate|].
    destruct H as [H|H]; rewrite H; discriminate.
Qed.

(** The fallback of [on_message]: on a device topic, for a payload that
    is valid UTF-8, not empty once trimmed, and that [json.loads] refuses
    with [JSONDecodeError], the envelope's [data] is the one-element array
    holding the trimmed text. *)
Lemma opaque_string_fallback (topic : str) (raw : bytes) (now : Z)
      (text : str) :
  startswith prefix topic = true ->
  utf8_decode raw = Some text ->
  strip text <> [] ->
  json_loads (strip text) = Raise JSONDecodeError ->
  exists envelope,
    decide topic raw now = Forward envelope
    /\ data_of envelope = Some (VList [VStr (strip text)]).
Proof.
  intros Htopic Hraw Hne L.
  rewrite (decide_unparsed topic raw now text Htopic Hraw Hne L).
  eexists. split; reflexivity.
Qed.

(** C10: for a message whose topic does not start with [status/AMT] and
    whose payload is valid UTF-8 and not empty once trimmed, the handler
    returns without raising, emits nothing (no publish, no log line), and
    leaves the forwarder as it was. *)
Theorem other_topic_is_ignored (self : forwarder) (msg : message) (now : Z)
        (text : str) :
  startswith prefix (topic msg) = false ->
  utf8_decode (payload msg) = Some text ->
  strip text <> [] ->
  on_message msg now self = (Ok tt, self, []).
Proof.
  intros Htopic Hraw Hne. rewrite on_message_decide.
  unfold handler_events.
  rewrite (decide_other_topic _ _ now text Htopic Hraw Hne). reflexivity.
Qed.

(** ** The device part of a topic *)

Lemma replace_from_plain (old : str) (o : char) (s : str) :
  Forall (fun c => c <> o) s ->
  replace_from (o :: old) [] 0 s = s.
Proof.
  induction 1 as [|c s Hc _ IH]; [reflexivity|].
  cbn [replace_from startswith].
  destruct (N.eqb_spec o c) as [->|_]; [contradiction|].
  cbn [andb]. rewrite IH. reflexivity.
Qed.

(** For a device part without the letter [s], removing every occurrence
    of the prefix removes the one at the front and nothing else. *)
Lemma replace_prefix_plain (suffix : str) :
  Forall (fun c => c <> ch "s") suffix ->
  replace (py "status/AMT") [] (py "status/AMT" ++ suffix) = suffix.
Proof.
  intros H. change (replace (py "status/AMT") [] (py "status/AMT" ++ suffix))
    with (replace_from (py "status/AMT") [] 0 suffix).
  exact (replace_from_plain (py "tatus/AMT") (ch "s") suffix H).
Qed.

(** Every envelope carries the device part [on_message] computed. *)
Lemma decide_forward_SN (topic : str) (raw : bytes) (now : Z)
      (envelope : value) :
  decide topic raw now = Forward envelope ->
  SN_of envelope
  = Some (VStr (py "AMT" ++ replace (py "status/AMT") [] topic)).
Proof.
  intros H.
  destruct (decide_forward_cases topic raw now envelope H)
    as [text [_ [_ [_ [[v [_ [_ ->]]]|[_ ->]]]]]]; reflexivity.
Qed.

(** So for a device part without the letter [s], a 14-digit serial for
    one, [SN] is [AMT] followed by the device part. *)
Lemma SN_of_plain_device (suffix : str) (raw : bytes) (now : Z)
      (envelope : value) :
  Forall (fun c => c <> ch "s") suffix ->
  decide (py "status/AMT" ++ suffix) raw now = Forward envelope ->
  SN_of envelope = Some (VStr (py "AMT" ++ suffix)).
Proof.
  intros Hplain H. rewrite (decide_forward_SN _ _ _ _ H).
  rewrite (replace_prefix_plain suffix Hplain). reflexivity.
Qed.

(** C5, where the code departs from it: the device part is taken with
    [topic.replace("status/AMT", "")], which removes every occurrence of
    the prefix, not only the one at the front.  For the topic
    [status/AMTstatus/AMT1] the envelope's [SN] is [AMT1], while the text
    after the prefix is [status/AMT1]. *)
Theorem SN_drops_every_prefix_occurrence (now : Z) :
  startswith (py "status/AMT") Samples.nested_topic = true
  /\ decide Samples.nested_topic (bytes_of "1") now
     = Forward (forward_data (VList [VInt 1]) (py "1") now)
  /\ SN_of (forward_data (VList [VInt 1]) (py "1") now)
     = Some (VStr (py "AMT1"))
  /\ py "AMT" ++ skipn 10 Samples.nested_topic = py "AMTstatus/AMT1".
Proof. repeat split. Qed.

(** ** Texts: strings *)

Lemma eqb_refl (a : str) : Str.eqb a a = true.
Proof.
  induction a as [|x a IH]; simpl; [reflexivity|].
  rewrite N.eqb_refl. exact IH.
Qed.

Lemma eqb_eq (a b : str) : Str.eqb a b = true <-> a = b.
Proof.
  split; [|intros ->; apply eqb_refl].
  revert b. induction a as [|x a IH]; intros [|y b]; simpl;
    try discriminate; [reflexivity|].
  intros H. apply andb_prop in H as [Hx Hab].
  apply N.eqb_eq in Hx. rewrite Hx, (IH b Hab). reflexivity.
Qed.

Lemma hexval_hexdigit (n : N) : (n < 16)%N -> hexval (hexdigit n) = Some n.
Proof.
  intros Hn. unfold hexdigit, hexval, is_digit.
  destruct (N.ltb_spec n 10) as [Hlt|Hge].
  - replace ((48 <=? 48 + n) && (48 + n <=? 57))%N with true.
    + f_equal. lia.
    + symmetry. apply andb_true_intro. split; apply N.leb_le; lia.
  - replace ((48 <=? 87 + n) && (87 + n <=? 57))%N with false.
    + replace ((97 <=? 87 + n) && (87 + n <=? 102))%N with true.
      * f_equal. lia.
      * symmetry. apply andb_true_intro. split; apply N.leb_le; lia.
    + symmetry. apply andb_false_intro2. apply N.leb_gt. lia.
Qed.

(** The escape the encoder writes for a control character reads back as
    that character. *)
Lemma hex4_control (c : N) :
  (c < 32)%N ->
  hex4 (ch "0") (ch "0") (hexdigit (c / 16)) (hexdigit (c mod 16)) = Some c.
Proof.
  intros Hc. unfold hex4.
  assert (H16 : (c / 16 < 16)%N)
    by (apply N.Div0.div_lt_upper_bound; lia).
  assert (Hm : (c mod 16 < 16)%N) by (apply N.mod_lt; lia).
  rewrite (hexval_hexdigit _ H16), (hexval_hexdigit _ Hm).
  change (hexval (ch "0")) with (Some 0%N). cbv iota beta.
  f_equal. rewrite (N.div_mod c 16) at 3 by lia. lia.
Qed.

Lemma scan_escape_char (c : char) (tail : str) :
  scanstring_from None (escape_char c ++ tail)
  = prepend [c] (scanstring_from None tail).
Proof.
  unfold escape_char.
  destruct (N.eqb_spec c QUOTE) as [->|Hq]; [reflexivity|].
  destruct (N.eqb_spec c BACKSLASH) as [->|Hb]; [reflexivity|].
  destruct (N.eqb_spec c 10) as [->|H10]; [reflexivity|].
  destruct (N.eqb_spec c 13) as [->|H13]; [reflexivity|].
  destruct (N.eqb_spec c 9) as [->|H9]; [reflexivity|].
  destruct (N.eqb_spec c 8) as [->|H8]; [reflexivity|].
  destruct (N.eqb_spec c 12) as [->|H12]; [reflexivity|].
  destruct (N.ltb_spec c 32) as [Hlt|Hge].
  - change (scanstring_from None
              ([BACKSLASH; ch "u"; ch "0"; ch "0"; hexdigit (c / 16);
                hexdigit (c mod 16)] ++ tail))
      with (match hex4 (ch "0") (ch "0") (hexdigit (c / 16))
                       (hexdigit (c mod 16)) with
            | None => None
            | Some uni =>
                if is_high_surrogate uni
                then scanstring_from (Some uni) tail
                else prepend [uni] (scanstring_from None tail)
            end).
    rewrite (hex4_control c Hlt).
    replace (is_high_surrogate c) with false; [reflexivity|].
    symmetry. unfold is_high_surrogate. apply andb_false_intro1.
    apply N.leb_gt. lia.
  - simpl.
    destruct (N.eqb_spec c QUOTE) as [|_]; [contradiction|].
    destruct (N.eqb_spec c BACKSLASH) as [|_]; [contradiction|].
    destruct (N.ltb_spec c 32) as [|_]; [lia|]. reflexivity.
Qed.

(** [scanstring] reads back what [encode_basestring] wrote. *)
Lemma scanstring_encode (s rest : str) :
  scanstring (List.flat_map escape_char s ++ QUOTE :: rest) = Some (s, rest).
Proof.
  unfold scanstring. induction s as [|c s IH]; [reflexivity|].
  simpl flat_map. rewrite <- app_assoc, scan_escape_char, IH. reflexivity.
Qed.

(** ** Texts: numbers *)

Lemma ends_number_head (c : char) (rest : str) :
  ends_number (c :: rest) = true ->
  is_digit c = false
  /\ (c =? ch ".")%N = false /\ (c =? ch "e")%N = false
  /\ (c =? ch "E")%N = false /\ (c =? ch "+")%N = false
  /\ (c =? ch "-")%N = false.
Proof.
  unfold ends_number. intros H. apply negb_true_iff in H.
  repeat (apply orb_false_elim in H; destruct H as [H ?]).
  repeat split; assumption.
Qed.

Lemma span_digits_split (s : str) :
  s = fst (span_digits s) ++ snd (span_digits s).
Proof.
  induction s as [|c s IH]; [reflexivity|]. simpl.
  destruct (is_digit c); [|reflexivity].
  destruct (span_digits s) as [ds r]. simpl in *. rewrite IH at 1.
  reflexivity.
Qed.

Lemma span_digits_app (s rest : str) :
  ends_number rest = true ->
  span_digits (s ++ rest)
  = (fst (span_digits s), snd (span_digits s) ++ rest).
Proof.
  intros Hrest. induction s as [|c s IH].
  - destruct rest as [|c r]; [reflexivity|].
    destruct (ends_number_head c r Hrest) as [Hd _].
    simpl. rewrite Hd. reflexivity.
  - simpl. destruct (is_digit c); [|reflexivity].
    rewrite IH. destruct (span_digits s) as [ds r]. reflexivity.
Qed.

Lemma read_int_split (s ip r : str) :
  read_int s = Some (ip, r) -> s = ip ++ r.
Proof.
  destruct s as [|d s]; [discriminate|]. cbn [read_int].
  destruct (is_digit19 d).
  - pose proof (span_digits_split s) as E.
    destruct (span_digits s) as [ds r']. simpl in E.
    intros H. injection H as <- <-. simpl. rewrite E at 1. reflexivity.
  - destruct (d =? ch "0")%N; [|discriminate].
    intros H. injection H as <- <-. reflexivity.
Qed.

Lemma read_int_app (s ip r rest : str) :
  ends_number rest = true ->
  read_int s = Some (ip, r) ->
  read_int (s ++ rest) = Some (ip, r ++ rest).
Proof.
  intros Hrest. destruct s as [|d s]; [discriminate|].
  cbn [read_int app].
  destruct (is_digit19 d).
  - rewrite (span_digits_app s rest Hrest).
    destruct (span_digits s) as [ds r']. simpl.
    intros H. injection H as <- <-. reflexivity.
  - destruct (d =? ch "0")%N; [|discriminate].
    intros H. injection H as <- <-. reflexivity.
Qed.

Lemma read_frac_split (s : str) :
  s = fst (read_frac s) ++ snd (read_frac s).
Proof.
  destruct s as [|dot [|d1 s]]; try reflexivity. simpl.
  destruct ((dot =? ch ".")%N && is_digit d1); [|reflexivity].
  pose proof (span_digits_split s) as E.
  destruct (span_digits s) as [ds r]. simpl in *. rewrite E at 1.
  reflexivity.
Qed.

Lemma read_frac_app (s rest : str) :
  ends_number rest = true ->
  read_frac (s ++ rest) = (fst (read_frac s), snd (read_frac s) ++ rest).
Proof.
  intros Hrest. destruct s as [|dot [|d1 s]].
  - destruct rest as [|c [|d r]]; try reflexivity.
    destruct (ends_number_head c _ Hrest) as [_ [Hdot _]].
    simpl. rewrite Hdot. reflexivity.
  - destruct rest as [|c r]; [reflexivity|].
    destruct (ends_number_head c r Hrest) as [Hd _].
    simpl. rewrite Hd, andb_false_r. reflexivity.
  - simpl. destruct ((dot =? ch ".")%N && is_digit d1); [|reflexivity].
    rewrite (span_digits_app s rest Hrest).
    destruct (span_digits s) as [ds r]. reflexivity.
Qed.

Lemma read_exp_split (s : str) :
  s = fst (read_exp s) ++ snd (read_exp s).
Proof.
  destruct s as [|e s]; [reflexivity|]. simpl.
  destruct ((e =? ch "e") || (e =? ch "E"))%N; [|reflexivity].
  destruct s as [|c t].
  - reflexivity.
  - destruct ((c =? ch "-") || (c =? ch "+"))%N.
    + pose proof (span_digits_split t) as E.
      destruct (span_digits t) as [[|d ds] r]; [reflexivity|].
      simpl in *. rewrite E at 1. reflexivity.
    + pose proof (span_digits_split (c :: t)) as E.
      destruct (span_digits (c :: t)) as [[|d ds] r]; [reflexivity|].
      simpl in *. rewrite E at 1. reflexivity.
Qed.

Lemma read_exp_app (s rest : str) :
  ends_number rest = true ->
  read_exp (s ++ rest) = (fst (read_exp s), snd (read_exp s) ++ rest).
Proof.
  intros Hrest. destruct s as [|e s].
  - destruct rest as [|c r]; [reflexivity|].
    destruct (ends_number_head c r Hrest) as [_ [_ [He [HE _]]]].
    simpl. rewrite He, HE. reflexivity.
  - cbn [app read_exp].
    destruct ((e =? ch "e") || (e =? ch "E"))%N; [|reflexivity].
    destruct s as [|c t].
    + destruct rest as [|c r]; [reflexivity|].
      destruct (ends_number_head c r Hrest)
        as [Hd [_ [_ [_ [Hplus Hminus]]]]].
      cbn [app]. rewrite Hplus, Hminus. cbn [orb].
      simpl span_digits. rewrite Hd. reflexivity.
    + cbn [app].
      destruct ((c =? ch "-") || (c =? ch "+"))%N.
      * rewrite (span_digits_app t rest Hrest).
        destruct (span_digits t) as [[|d ds] r]; reflexivity.
      * change (c :: t ++ rest) with ((c :: t) ++ rest).
        rewrite (span_digits_app (c :: t) rest Hrest).
        destruct (span_digits (c :: t)) as [[|d ds] r]; reflexivity.
Qed.

(** The matcher splits the text where it stops. *)
Lemma match_number_split (s text r : str) (b : bool) :
  match_number s = Some (b, text, r) -> s = text ++ r.
Proof.
  unfold match_number.
  assert (Hs : s = fst (read_sign s) ++ snd (read_sign s)).
  { destruct s as [|c s]; [reflexivity|]. simpl.
    destruct (c =? ch "-")%N; reflexivity. }
  destruct (read_sign s) as [sign s1]. simpl in Hs.
  destruct (read_int s1) as [[ip r1]|] eqn:Hint; [|discriminate].
  apply read_int_split in Hint.
  pose proof (read_frac_split r1) as Hfrac.
  destruct (read_frac r1) as [frac r2]. simpl in Hfrac.
  pose proof (read_exp_split r2) as Hexp.
  destruct (read_exp r2) as [exp r3]. simpl in Hexp.
  intros H. injection H as _ <- <-.
  rewrite Hs, Hint, Hfrac, Hexp at 1.
  rewrite <- !app_assoc. reflexivity.
Qed.

(** What the matcher read stays what it reads when the text goes on with
    something that ends a number. *)
Lemma match_number_app (s rest text r : str) (b : bool) :
  ends_number rest = true ->
  match_number s = Some (b, text, r) ->
  match_number (s ++ rest) = Some (b, text, r ++ rest).
Proof.
  intros Hrest. unfold match_number.
  destruct s as [|c s]; [discriminate|].
  assert (Hsign : read_sign ((c :: s) ++ rest)
                  = (fst (read_sign (c :: s)),
                     snd (read_sign (c :: s)) ++ rest)).
  { simpl. destruct (c =? ch "-")%N; reflexivity. }
  rewrite Hsign. destruct (read_sign (c :: s)) as [sign s1]. simpl.
  destruct (read_int s1) as [[ip r1]|] eqn:Hint; [|discriminate].
  rewrite (read_int_app s1 ip r1 rest Hrest Hint).
  rewrite (read_frac_app r1 rest Hrest).
  destruct (read_frac r1) as [frac r2]. simpl.
  rewrite (read_exp_app r2 rest Hrest).
  destruct (read_exp r2) as [exp r3]. simpl.
  intros H. injection H as <- <- <-. reflexivity.
Qed.

(** ** Texts: integers *)

Lemma uint_of_digits_of_uint (u : Decimal.uint) :
  uint_of_digits (digits_of_uint u) = u.
Proof. induction u; simpl; [reflexivity | rewrite IHu; reflexivity ..]. Qed.

Lemma span_digits_uint (u : Decimal.uint) :
  span_digits (digits_of_uint u) = (digits_of_uint u, []).
Proof. induction u; simpl; [reflexivity | rewrite IHu; reflexivity ..]. Qed.

(** The decimal digits of a positive number start with a digit that is
    not zero. *)
Lemma to_uint_head (p : positive) :
  match Pos.to_uint p with
  | Decimal.Nil | Decimal.D0 _ => False
  | _ => True
  end.
Proof.
  pose proof (DecimalPos.Unsigned.to_uint_nonzero p) as Hnz.
  assert (Hnorm : Decimal.unorm (Pos.to_uint p) = Pos.to_uint p).
  { rewrite <- (DecimalPos.Unsigned.to_of (Pos.to_uint p)).
    rewrite DecimalPos.Unsigned.of_to. reflexivity. }
  destruct (Decimal.nzhead (Pos.to_uint p)) eqn:Hhead.
  - exfalso. apply Hnz. rewrite <- Hnorm. unfold Decimal.unorm.
    rewrite Hhead. reflexivity.
  - exfalso. exact (DecimalFacts.nzhead_nonzero _ _ Hhead).
  - rewrite <- Hnorm, DecimalFacts.unorm_nzhead, Hhead by congruence.
    exact I.
  - rewrite <- Hnorm, DecimalFacts.unorm_nzhead, Hhead by congruence.
    exact I.
  - rewrite <- Hnorm, DecimalFacts.unorm_nzhead, Hhead by congruence.
    exact I.
  - rewrite <- Hnorm, DecimalFacts.unorm_nzhead, Hhead by congruence.
    exact I.
  - rewrite <- Hnorm, DecimalFacts.unorm_nzhead, Hhead by congruence.
    exact I.
  - rewrite <- Hnorm, DecimalFacts.unorm_nzhead, Hhead by congruence.
    exact I.
  - rewrite <- Hnorm, DecimalFacts.unorm_nzhead, Hhead by congruence.
    exact I.
  - rewrite <- Hnorm, DecimalFacts.unorm_nzhead, Hhead by congruence.
    exact I.
  - rewrite <- Hnorm, DecimalFacts.unorm_nzhead, Hhead by congruence.
    exact I.
Qed.

Lemma digit19_not_minus (d : char) :
  is_digit19 d = true -> (d =? ch "-")%N = false.
Proof.
  unfold is_digit19. intros H. apply andb_prop in H as [H1 _].
  apply N.leb_le in H1. apply N.eqb_neq. intros ->. vm_compute in H1.
  apply H1. reflexivity.
Qed.

(** A digit from 1 to 9 followed by digits only is matched whole, as an
    integer; so it is behind a minus sign. *)
Lemma match_number_digits (d : char) (ds : str) :
  is_digit19 d = true ->
  span_digits ds = (ds, []) ->
  match_number (d :: ds) = Some (false, d :: ds, [])
  /\ match_number (ch "-" :: d :: ds) = Some (false, ch "-" :: d :: ds, []).
Proof.
  intros Hd Hds. unfold match_number. split.
  - cbn [read_sign]. rewrite (digit19_not_minus d Hd).
    cbn [read_int]. rewrite Hd, Hds. cbn. rewrite app_nil_r. reflexivity.
  - cbn [read_sign]. rewrite N.eqb_refl.
    cbn [read_int]. rewrite Hd, Hds. cbn. rewrite app_nil_r. reflexivity.
Qed.

Lemma match_number_to_uint (p : positive) :
  match_number (digits_of_uint (Pos.to_uint p))
  = Some (false, digits_of_uint (Pos.to_uint p), [])
  /\ match_number (ch "-" :: digits_of_uint (Pos.to_uint p))
     = Some (false, ch "-" :: digits_of_uint (Pos.to_uint p), []).
Proof.
  pose proof (to_uint_head p) as H.
  destruct (Pos.to_uint p) as [|u|u|u|u|u|u|u|u|u|u]; try contradiction;
    cbn [digits_of_uint];
    apply match_number_digits; try reflexivity; apply span_digits_uint.
Qed.

(** The matcher reads the text of an integer whole, as an integer. *)
Lemma match_number_int_repr (n : Z) :
  match_number (int_repr n) = Some (false, int_repr n, []).
Proof.
  unfold int_repr. destruct n as [|p|p]; [reflexivity| |];
    cbn [Z.to_int]; apply match_number_to_uint.
Qed.

(** [int] reads back what [int.__repr__] wrote. *)
Lemma int_of_literal_repr (n : Z) : int_of_literal (int_repr n) = n.
Proof.
  rewrite <- (DecimalZ.of_to n) at 2.
  unfold int_repr. destruct n as [|p|p]; [reflexivity| |]; cbn [Z.to_int].
  - pose proof (to_uint_head p) as H.
    rewrite <- (uint_of_digits_of_uint (Pos.to_uint p)) at 2.
    destruct (Pos.to_uint p) as [|u|u|u|u|u|u|u|u|u|u]; try contradiction;
      reflexivity.
  - unfold int_of_literal. rewrite N.eqb_refl.
    rewrite uint_of_digits_of_uint. reflexivity.
Qed.

(** ** Scanning a number *)

Lemma is_digit_cases (c : char) :
  is_digit c = true ->
  (c = 48 \/ c = 49 \/ c = 50 \/ c = 51 \/ c = 52
   \/ c = 53 \/ c = 54 \/ c = 55 \/ c = 56 \/ c = 57)%N.
Proof.
  unfold is_digit. intros H. apply andb_prop in H as [H1 H2].
  apply N.leb_le in H1, H2. lia.
Qed.

Lemma is_digit19_digit (c : char) : is_digit19 c = true -> is_digit c = true.
Proof.
  unfold is_digit19, is_digit. intros H. apply andb_prop in H as [H1 H2].
  apply N.leb_le in H1, H2.
  apply andb_true_intro. split; apply N.leb_le; lia.
Qed.

(** A text the matcher accepts starts with a digit, or with a minus sign
    and a digit. *)
Lemma number_head (s text r : str) (b : bool) :
  match_number s = Some (b, text, r) ->
  exists c t,
    s = c :: t
    /\ (is_digit c = true
        \/ (c = ch "-" /\ exists d t', t = d :: t' /\ is_digit d = true)).
Proof.
  assert (Hint : forall s1 ip r1,
             read_int s1 = Some (ip, r1) ->
             exists d t, s1 = d :: t /\ is_digit d = true).
  { intros [|d t] ip r1; [discriminate|]. cbn [read_int].
    destruct (is_digit19 d) eqn:H19.
    - intros _. exists d, t. split; [reflexivity|].
      apply is_digit19_digit, H19.
    - destruct (N.eqb_spec d (ch "0")) as [->|]; [|discriminate].
      intros _. exists (ch "0"), t. split; reflexivity. }
  unfold match_number. destruct s as [|c t].
  - cbn. discriminate.
  - cbn [read_sign]. destruct (N.eqb_spec c (ch "-")) as [->|Hc].
    + destruct (read_int t) as [[ip r1]|] eqn:E; [|discriminate].
      intros _. destruct (Hint t ip r1 E) as [d [t' [-> Hd]]].
      exists (ch "-"), (d :: t'). split; [reflexivity|]. right.
      split; [reflexivity|]. exists d, t'. split; [reflexivity|exact Hd].
    + destruct (read_int (c :: t)) as [[ip r1]|] eqn:E; [|discriminate].
      intros _. destruct (Hint (c :: t) ip r1 E) as [d [t' [H Hd]]].
      injection H as -> ->. exists d, t'. split; [reflexivity|].
      left. exact Hd.
Qed.

(** On a text that starts as a number does, [scan_once] goes to the
    number matcher. *)
Lemma scan_once_number (fuel : nat) (c : char) (t : str) :
  is_digit c = true
  \/ (c = ch "-" /\ exists d t', t = d :: t' /\ is_digit d = true) ->
  scan_once (S fuel) (c :: t) = scan_number (c :: t).
Proof.
  intros [Hc|[-> [d [t' [-> Hd]]]]].
  - destruct (is_digit_cases c Hc)
      as [->|[->|[->|[->|[->|[->|[->|[->|[->| ->]]]]]]]]]; reflexivity.
  - destruct (is_digit_cases d Hd)
      as [->|[->|[->|[->|[->|[->|[->|[->|[->| ->]]]]]]]]]; reflexivity.
Qed.

(** A number does not start with whitespace, a closing bracket or a byte
    order mark. *)
Lemma number_head_plain (c : char) (t : str) :
  is_digit c = true
  \/ (c = ch "-" /\ exists d t', t = d :: t' /\ is_digit d = true) ->
  is_ws c = false /\ (c =? ch "]")%N = false /\ (65279 =? c)%N = false.
Proof.
  intros [Hc|[-> _]].
  - destruct (is_digit_cases c Hc)
      as [->|[->|[->|[->|[->|[->|[->|[->|[->| ->]]]]]]]]];
      repeat split; reflexivity.
  - repeat split; reflexivity.
Qed.

(** The text of an integer, followed by something that ends a number,
    scans as that integer. *)
Lemma scan_once_int_repr (fuel : nat) (n : Z) (rest : str) :
  ends_number rest = true ->
  scan_once (S fuel) (int_repr n ++ rest) = Scanned (VInt n) rest.
Proof.
  intros Hrest.
  pose proof (match_number_int_repr n) as Hm.
  destruct (number_head _ _ _ _ Hm) as [c [t [E Hhead]]].
  pose proof (match_number_app _ rest _ _ _ Hrest Hm) as Happ.
  rewrite E in Happ |- *. cbn [app] in Happ |- *.
  rewrite scan_once_number; [|destruct Hhead as [H|[H1 [d [t' [-> H2]]]]];
                               [left; exact H|right; split; [exact H1|]; 
                                exists d, (t' ++ rest); split;
                                [reflexivity|exact H2]]].
  unfold scan_number. rewrite Happ, <- E, int_of_literal_repr. reflexivity.
Qed.

(** ** The fuel of the decoder is never used up *)

Lemma skip_ws_length (s : str) : List.length (skip_ws s) <= List.length s.
Proof.
  induction s as [|c s IH]; cbn [skip_ws]; [lia|].
  destruct (is_ws c); cbn [List.length]; lia.
Qed.

Lemma prepend_some (pre : str) (x : option (str * str)) (t r : str) :
  prepend pre x = Some (t, r) -> exists t', x = Some (t', r).
Proof.
  destruct x as [[body rest]|]; [|discriminate].
  intros H. injection H as _ <-. eexists. reflexivity.
Qed.

Lemma scanstring_from_shorter (n : nat) :
  forall s pending t r,
    List.length s <= n ->
    scanstring_from pending s = Some (t, r) ->
    List.length r < List.length s.
Proof.
  induction n as [|n IH]; intros [|c s1] pending t r Hn;
    try discriminate; cbn [List.length] in Hn |- *; [lia|].
  cbn [scanstring_from].
  destruct (c =? QUOTE)%N; [intros H; injection H as _ <-; lia|].
  destruct (c =? BACKSLASH)%N.
  - destruct s1 as [|e s2]; [discriminate|]. cbn [List.length] in Hn |- *.
    destruct (e =? ch "u")%N.
    + destruct s2 as [|h1 [|h2 [|h3 [|h4 s3]]]]; try discriminate.
      cbn [List.length] in Hn |- *.
      destruct (hex4 h1 h2 h3 h4) as [uni|]; [|discriminate].
      assert (Hrec : forall pending' t',
                 scanstring_from pending' s3 = Some (t', r) ->
                 List.length r < S (S (S (S (S (S (List.length s3))))))).
      { intros pending' t' H.
        pose proof (IH s3 pending' t' r ltac:(lia) H). lia. }
      destruct pending as [hi|].
      * destruct (is_low_surrogate uni);
          [|destruct (is_high_surrogate uni)];
          intros H; apply prepend_some in H as [t' H];
          exact (Hrec _ _ H).
      * destruct (is_high_surrogate uni); intros H.
        -- exact (Hrec _ _ H).
        -- apply prepend_some in H as [t' H]. exact (Hrec _ _ H).
    + destruct (simple_escape e); [|discriminate].
      intros H. apply prepend_some in H as [t' H].
      pose proof (IH s2 None t' r ltac:(lia) H). lia.
  - destruct (c <? 32)%N; [discriminate|].
    intros H. apply prepend_some in H as [t' H].
    pose proof (IH s1 None t' r ltac:(lia) H). lia.
Qed.

Lemma scanstring_shorter (s t r : str) :
  scanstring s = Some (t, r) -> List.length r < List.length s.
Proof. apply (scanstring_from_shorter (List.length s)). lia. Qed.

Lemma startswith_length (p s : str) :
  startswith p s = true -> List.length p <= List.length s.
Proof.
  revert s. induction p as [|x p IH]; intros s; cbn [List.length]; [lia|].
  destruct s as [|c s]; cbn [startswith List.length]; [discriminate|].
  intros H. apply andb_prop in H as [_ H]. specialize (IH s H). lia.
Qed.

Lemma match_number_shorter (s text r : str) (b : bool) :
  match_number s = Some (b, text, r) -> List.length r < List.length s.
Proof.
  intros H. pose proof (match_number_split s text r b H) as Hs.
  assert (Htext : text <> []).
  { revert H. unfold match_number.
    destruct (read_sign s) as [sign s1].
    destruct (read_int s1) as [[ip r1]|] eqn:E; [|discriminate].
    destruct (read_frac r1) as [frac r2].
    destruct (read_exp r2) as [exp r3].
    intros H. injection H as _ <- _.
    assert (Hip : ip <> []).
    { destruct s1 as [|d s2]; [discriminate|]. cbn [read_int] in E.
      destruct (is_digit19 d).
      - destruct (span_digits s2). injection E as <- _. discriminate.
      - destruct (d =? ch "0")%N; [|discriminate].
        injection E as <- _. discriminate. }
    destruct sign; [|discriminate]. destruct ip; [contradiction|].
    discriminate. }
  rewrite Hs, length_app. destruct text; [contradiction|].
  cbn [List.length]. lia.
Qed.

Lemma scan_number_shorter (s : str) (v : value) (r : str) :
  scan_number s = Scanned v r -> List.length r < List.length s.
Proof.
  unfold scan_number.
  destruct (match_number s) as [[[b text] rest]|] eqn:E; [|discriminate].
  apply match_number_shorter in E.
  destruct b; intros H; injection H as _ <-; exact E.
Qed.

Lemma scan_number_fuel (s : str) : scan_number s <> OutOfFuel.
Proof.
  unfold scan_number. destruct (match_number s) as [[[[|] text] rest]|];
    discriminate.
Qed.

(** With more than two units of fuel for each character, no scan runs out
    of fuel, and what a scan leaves is shorter than what it was given. *)
Lemma scan_fuel (fuel : nat) :
  (forall s,
      2 * List.length s < fuel ->
      scan_once fuel s <> OutOfFuel
      /\ forall v r, scan_once fuel s = Scanned v r ->
                     List.length r < List.length s)
  /\ (forall pairs s,
         2 * List.length s + 1 < fuel ->
         parse_object fuel pairs s <> OutOfFuel
         /\ forall v r, parse_object fuel pairs s = Scanned v r ->
                        List.length r < List.length s)
  /\ (forall items s,
         2 * List.length s + 1 < fuel ->
         parse_array fuel items s <> OutOfFuel
         /\ forall v r, parse_array fuel items s = Scanned v r ->
                        List.length r < List.length s).
Proof.
  induction fuel as [|fuel [IHscan [IHobj IHarr]]].
  - repeat split; intros; lia.
  - split; [|split].
    + intros [|c s] Hlen; [split; [discriminate|intros; discriminate]|].
      cbn [List.length] in Hlen. cbn [scan_once].
      pose proof (skip_ws_length s) as Hws.
      destruct (c =? QUOTE)%N.
      { destruct (scanstring s) as [[text rest]|] eqn:E;
          [|split; [discriminate|intros; discriminate]].
        apply scanstring_shorter in E.
        split; [discriminate|].
        intros v r H. injection H as _ <-. cbn [List.length]. lia. }
      destruct (c =? ch "{")%N.
      { destruct (skip_ws s) as [|c1 s1] eqn:E;
          [split; [discriminate|intros; discriminate]|].
        destruct (c1 =? ch "}")%N.
        - split; [discriminate|]. intros v r H. injection H as _ <-.
          cbn [List.length] in Hws |- *. lia.
        - destruct (IHobj [] (c1 :: s1) ltac:(lia)) as [H1 H2].
          split; [exact H1|]. intros v r H. specialize (H2 v r H).
          cbn [List.length]. lia. }
      destruct (c =? ch "[")%N.
      { destruct (skip_ws s) as [|c1 s1] eqn:E;
          [split; [discriminate|intros; discriminate]|].
        destruct (c1 =? ch "]")%N.
        - split; [discriminate|]. intros v r H. injection H as _ <-.
          cbn [List.length] in Hws |- *. lia.
        - destruct (IHarr [] (c1 :: s1) ltac:(lia)) as [H1 H2].
          split; [exact H1|]. intros v r H. specialize (H2 v r H).
          cbn [List.length]. lia. }
      assert (Hconst : forall p n (w : value),
                 startswith p (c :: s) = true ->
                 0 < n ->
                 Scanned w (skipn n (c :: s)) <> OutOfFuel
                 /\ forall v r,
                     Scanned w (skipn n (c :: s)) = Scanned v r ->
                     List.length r < List.length (c :: s)).
      { intros p n w _ Hn. split; [discriminate|].
        intros v r H. injection H as _ <-. rewrite length_skipn.
        cbn [List.length]. lia. }
      destruct (startswith (py "null") (c :: s)) eqn:E1;
        [apply (Hconst _ _ _ E1); lia|].
      destruct (startswith (py "true") (c :: s)) eqn:E2;
        [apply (Hconst _ _ _ E2); lia|].
      destruct (startswith (py "false") (c :: s)) eqn:E3;
        [apply (Hconst _ _ _ E3); lia|].
      destruct (startswith (py "NaN") (c :: s)) eqn:E4;
        [apply (Hconst _ _ _ E4); lia|].
      destruct (startswith (py "Infinity") (c :: s)) eqn:E5;
        [apply (Hconst _ _ _ E5); lia|].
      destruct (startswith (py "-Infinity") (c :: s)) eqn:E6;
        [apply (Hconst _ _ _ E6); lia|].
      split; [apply scan_number_fuel|apply scan_number_shorter].
    + intros pairs [|q s1] Hlen;
        [split; [discriminate|intros; discriminate]|].
      cbn [List.length] in Hlen. cbn [parse_object].
      destruct (q =? QUOTE)%N;
        [|split; [discriminate|intros; discriminate]].
      destruct (scanstring s1) as [[key s2]|] eqn:E;
        [|split; [discriminate|intros; discriminate]].
      apply scanstring_shorter in E.
      pose proof (skip_ws_length s2) as Hws2.
      destruct (skip_ws s2) as [|colon s3];
        [split; [discriminate|intros; discriminate]|].
      cbn [List.length] in Hws2.
      destruct (colon =? ch ":")%N;
        [|split; [discriminate|intros; discriminate]].
      pose proof (skip_ws_length s3) as Hws3.
      destruct (IHscan (skip_ws s3) ltac:(lia)) as [H1 H2].
      destruct (scan_once fuel (skip_ws s3)) as [w s4| |];
        [|split; [discriminate|intros; discriminate]|contradiction].
      specialize (H2 w s4 eq_refl).
      pose proof (skip_ws_length s4) as Hws4.
      destruct (skip_ws s4) as [|d s5];
        [split; [discriminate|intros; discriminate]|].
      cbn [List.length] in Hws4.
      destruct (d =? ch "}")%N.
      * split; [discriminate|]. intros v r H. injection H as _ <-.
        cbn [List.length]. lia.
      * destruct (d =? ch ",")%N;
          [|split; [discriminate|intros; discriminate]].
        pose proof (skip_ws_length s5) as Hws5.
        destruct (IHobj (dict_set pairs key w) (skip_ws s5) ltac:(lia))
          as [H3 H4].
        split; [exact H3|]. intros v r H. specialize (H4 v r H).
        cbn [List.length]. lia.
    + intros items s Hlen. cbn [parse_array].
      destruct (IHscan s ltac:(lia)) as [H1 H2].
      destruct (scan_once fuel s) as [w s1| |];
        [|split; [discriminate|intros; discriminate]|contradiction].
      specialize (H2 w s1 eq_refl).
      pose proof (skip_ws_length s1) as Hws1.
      destruct (skip_ws s1) as [|d s2];
        [split; [discriminate|intros; discriminate]|].
      cbn [List.length] in Hws1.
      destruct (d =? ch "]")%N.
      * split; [discriminate|]. intros v r H. injection H as _ <-. lia.
      * destruct (d =? ch ",")%N;
          [|split; [discriminate|intros; discriminate]].
        pose proof (skip_ws_length s2) as Hws2.
        destruct (IHarr (items ++ [w]) (skip_ws s2) ltac:(lia)) as [H3 H4].
        split; [exact H3|]. intros v r H. specialize (H4 v r H). lia.
Qed.

(** [decode] always comes to a result: a value or a decode error. *)
Lemma decode_total (s : str) : decode s <> OutOfFuel.
Proof.
  unfold decode. pose proof (skip_ws_length s) as Hws.
  destruct (proj1 (scan_fuel (S (2 * List.length s))) (skip_ws s)
              ltac:(lia)) as [H _].
  destruct (scan_once (S (2 * List.length s)) (skip_ws s)) as [v rest| |];
    [destruct (skip_ws rest); discriminate|discriminate|contradiction].
Qed.

(** A text denotes no value only where the decoder reports a decode error
    (or the text starts with a byte order mark). *)
Lemma value_none (s : str) :
  json_value s = None <->
  startswith [65279%N] s = true \/ decode s = DecodeError.
Proof.
  unfold json_value. pose proof (decode_total s) as Htotal.
  destruct (startswith [65279%N] s).
  - split; [intros _; left; reflexivity|intros _; reflexivity].
  - destruct (decode s) as [v rest| |].
    + split; [discriminate|intros [H|H]; discriminate].
    + split; [intros _; right; reflexivity|intros _; reflexivity].
    + contradiction.
Qed.

(** ** The scanner and the limits of the interpreter *)

Lemma match_number_agree (s : str) :
  agree (match_number_unicode s) (scan_number s).
Proof.
  unfold match_number_unicode, scan_number.
  destruct (match_number s) as [[[[|] text] rest]|];
    [reflexivity| |split; reflexivity].
  destruct (int_too_long (List.length (snd (read_sign text))));
    [exact I|reflexivity].
Qed.

(** Where the scanner meets no limit, it reads what the text denotes. *)
Lemma scan_refines (fuel : nat) :
  (forall room s, agree (scan_once_unicode fuel room s) (scan_once fuel s))
  /\ (forall room pairs s,
         agree (parse_object_unicode fuel room pairs s)
               (parse_object fuel pairs s))
  /\ (forall room items s,
         agree (parse_array_unicode fuel room items s)
               (parse_array fuel items s)).
Proof.
  induction fuel as [|fuel [IHscan [IHobj IHarr]]].
  - repeat split; intros; reflexivity.
  - split; [|split].
    + intros room [|c s]; [split; reflexivity|].
      cbn [scan_once scan_once_unicode].
      destruct (c =? QUOTE)%N.
      { destruct (scanstring s) as [[text rest]|];
          [reflexivity|split; reflexivity]. }
      destruct (c =? ch "{")%N.
      { destruct room as [|room]; [exact I|].
        destruct (skip_ws s) as [|c1 s1]; [split; reflexivity|].
        destruct (c1 =? ch "}")%N; [reflexivity|apply IHobj]. }
      destruct (c =? ch "[")%N.
      { destruct room as [|room]; [exact I|].
        destruct (skip_ws s) as [|c1 s1]; [split; reflexivity|].
        destruct (c1 =? ch "]")%N; [reflexivity|apply IHarr]. }
      destruct (startswith (py "null") (c :: s)); [reflexivity|].
      destruct (startswith (py "true") (c :: s)); [reflexivity|].
      destruct (startswith (py "false") (c :: s)); [reflexivity|].
      destruct (startswith (py "NaN") (c :: s)); [reflexivity|].
      destruct (startswith (py "Infinity") (c :: s)); [reflexivity|].
      destruct (startswith (py "-Infinity") (c :: s)); [reflexivity|].
      apply match_number_agree.
    + intros room pairs [|q s1]; [split; reflexivity|].
      cbn [parse_object parse_object_unicode].
      destruct (q =? QUOTE)%N; [|split; reflexivity].
      destruct (scanstring s1) as [[key s2]|]; [|split; reflexivity].
      destruct (skip_ws s2) as [|colon s3]; [split; reflexivity|].
      destruct (colon =? ch ":")%N; [|split; reflexivity].
      pose proof (IHscan room (skip_ws s3)) as H.
      destruct (scan_once_unicode fuel room (skip_ws s3)) as [w s4|e|];
        cbn [agree] in H |- *.
      * rewrite H.
        destruct (skip_ws s4) as [|d s5]; [split; reflexivity|].
        destruct (d =? ch "}")%N; [reflexivity|].
        destruct (d =? ch ",")%N; [apply IHobj|split; reflexivity].
      * destruct (is_limit e); [exact I|].
        destruct H as [-> H]. rewrite H. split; reflexivity.
      * rewrite H. reflexivity.
    + intros room items s.
      cbn [parse_array parse_array_unicode].
      pose proof (IHscan room s) as H.
      destruct (scan_once_unicode fuel room s) as [w s1|e|];
        cbn [agree] in H |- *.
      * rewrite H.
        destruct (skip_ws s1) as [|d s2]; [split; reflexivity|].
        destruct (d =? ch "]")%N; [reflexivity|].
        destruct (d =? ch ",")%N; [apply IHarr|split; reflexivity].
      * destruct (is_limit e); [exact I|].
        destruct H as [-> H]. rewrite H. split; reflexivity.
      * rewrite H. reflexivity.
Qed.

(** [json.loads] always comes to a result: it returns or raises. *)
Lemma decode_unicode_total (s : str) : decode_unicode s <> NoFuel.
Proof.
  unfold decode_unicode. pose proof (skip_ws_length s) as Hws.
  pose proof (proj1 (scan_refines (S (2 * List.length s))) max_nesting
                (skip_ws s)) as H.
  destruct (proj1 (scan_fuel (S (2 * List.length s))) (skip_ws s)
              ltac:(lia)) as [Hfuel _].
  destruct (scan_once_unicode (S (2 * List.length s)) max_nesting
              (skip_ws s)) as [v rest|e|];
    [destruct (skip_ws rest); discriminate|discriminate|].
  cbn [agree] in H. contradiction.
Qed.

(** What [json.loads] returns is the value the text denotes; it raises
    [JSONDecodeError] only where the text denotes none; and whatever else
    it raises comes from a limit of the interpreter. *)
Lemma loads_refines (s : str) :
  match json_loads s with
  | Ok v => json_value s = Some v
  | Raise e =>
      if is_limit e then True else e = JSONDecodeError /\ json_value s = None
  end.
Proof.
  pose proof (decode_unicode_total s) as Htotal. revert Htotal.
  unfold json_loads, json_value, decode_unicode, decode.
  destruct (startswith [65279%N] s); [split; reflexivity|].
  pose proof (proj1 (scan_refines (S (2 * List.length s))) max_nesting
                (skip_ws s)) as H.
  destruct (scan_once_unicode (S (2 * List.length s)) max_nesting
              (skip_ws s)) as [v rest|e|];
    cbn [agree] in H.
  - intros _. rewrite H.
    destruct (skip_ws rest); [reflexivity|split; reflexivity].
  - intros _. destruct (is_limit e); [exact I|].
    destruct H as [-> H]. rewrite H. split; reflexivity.
  - intros Htotal. contradiction.
Qed.

Lemma loads_value (s : str) (v : value) :
  json_loads s = Ok v -> json_value s = Some v.
Proof.
  intros H. pose proof (loads_refines s) as R. rewrite H in R. exact R.
Qed.

(** [json.loads] raises three exceptions and no other. *)
Lemma loads_raises (s : str) (e : exn) :
  json_loads s = Raise e ->
  e = JSONDecodeError \/ e = ValueError \/ e = RecursionError.
Proof.
  intros H. pose proof (loads_refines s) as R. rewrite H in R.
  destruct e; cbn [is_limit] in R; auto;
    apply proj1 in R; discriminate R.
Qed.

(** Read without meeting a limit, a text gives the value it denotes, or
    [JSONDecodeError] when it denotes none. *)
Lemma loads_within_limits (s : str) :
  within_limits s = true ->
  json_loads s = match json_value s with
                 | Some v => Ok v
                 | None => Raise JSONDecodeError
                 end.
Proof.
  unfold within_limits. pose proof (loads_refines s) as R.
  destruct (json_loads s) as [v|e].
  - intros _. rewrite R. reflexivity.
  - intros H. destruct (is_limit e); [discriminate|].
    destruct R as [-> R]. rewrite R. reflexivity.
Qed.

(** [is_json] answers no only for a text that [json.loads] refuses with
    [JSONDecodeError]. *)
Lemma is_json_false (s : str) :
  is_json s = Ok false <-> json_loads s = Raise JSONDecodeError.
Proof.
  unfold is_json. split.
  - destruct (json_loads s) as [v|e] eqn:L; [discriminate|].
    destruct (loads_raises s e L) as [E|[E|E]]; rewrite E;
      [reflexivity|discriminate|discriminate].
  - intros ->. reflexivity.
Qed.

(** Fewer digits are not refused where more are accepted. *)
Lemma int_too_long_le (d n : nat) :
  d <= n -> int_too_long n = false -> int_too_long d = false.
Proof.
  unfold int_too_long. intros Hle.
  destruct (Nat.ltb_spec 640 n), (Nat.ltb_spec 640 d),
    (Nat.ltb_spec 0 int_max_str_digits),
    (Nat.ltb_spec int_max_str_digits n),
    (Nat.ltb_spec int_max_str_digits d);
    cbn [andb]; intros Hn; try reflexivity; try discriminate Hn; lia.
Qed.

Lemma match_number_no_limit (s : str) :
  int_too_long (List.length s) = false -> no_limit (match_number_unicode s).
Proof.
  intros Hdig. unfold match_number_unicode.
  destruct (match_number s) as [[[[|] text] rest]|] eqn:E;
    [exact I| |reflexivity].
  apply match_number_split in E.
  assert (Hlen : List.length (snd (read_sign text)) <= List.length s).
  { rewrite E, length_app. destruct text as [|c t]; cbn [read_sign snd];
      [cbn [List.length]; lia|].
    destruct (c =? ch "-")%N; cbn [snd List.length]; lia. }
  rewrite (int_too_long_le _ _ Hlen Hdig). exact I.
Qed.

Ltac fewer_digits H :=
  eapply int_too_long_le; [|exact H]; cbn [List.length] in *; lia.

(** A text with no more characters than there is room for nesting, and
    than an integer may have digits, is scanned without meeting a
    limit. *)
Lemma scan_roomy (fuel : nat) :
  (forall room s,
      2 * List.length s < fuel ->
      List.length s <= room ->
      int_too_long (List.length s) = false ->
      no_limit (scan_once_unicode fuel room s))
  /\ (forall room pairs s,
         2 * List.length s + 1 < fuel ->
         List.length s <= room ->
         int_too_long (List.length s) = false ->
         no_limit (parse_object_unicode fuel room pairs s))
  /\ (forall room items s,
         2 * List.length s + 1 < fuel ->
         List.length s <= room ->
         int_too_long (List.length s) = false ->
         no_limit (parse_array_unicode fuel room items s)).
Proof.
  induction fuel as [|fuel [IHscan [IHobj IHarr]]].
  - repeat split; intros; exact I.
  - split; [|split].
    + intros room [|c s] Hfuel Hroom Hdig; [reflexivity|].
      cbn [List.length] in Hfuel, Hroom. cbn [scan_once_unicode].
      pose proof (skip_ws_length s) as Hws.
      destruct (c =? QUOTE)%N.
      { destruct (scanstring s) as [[text rest]|]; [exact I|reflexivity]. }
      destruct (c =? ch "{")%N.
      { destruct room as [|room]; [lia|].
        destruct (skip_ws s) as [|c1 s1]; [reflexivity|].
        destruct (c1 =? ch "}")%N; [exact I|].
        apply IHobj; [lia|lia|].
        fewer_digits Hdig. }
      destruct (c =? ch "[")%N.
      { destruct room as [|room]; [lia|].
        destruct (skip_ws s) as [|c1 s1]; [reflexivity|].
        destruct (c1 =? ch "]")%N; [exact I|].
        apply IHarr; [lia|lia|].
        fewer_digits Hdig. }
      destruct (startswith (py "null") (c :: s)); [exact I|].
      destruct (startswith (py "true") (c :: s)); [exact I|].
      destruct (startswith (py "false") (c :: s)); [exact I|].
      destruct (startswith (py "NaN") (c :: s)); [exact I|].
      destruct (startswith (py "Infinity") (c :: s)); [exact I|].
      destruct (startswith (py "-Infinity") (c :: s)); [exact I|].
      apply match_number_no_limit, Hdig.
    + intros room pairs [|q s1] Hfuel Hroom Hdig; [reflexivity|].
      cbn [List.length] in Hfuel, Hroom, Hdig.
      cbn [parse_object_unicode].
      destruct (q =? QUOTE)%N; [|reflexivity].
      destruct (scanstring s1) as [[key s2]|] eqn:E; [|reflexivity].
      apply scanstring_shorter in E.
      pose proof (skip_ws_length s2) as Hws2.
      destruct (skip_ws s2) as [|colon s3]; [reflexivity|].
      cbn [List.length] in Hws2.
      destruct (colon =? ch ":")%N; [|reflexivity].
      pose proof (skip_ws_length s3) as Hws3.
      assert (Hd3 : int_too_long (List.length (skip_ws s3)) = false)
        by fewer_digits Hdig.
      pose proof (IHscan room (skip_ws s3) ltac:(lia) ltac:(lia) Hd3) as Hn.
      pose proof (proj1 (scan_refines fuel) room (skip_ws s3)) as Ha.
      destruct (proj1 (scan_fuel fuel) (skip_ws s3) ltac:(lia)) as [_ Hsh].
      destruct (scan_once_unicode fuel room (skip_ws s3)) as [w s4|e|];
        cbn [no_limit agree] in Hn, Ha |- *; [|exact Hn|exact I].
      specialize (Hsh w s4 Ha).
      pose proof (skip_ws_length s4) as Hws4.
      destruct (skip_ws s4) as [|d s5]; [reflexivity|].
      cbn [List.length] in Hws4.
      destruct (d =? ch "}")%N; [exact I|].
      destruct (d =? ch ",")%N; [|reflexivity].
      pose proof (skip_ws_length s5) as Hws5.
      apply IHobj; [lia|lia|]. fewer_digits Hdig.
    + intros room items s Hfuel Hroom Hdig.
      cbn [parse_array_unicode].
      pose proof (IHscan room s ltac:(lia) Hroom Hdig) as Hn.
      pose proof (proj1 (scan_refines fuel) room s) as Ha.
      destruct (proj1 (scan_fuel fuel) s ltac:(lia)) as [_ Hsh].
      destruct (scan_once_unicode fuel room s) as [w s1|e|];
        cbn [no_limit agree] in Hn, Ha |- *; [|exact Hn|exact I].
      specialize (Hsh w s1 Ha).
      pose proof (skip_ws_length s1) as Hws1.
      destruct (skip_ws s1) as [|d s2]; [reflexivity|].
      cbn [List.length] in Hws1.
      destruct (d =? ch "]")%N; [exact I|].
      destruct (d =? ch ",")%N; [|reflexivity].
      pose proof (skip_ws_length s2) as Hws2.
      apply IHarr; [lia|lia|]. fewer_digits Hdig.
Qed.

(** So [json.loads] meets no limit on a short text. *)
Lemma short_within_limits (s : str) :
  short_enough s = true -> within_limits s = true.
Proof.
  unfold short_enough, within_limits, json_loads, decode_unicode.
  intros H. apply andb_prop in H as [Hroom Hdig].
  apply Nat.leb_le in Hroom. apply negb_true_iff in Hdig.
  destruct (startswith [65279%N] s); [reflexivity|].
  pose proof (skip_ws_length s) as Hws.
  pose proof (proj1 (scan_roomy (S (2 * List.length s))) max_nesting
                (skip_ws s) ltac:(lia) ltac:(lia)
                (int_too_long_le _ _ Hws Hdig)) as Hn.
  destruct (scan_once_unicode (S (2 * List.length s)) max_nesting
              (skip_ws s)) as [v rest|e|];
    [destruct (skip_ws rest); reflexivity| |reflexivity].
  cbn [no_limit] in Hn. rewrite Hn. reflexivity.
Qed.

(** ** Scanning what [json.dumps] wrote *)

Context {LAWS : PyFloatLaws}.

Lemma float_literal_matched (text : str) :
  is_float_literal text = true -> match_number text = Some (true, text, []).
Proof.
  unfold is_float_literal. intros H.
  destruct (match_number text) as [[[b t] r]|] eqn:E; [|discriminate].
  destruct b; [|discriminate]. destruct r; [|discriminate].
  apply match_number_split in E as Et. rewrite app_nil_r in Et.
  rewrite <- Et. reflexivity.
Qed.

(** A float of a given kind that [json.loads] can return is the special
    value of that kind. *)
Lemma float_ok_special (f : F) :
  float_ok f ->
  match float_kind_of f with
  | Finite => True
  | NotANumber => f = float_nan
  | PosInf => f = float_inf
  | NegInf => f = float_neginf
  end.
Proof.
  intros [H|[->|[->| ->]]].
  - rewrite H. exact I.
  - rewrite kind_of_nan. reflexivity.
  - rewrite kind_of_inf. reflexivity.
  - rewrite kind_of_neginf. reflexivity.
Qed.

Lemma scan_once_float_str (fuel : nat) (f : F) (rest : str) :
  float_ok f ->
  ends_number rest = true ->
  scan_once (S fuel) (float_str f ++ rest) = Scanned (VFloat f) rest.
Proof.
  intros Hok Hrest. pose proof (float_ok_special f Hok) as Hspecial.
  unfold float_str. destruct (float_kind_of f) eqn:K.
  - pose proof (float_literal_matched _ (repr_is_literal f K)) as Hm.
    destruct (number_head _ _ _ _ Hm) as [c [t [E Hhead]]].
    pose proof (match_number_app _ rest _ _ _ Hrest Hm) as Happ.
    rewrite E in Happ |- *. cbn [app] in Happ |- *.
    rewrite scan_once_number;
      [|destruct Hhead as [H|[H1 [d [t' [-> H2]]]]];
        [left; exact H|right; split; [exact H1|];
         exists d, (t' ++ rest); split; [reflexivity|exact H2]]].
    unfold scan_number. rewrite Happ, <- E, (repr_round_trip f K).
    reflexivity.
  - rewrite Hspecial. reflexivity.
  - rewrite Hspecial. reflexivity.
  - rewrite Hspecial. reflexivity.
Qed.

(** No text of a value starts with whitespace, a closing bracket or a
    byte order mark. *)
Lemma dumps_head (v : value) :
  wf_value v ->
  exists c t,
    json_dumps v = c :: t
    /\ is_ws c = false /\ (c =? ch "]")%N = false /\ (65279 =? c)%N = false.
Proof.
  assert (Hnum : forall s b text r,
             match_number s = Some (b, text, r) ->
             exists c t,
               s = c :: t
               /\ is_ws c = false /\ (c =? ch "]")%N = false
               /\ (65279 =? c)%N = false).
  { intros s b text r Hm.
    destruct (number_head _ _ _ _ Hm) as [c [t [-> Hhead]]].
    exists c, t. split; [reflexivity|].
    exact (number_head_plain c t Hhead). }
  intros Hwf. destruct v as [| [|] | n | f | s | l | d]; cbn [json_dumps].
  - eexists _, _. repeat split.
  - eexists _, _. repeat split.
  - eexists _, _. repeat split.
  - exact (Hnum _ _ _ _ (match_number_int_repr n)).
  - inversion Hwf as [| | |f' Hok| | |]; subst.
    pose proof (float_ok_special f Hok) as Hspecial.
    unfold float_str. destruct (float_kind_of f) eqn:K.
    + exact (Hnum _ _ _ _ (float_literal_matched _ (repr_is_literal f K))).
    + eexists _, _. repeat split.
    + eexists _, _. repeat split.
    + eexists _, _. repeat split.
  - eexists _, _. repeat split.
  - eexists _, _. repeat split.
  - eexists _, _. repeat split.
Qed.

Lemma skip_ws_head (c : char) (t : str) :
  is_ws c = false -> skip_ws (c :: t) = c :: t.
Proof. intros H. cbn [skip_ws]. rewrite H. reflexivity. Qed.

(** [d[k] = v] for a new key adds the entry at the end. *)
Lemma dict_set_new (d : list (str * value)) (k : str) (v : value) :
  ~ In k (List.map fst d) -> dict_set d k v = d ++ [(k, v)].
Proof.
  induction d as [|[k' v'] d IH]; intros Hk; [reflexivity|].
  cbn [dict_set]. destruct (Str.eqb k' k) eqn:E.
  - apply eqb_eq in E. exfalso. apply Hk. left. exact E.
  - rewrite IH; [reflexivity|]. intros H. apply Hk. right. exact H.
Qed.

Lemma join_cons2 (sep p q : str) (ps : list str) :
  join sep (p :: q :: ps) = p ++ sep ++ join sep (q :: ps).
Proof. reflexivity. Qed.

Lemma dumps_dict_entries (d : list (str * value)) :
  json_dumps (VDict d)
  = ch "{" :: join (py ", ") (List.map dumps_entry d) ++ [ch "}"].
Proof. reflexivity. Qed.

(** Whitespace is not skipped over the text of a value. *)
Lemma skip_ws_dumps (v : value) (tail : str) :
  wf_value v -> skip_ws (json_dumps v ++ tail) = json_dumps v ++ tail.
Proof.
  intros Hwf. destruct (dumps_head v Hwf) as [c [t [E [Hws _]]]].
  rewrite E. cbn [app]. apply skip_ws_head, Hws.
Qed.

Lemma parse_array_dumps (l : list value) :
  Forall (fun v => wf_value v -> scans_back v) l ->
  Forall wf_value l ->
  l <> [] ->
  forall fuel acc rest,
    list_sum (List.map (fun x => S (vsize x)) l) <= fuel ->
    parse_array fuel acc
      (join (py ", ") (List.map json_dumps l) ++ ch "]" :: rest)
    = Scanned (VList (acc ++ l)) rest.
Proof.
  induction l as [|v l IH]; intros HP Hwf Hne fuel acc rest Hfuel;
    [contradiction|].
  inversion HP as [|? ? Hv HPl]; subst.
  inversion Hwf as [|? ? Wv Wl]; subst.
  simpl in Hfuel.
  destruct fuel as [|f]; [lia|].
  cbn [parse_array]. destruct l as [|v2 l'].
  - cbn [List.map join].
    rewrite (Hv Wv f (ch "]" :: rest)); [reflexivity|lia|reflexivity].
  - cbn [List.map]. rewrite join_cons2, <- !app_assoc.
    rewrite (Hv Wv f); [|lia|reflexivity].
    change (py ", " ++ ?x) with (ch "," :: ch " " :: x).
    rewrite skip_ws_head by reflexivity.
    change (ch "," =? ch "]")%N with false.
    change (ch "," =? ch ",")%N with true. cbv iota.
    change (skip_ws (ch " " :: ?x)) with (skip_ws x).
    change (json_dumps v2 :: List.map json_dumps l')
      with (List.map json_dumps (v2 :: l')).
    assert (Hskip : forall tail,
               skip_ws (join (py ", ") (List.map json_dumps (v2 :: l'))
                        ++ tail)
               = join (py ", ") (List.map json_dumps (v2 :: l')) ++ tail).
    { intros tail. inversion Wl as [|? ? W2 _]; subst.
      cbn [List.map]. destruct l' as [|v3 l''].
      - cbn [List.map join]. apply skip_ws_dumps, W2.
      - cbn [List.map]. rewrite join_cons2, <- app_assoc.
        apply skip_ws_dumps, W2. }
    rewrite Hskip.
    rewrite (IH HPl Wl ltac:(discriminate) f (acc ++ [v]) rest);
      [|simpl in Hfuel |- *; lia].
    rewrite <- app_assoc. reflexivity.
Qed.

Lemma parse_object_dumps (d : list (str * value)) :
  Forall (fun kv => wf_value (snd kv) -> scans_back (snd kv)) d ->
  Forall (fun kv => wf_value (snd kv)) d ->
  d <> [] ->
  forall fuel acc rest,
    NoDup (List.map fst (acc ++ d)) ->
    list_sum (List.map (fun kv => S (vsize (snd kv))) d) <= fuel ->
    parse_object fuel acc
      (join (py ", ") (List.map dumps_entry d) ++ ch "}" :: rest)
    = Scanned (VDict (acc ++ d)) rest.
Proof.
  induction d as [|[k v] d IH]; intros HP Hwf Hne fuel acc rest Hnd Hfuel;
    [contradiction|].
  inversion HP as [|? ? Hv HPd]; subst.
  inversion Hwf as [|? ? Wv Wd]; subst.
  cbn [snd] in Hv, Wv.
  assert (Hnew : dict_set acc k v = acc ++ [(k, v)]).
  { apply dict_set_new. rewrite List.map_app in Hnd.
    cbn [List.map fst] in Hnd.
    apply NoDup_remove_2 in Hnd. intros H. apply Hnd, in_or_app.
    left. exact H. }
  assert (Hentry : forall tail,
             dumps_entry (k, v) ++ tail
             = QUOTE :: List.flat_map escape_char k
                 ++ QUOTE :: ch ":" :: ch " " :: json_dumps v ++ tail).
  { intros tail. unfold dumps_entry, encode_basestring. cbn [fst snd app].
    rewrite <- !app_assoc. reflexivity. }
  simpl in Hfuel. destruct fuel as [|f]; [lia|].
  destruct d as [|kv2 d'].
  - cbn [List.map join]. rewrite Hentry. cbn [parse_object].
    rewrite N.eqb_refl, scanstring_encode.
    rewrite skip_ws_head by reflexivity. rewrite N.eqb_refl.
    change (skip_ws (ch " " :: ?x)) with (skip_ws x).
    rewrite (skip_ws_dumps v _ Wv).
    rewrite (Hv Wv f (ch "}" :: rest)); [|lia|reflexivity].
    rewrite Hnew. reflexivity.
  - cbn [List.map]. rewrite join_cons2, <- !app_assoc, Hentry.
    cbn [parse_object].
    rewrite N.eqb_refl, scanstring_encode.
    rewrite skip_ws_head by reflexivity. rewrite N.eqb_refl.
    change (skip_ws (ch " " :: ?x)) with (skip_ws x).
    rewrite (skip_ws_dumps v _ Wv).
    rewrite (Hv Wv f); [|lia|reflexivity].
    rewrite Hnew.
    change (py ", " ++ ?x) with (ch "," :: ch " " :: x).
    rewrite skip_ws_head by reflexivity.
    change (ch "," =? ch "}")%N with false.
    change (ch "," =? ch ",")%N with true. cbv iota.
    change (skip_ws (ch " " :: ?x)) with (skip_ws x).
    change (dumps_entry kv2 :: List.map dumps_entry d')
      with (List.map dumps_entry (kv2 :: d')).
    assert (Hskip : forall tail,
               skip_ws (join (py ", ") (List.map dumps_entry (kv2 :: d'))
                        ++ tail)
               = join (py ", ") (List.map dumps_entry (kv2 :: d')) ++ tail).
    { intros tail. cbn [List.map]. destruct d' as [|kv3 d''].
      - cbn [List.map join]. reflexivity.
      - cbn [List.map]. rewrite join_cons2. reflexivity. }
    rewrite Hskip.
    rewrite (IH HPd Wd ltac:(discriminate) f (acc ++ [(k, v)]) rest);
      [rewrite <- app_assoc; reflexivity
      |rewrite <- app_assoc; exact Hnd
      |simpl in Hfuel |- *; lia].
Qed.

(** [scan_once] reads back the text [json.dumps] writes for a value that
    [json.loads] can return. *)
Lemma scan_once_dumps (v : value) : wf_value v -> scans_back v.
Proof.
  induction v as [|b|n|f|s|l IH|d IH] using value_induction;
    intros Hwf fuel rest Hfuel Hrest;
    (destruct fuel as [|fuel]; [simpl in Hfuel; lia|]).
  - reflexivity.
  - destruct b; reflexivity.
  - apply scan_once_int_repr, Hrest.
  - inversion Hwf; subst. apply scan_once_float_str; assumption.
  - cbn [json_dumps]. unfold encode_basestring. cbn [app scan_once].
    rewrite N.eqb_refl, <- app_assoc. cbn [app].
    rewrite scanstring_encode. reflexivity.
  - inversion Hwf as [| | | | |l' Wl|]; subst.
    cbn [json_dumps app]. rewrite <- app_assoc. cbn [app scan_once].
    change (ch "[" =? QUOTE)%N with false.
    change (ch "[" =? ch "{")%N with false.
    change (ch "[" =? ch "[")%N with true. cbv iota.
    destruct l as [|v l].
    + reflexivity.
    + inversion Wl as [|? ? Wv _]; subst.
      destruct (dumps_head v Wv) as [c [t [E [Hws [Hclose _]]]]].
      assert (Hbody : exists t',
                 join (py ", ") (List.map json_dumps (v :: l))
                 ++ ch "]" :: rest = c :: t').
      { cbn [List.map]. destruct l as [|v2 l'].
        - cbn [List.map join]. rewrite E. eexists. reflexivity.
        - cbn [List.map]. rewrite join_cons2, E. eexists. reflexivity. }
      destruct Hbody as [t' Hbody]. rewrite Hbody, (skip_ws_head c t' Hws).
      rewrite Hclose, <- Hbody.
      rewrite (parse_array_dumps (v :: l) IH Wl ltac:(discriminate)
                 fuel [] rest); [reflexivity|].
      simpl in Hfuel |- *. lia.
  - inversion Hwf as [| | | | | |d' Hnd Wd]; subst.
    rewrite dumps_dict_entries. cbn [app]. rewrite <- app_assoc.
    cbn [app scan_once].
    change (ch "{" =? QUOTE)%N with false.
    change (ch "{" =? ch "{")%N with true. cbv iota.
    destruct d as [|[k w] d].
    + reflexivity.
    + assert (Hbody : exists t',
                 join (py ", ") (List.map dumps_entry ((k, w) :: d))
                 ++ ch "}" :: rest = QUOTE :: t').
      { cbn [List.map]. destruct d as [|kv2 d'].
        - cbn [List.map join]. eexists. reflexivity.
        - cbn [List.map]. rewrite join_cons2. eexists. reflexivity. }
      destruct Hbody as [t' Hbody].
      rewrite Hbody, (skip_ws_head QUOTE t' eq_refl).
      change (QUOTE =? ch "}")%N with false. cbv iota. rewrite <- Hbody.
      rewrite (parse_object_dumps ((k, w) :: d) IH Wd ltac:(discriminate)
                 fuel [] rest); [reflexivity|exact Hnd|].
      simpl in Hfuel |- *. lia.
Qed.

(** ** Fuel for the text of a value *)

Lemma length_join_dumps (l : list value) :
  Forall (fun v => vsize v <= List.length (json_dumps v)) l ->
  list_sum (List.map (fun x => S (vsize x)) l)
  <= S (List.length (join (py ", ") (List.map json_dumps l))).
Proof.
  induction l as [|v l IH]; intros H; [simpl; lia|].
  inversion H as [|? ? Hv Hl]; subst. specialize (IH Hl).
  destruct l as [|v2 l'].
  - simpl. lia.
  - cbn [List.map] in IH |- *. rewrite join_cons2, !length_app.
    simpl list_sum in IH |- *. simpl (List.length (py ", ")). lia.
Qed.

Lemma length_join_entries (d : list (str * value)) :
  Forall (fun kv => vsize (snd kv) <= List.length (json_dumps (snd kv))) d ->
  list_sum (List.map (fun kv => S (vsize (snd kv))) d)
  <= S (List.length (join (py ", ") (List.map dumps_entry d))).
Proof.
  assert (Hentry : forall kv,
             List.length (json_dumps (snd kv)) <= List.length (dumps_entry kv)).
  { intros kv. unfold dumps_entry. rewrite !length_app. lia. }
  induction d as [|kv d IH]; intros H; [simpl; lia|].
  inversion H as [|? ? Hv Hd]; subst. specialize (IH Hd).
  pose proof (Hentry kv) as Hkv.
  destruct d as [|kv2 d'].
  - cbn [List.map join]. simpl list_sum. lia.
  - cbn [List.map] in IH |- *. rewrite join_cons2, !length_app.
    simpl list_sum in IH |- *. simpl (List.length (py ", ")). lia.
Qed.

(** A text has at least as many characters as its value has nodes. *)
Lemma vsize_le_length (v : value) :
  wf_value v -> vsize v <= List.length (json_dumps v).
Proof.
  induction v as [|b|n|f|s|l IH|d IH] using value_induction; intros Hwf;
    try (destruct (dumps_head _ Hwf) as [c [t [E _]]]; rewrite E;
         simpl; lia).
  - inversion Hwf as [| | | | |l' Wl|]; subst.
    assert (H : Forall (fun v => vsize v <= List.length (json_dumps v)) l).
    { clear Hwf. induction IH as [|v l Hv _ IHl]; [constructor|].
      inversion Wl; subst. constructor; auto. }
    pose proof (length_join_dumps l H) as Hlen.
    cbn [json_dumps vsize]. cbn [List.length]. rewrite length_app.
    cbn [List.length]. lia.
  - inversion Hwf as [| | | | | |d' Hnd Wd]; subst.
    assert (H : Forall (fun kv => vsize (snd kv)
                                  <= List.length (json_dumps (snd kv))) d).
    { clear Hwf Hnd. induction IH as [|kv d Hv _ IHd]; [constructor|].
      inversion Wd; subst. constructor; auto. }
    pose proof (length_join_entries d H) as Hlen.
    rewrite dumps_dict_entries. cbn [vsize List.length].
    rewrite length_app. cbn [List.length]. lia.
Qed.

(** What [json.dumps] writes for a value that [json.loads] can return
    denotes that value. *)
Lemma value_dumps (v : value) :
  wf_value v -> json_value (json_dumps v) = Some v.
Proof.
  intros Hwf. unfold json_value, decode.
  destruct (dumps_head v Hwf) as [c [t [E [Hws [_ Hbom]]]]].
  assert (Hstart : startswith [65279%N] (json_dumps v) = false)
    by (rewrite E; cbn [startswith]; rewrite Hbom; reflexivity).
  rewrite Hstart.
  assert (Hskip : skip_ws (json_dumps v) = json_dumps v)
    by (rewrite E; apply skip_ws_head, Hws).
  rewrite Hskip.
  pose proof (scan_once_dumps v Hwf (S (2 * List.length (json_dumps v))) [])
    as H.
  rewrite app_nil_r in H. rewrite H; [reflexivity| |reflexivity].
  pose proof (vsize_le_length v Hwf). lia.
Qed.

(** ** What [json.loads] returns *)

Lemma dict_set_keys (d : list (str * value)) (k : str) (v : value) (x : str) :
  In x (List.map fst (dict_set d k v)) -> In x (List.map fst d) \/ x = k.
Proof.
  induction d as [|[k' v'] d IH]; cbn [dict_set List.map fst].
  - intros [H|[]]. right. symmetry. exact H.
  - destruct (Str.eqb k' k); cbn [List.map fst].
    + intros H. left. exact H.
    + intros [H|H]; [left; left; exact H|].
      destruct (IH H) as [H'|H']; [left; right; exact H'|right; exact H'].
Qed.

(** Setting a key keeps the keys of a dict distinct. *)
Lemma dict_set_nodup (d : list (str * value)) (k : str) (v : value) :
  NoDup (List.map fst d) -> NoDup (List.map fst (dict_set d k v)).
Proof.
  induction d as [|[k' v'] d IH]; cbn [dict_set List.map fst]; intros Hnd.
  - constructor; [intros []|constructor].
  - inversion Hnd as [|? ? Hk' Hd]; subst.
    destruct (Str.eqb k' k) eqn:E; cbn [List.map fst].
    + constructor; assumption.
    + constructor; [|apply IH, Hd].
      intros H. destruct (dict_set_keys d k v k' H) as [H'|H'].
      * exact (Hk' H').
      * subst k'. rewrite eqb_refl in E. discriminate.
Qed.

Lemma dict_set_forall (P : value -> Prop) (d : list (str * value))
      (k : str) (v : value) :
  Forall (fun kv => P (snd kv)) d ->
  P v ->
  Forall (fun kv => P (snd kv)) (dict_set d k v).
Proof.
  intros Hd Hv. induction d as [|[k' v'] d IH]; cbn [dict_set].
  - constructor; [exact Hv|constructor].
  - inversion Hd as [|? ? Hv' Hd']; subst.
    destruct (Str.eqb k' k); constructor; auto.
Qed.

Lemma scan_number_wf (s : str) (v : value) (r : str) :
  scan_number s = Scanned v r -> wf_value v.
Proof.
  unfold scan_number. destruct (match_number s) as [[[b text] rest]|];
    [|discriminate].
  destruct b; intros H; injection H as <- _; constructor.
  apply literal_is_ok.
Qed.

(** The scanner only builds values whose floats are finite or special and
    whose dicts hold each key once. *)
Lemma scan_wf (fuel : nat) :
  (forall s v r, scan_once fuel s = Scanned v r -> wf_value v)
  /\ (forall pairs s v r,
         NoDup (List.map fst pairs) ->
         Forall (fun kv => wf_value (snd kv)) pairs ->
         parse_object fuel pairs s = Scanned v r -> wf_value v)
  /\ (forall items s v r,
         Forall wf_value items ->
         parse_array fuel items s = Scanned v r -> wf_value v).
Proof.
  induction fuel as [|fuel [IHscan [IHobj IHarr]]].
  - repeat split; intros; discriminate.
  - split; [|split].
    + intros [|c s] v r; [discriminate|]. cbn [scan_once].
      destruct (c =? QUOTE)%N.
      { destruct (scanstring s) as [[text rest]|]; [|discriminate].
        intros H. injection H as <- _. constructor. }
      destruct (c =? ch "{")%N.
      { destruct (skip_ws s) as [|c1 s1]; [discriminate|].
        destruct (c1 =? ch "}")%N.
        - intros H. injection H as <- _.
          constructor; constructor.
        - apply IHobj; constructor. }
      destruct (c =? ch "[")%N.
      { destruct (skip_ws s) as [|c1 s1]; [discriminate|].
        destruct (c1 =? ch "]")%N.
        - intros H. injection H as <- _. constructor. constructor.
        - apply IHarr. constructor. }
      destruct (startswith (py "null") (c :: s));
        [intros H; injection H as <- _; constructor|].
      destruct (startswith (py "true") (c :: s));
        [intros H; injection H as <- _; constructor|].
      destruct (startswith (py "false") (c :: s));
        [intros H; injection H as <- _; constructor|].
      destruct (startswith (py "NaN") (c :: s));
        [intros H; injection H as <- _; constructor;
         right; left; reflexivity|].
      destruct (startswith (py "Infinity") (c :: s));
        [intros H; injection H as <- _; constructor;
         right; right; left; reflexivity|].
      destruct (startswith (py "-Infinity") (c :: s));
        [intros H; injection H as <- _; constructor;
         right; right; right; reflexivity|].
      apply scan_number_wf.
    + intros pairs [|q s1] v r Hnd Hwf; [discriminate|].
      cbn [parse_object].
      destruct (q =? QUOTE)%N; [|discriminate].
      destruct (scanstring s1) as [[key s2]|]; [|discriminate].
      destruct (skip_ws s2) as [|colon s3]; [discriminate|].
      destruct (colon =? ch ":")%N; [|discriminate].
      destruct (scan_once fuel (skip_ws s3)) as [w s4| |] eqn:E;
        [|discriminate|discriminate].
      apply IHscan in E.
      destruct (skip_ws s4) as [|d s5]; [discriminate|].
      destruct (d =? ch "}")%N.
      * intros H. injection H as <- _. constructor.
        -- apply dict_set_nodup, Hnd.
        -- apply dict_set_forall; assumption.
      * destruct (d =? ch ",")%N; [|discriminate].
        apply IHobj.
        -- apply dict_set_nodup, Hnd.
        -- apply dict_set_forall; assumption.
    + intros items s v r Hwf. cbn [parse_array].
      destruct (scan_once fuel s) as [w s1| |] eqn:E;
        [|discriminate|discriminate].
      apply IHscan in E.
      assert (Hitems : Forall wf_value (items ++ [w]))
        by (apply Forall_app; split; [exact Hwf|constructor; auto]).
      destruct (skip_ws s1) as [|d s2]; [discriminate|].
      destruct (d =? ch "]")%N.
      * intros H. injection H as <- _. constructor. exact Hitems.
      * destruct (d =? ch ",")%N; [|discriminate].
        apply IHarr. exact Hitems.
Qed.

Lemma value_wf (s : str) (v : value) : json_value s = Some v -> wf_value v.
Proof.
  unfold json_value, decode.
  destruct (startswith [65279%N] s); [discriminate|].
  destruct (scan_once (S (2 * List.length s)) (skip_ws s))
    as [w rest| |] eqn:E; [|discriminate|discriminate].
  destruct (skip_ws rest); [|discriminate].
  intros H. injection H as <-.
  exact (proj1 (scan_wf _) _ _ _ E).
Qed.

(** ** The envelope *)

Lemma forward_data_wf (data_array : value) (device_id : str) (now : Z) :
  wf_value data_array -> wf_value (forward_data data_array device_id now).
Proof.
  intros H. unfold forward_data. constructor.
  - cbn [List.map fst].
    repeat (constructor;
            [cbn [In]; intros Hin;
             repeat (destruct Hin as [Hin|Hin]; [discriminate Hin|]);
             exact Hin|]).
    constructor.
  - repeat constructor. exact H.
Qed.

Lemma as_array_wf (v : value) : wf_value v -> wf_value (as_array v).
Proof.
  intros H. unfold as_array. destruct (is_list v); [exact H|].
  constructor. constructor; [exact H|constructor].
Qed.

Lemma convert_json_format_wf (v : value) :
  wf_value v -> wf_value (convert_json_format v).
Proof.
  intros H. destruct v as [| | | | | |d]; try exact H. cbn [convert_json_format].
  inversion H as [| | | | | |d' _ Hd]; subst. clear H. constructor.
  induction Hd as [|kv d Hkv _ IH]; [constructor|].
  cbn [List.map]. constructor; [|exact IH].
  unfold record. constructor.
  - cbn [List.map fst].
    repeat (constructor;
            [cbn [In]; intros Hin;
             repeat (destruct Hin as [Hin|Hin]; [discriminate Hin|]);
             exact Hin|]).
    constructor.
  - repeat constructor. exact Hkv.
Qed.

(** Every envelope [decide] returns is a value [json.loads] can return. *)
Lemma decide_wf (topic : str) (raw : bytes) (now : Z) (envelope : value) :
  decide topic raw now = Forward envelope -> wf_value envelope.
Proof.
  intros H.
  destruct (decide_forward_cases topic raw now envelope H)
    as [text [_ [_ [_ [[v [L [_ ->]]]|[_ ->]]]]]].
  - apply forward_data_wf, as_array_wf, convert_json_format_wf.
    exact (value_wf _ _ (loads_value _ _ L)).
  - apply forward_data_wf. repeat constructor.
Qed.

(** C9: every envelope the handler builds, written with [json.dumps] and
    read back, comes back as the same value: the four entries [data],
    [SN], [Type] and [flexem_timestamp], with every nested value of the
    same type and content.  The text denotes the envelope; [json.loads]
    returns the envelope whenever it reads the text without meeting a
    limit of the interpreter; and it never returns anything else. *)
Theorem envelope_round_trip (topic : str) (raw : bytes) (now : Z)
        (envelope : value) :
  decide topic raw now = Forward envelope ->
  json_value (json_dumps envelope) = Some envelope
  /\ (within_limits (json_dumps envelope) = true ->
      json_loads (json_dumps envelope) = Ok envelope)
  /\ (forall v, json_loads (json_dumps envelope) = Ok v -> v = envelope).
Proof.
  intros H.
  pose proof (value_dumps envelope (decide_wf topic raw now envelope H))
    as V.
  split; [exact V|]. split.
  - intros W. rewrite (loads_within_limits _ W), V. reflexivity.
  - intros v L. apply loads_value in L. rewrite V in L.
    injection L as <-. reflexivity.
Qed.

(** ** What the handler does with a decision *)

(** [forward_message] calls [publish] at most once, and only when the
    client is there and connected, on the configured topic, with the text
    of the data it was given. *)
Lemma forward_message_publishes (data : value) (self : forwarder) :
  List.length (published (snd (forward_message data self))) <= 1
  /\ forall t m,
       In (t, m) (published (snd (forward_message data self))) ->
       is_connected self = true
       /\ (exists c, client self = Some c)
       /\ (exists fw, getitem (config self) (py "forward") = Ok fw
                      /\ getitem fw (py "topic") = Ok t)
       /\ m = json_dumps data.
Proof.
  unfold forward_message, try_except, bind, get_self, lift, log,
    call_publish.
  destruct (client self) as [c|] eqn:Hc;
    [|split; [cbn; lia|intros t m []]].
  destruct (is_connected self) eqn:Hconn;
    [|split; [cbn; lia|intros t m []]].
  destruct (getitem (config self) (py "forward")) as [fw|e] eqn:Hfw;
    [|split; [cbn; lia|intros t m []]].
  destruct (getitem fw (py "topic")) as [tp|e] eqn:Htp;
    [|split; [cbn; lia|intros t m []]].
  assert (Hin : forall t m,
             (tp, json_dumps data) = (t, m) \/ False ->
             true = true
             /\ (exists c0, Some c = Some c0)
             /\ (exists fw0, Ok fw = Ok fw0 /\ getitem fw0 (py "topic") = Ok t)
             /\ m = json_dumps data).
  { intros t m [H|[]]. injection H as <- <-.
    split; [reflexivity|]. split; [exists c; reflexivity|].
    split; [exists fw; split; [reflexivity|exact Htp]|reflexivity]. }
  destruct (publish c tp (json_dumps data)) as [rc|e];
    [|split; [cbn; lia|exact Hin]].
  destruct (rc =? MQTT_ERR_SUCCESS)%Z; [|split; [cbn; lia|exact Hin]].
  destruct (getitem data (py "SN")); split; try (cbn; lia); exact Hin.
Qed.

(** What [on_message] does once it has decided to forward. *)
Lemma on_message_forward (self : forwarder) (msg : message) (now : Z)
      (envelope : value) :
  decide (topic msg) (payload msg) now = Forward envelope ->
  exists text,
    utf8_decode (payload msg) = Some text
    /\ on_message msg now self
       = (Ok tt, self,
          Log INFO (DeviceMessage (replace (py "status/AMT") [] (topic msg))
                                  (strip text))
          :: snd (forward_message envelope self)).
Proof.
  intros D. rewrite on_message_decide. unfold handler_events. rewrite D.
  unfold decide in D.
  destruct (utf8_decode (payload msg)) as [text|]; [|discriminate].
  exists text. split; reflexivity.
Qed.

Lemma forward_message_disconnected (data : value) (self : forwarder) :
  client self = None \/ is_connected self = false ->
  forward_message data self = (Ok tt, self, [Log ERROR ClientNotConnected]).
Proof.
  intros H. unfold forward_message, try_except, bind, get_self, lift, log.
  destruct (client self) as [c|]; [|reflexivity].
  destruct H as [H|H]; [discriminate|]. rewrite H. reflexivity.
Qed.

(** X1: whatever the message, the configuration and the client do,
    [on_message] returns without raising, leaves the forwarder as it was,
    and calls [publish] at most once. *)
Theorem on_message_is_contained (self : forwarder) (msg : message) (now : Z) :
  exists evs,
    on_message msg now self = (Ok tt, self, evs)
    /\ List.length (published evs) <= 1.
Proof.
  rewrite on_message_decide. eexists. split; [reflexivity|].
  unfold handler_events.
  destruct (decide (topic msg) (payload msg) now) as [[|]| |envelope|e];
    try (cbn; lia).
  - exact (proj1 (forward_message_publishes envelope self)).
  - destruct (utf8_decode (payload msg)); cbn; lia.
Qed.

(** X2: every call of [publish] the handler makes is for a message it
    decided to forward, while connected, on the topic the configuration
    names under [forward], with the [json.dumps] text of the envelope. *)
Theorem publish_is_as_configured (self : forwarder) (msg : message)
        (now : Z) (t : value) (m : str) :
  In (t, m) (published (snd (on_message msg now self))) ->
  is_connected self = true
  /\ (exists c, client self = Some c)
  /\ (exists fw, getitem (config self) (py "forward") = Ok fw
                 /\ getitem fw (py "topic") = Ok t)
  /\ exists envelope,
       decide (topic msg) (payload msg) now = Forward envelope
       /\ m = json_dumps envelope.
Proof.
  rewrite on_message_decide. unfold handler_events. cbn [snd].
  destruct (decide (topic msg) (payload msg) now) as [[|]| |envelope|e];
    try (intros []);
    [|destruct (utf8_decode (payload msg)); intros []].
  cbn [published List.flat_map app]. intros H.
  destruct (proj2 (forward_message_publishes envelope self) t m H)
    as [H1 [H2 [H3 H4]]].
  split; [exact H1|]. split; [exact H2|]. split; [exact H3|].
  exists envelope. split; [reflexivity|exact H4].
Qed.

(** X3: a message whose payload is valid UTF-8 is not an error when it
    is passed over: when its trimmed text is empty, when its topic does
    not start with [status/AMT], or when [json.loads] returns a falsy
    value for it.  Nothing is logged at level [ERROR] and nothing is
    published. *)
Theorem skipped_is_not_an_error (self : forwarder) (msg : message) (now : Z)
        (text : str) :
  utf8_decode (payload msg) = Some text ->
  strip text = []
  \/ startswith prefix (topic msg) = false
  \/ (exists v, json_loads (strip text) = Ok v /\ truthy v = false) ->
  errors (snd (on_message msg now self)) = []
  /\ published (snd (on_message msg now self)) = [].
Proof.
  intros Hraw Hcase.
  assert (D : (exists why, decide (topic msg) (payload msg) now = Skip why)
              \/ decide (topic msg) (payload msg) now = OtherTopic).
  { destruct (strip text) as [|c t] eqn:E.
    - left. exists EmptyPayload. exact (decide_blank _ _ now text Hraw E).
    - assert (Hne : strip text <> []) by (rewrite E; discriminate).
      destruct (startswith prefix (topic msg)) eqn:Htopic.
      + left. exists EmptyJson.
        destruct Hcase as [H|[H|[v [L T]]]]; [discriminate|discriminate|].
        rewrite <- E in L.
        rewrite (decide_parsed _ _ now text v Htopic Hraw L).
        rewrite is_empty_json_falsy, T. reflexivity.
      + right. exact (decide_other_topic _ _ now text Htopic Hraw Hne). }
  rewrite on_message_decide. unfold handler_events. cbn [snd].
  destruct D as [[why H]|H]; rewrite H; [destruct why|]; split; reflexivity.
Qed.



(** Every envelope is [forward_data] of an array, the device part of the
    topic and the clock reading. *)
Lemma decide_forward_data (topic : str) (raw : bytes) (now : Z)
      (envelope : value) :
  decide topic raw now = Forward envelope ->
  exists items,
    envelope = forward_data (VList items)
                 (replace (py "status/AMT") [] topic) now.
Proof.
  intros H.
  destruct (decide_forward_cases topic raw now envelope H)
    as [text [_ [_ [_ [[v [_ [_ ->]]]|[_ ->]]]]]].
  - destruct v as [| b | n | f | s | l | d]; eexists; reflexivity.
  - eexists. reflexivity.
Qed.

(** X6: every envelope has the same four entries in the same order:
    [data], an array that is never empty; [SN], [AMT] and the device part
    of the topic; [Type], the text [park]; [flexem_timestamp], the clock
    reading. *)
Theorem envelope_shape (topic : str) (raw : bytes) (now : Z)
        (envelope : value) :
  decide topic raw now = Forward envelope ->
  exists items,
    items <> []
    /\ envelope
       = VDict [(py "data", VList items);
                (py "SN",
                 VStr (py "AMT" ++ replace (py "status/AMT") [] topic));
                (py "Type", VStr (py "park"));
                (py "flexem_timestamp", VInt now)].
Proof.
  intros H.
  destruct (decide_forward_cases topic raw now envelope H)
    as [text [_ [_ [_ [[v [_ [T ->]]]|[_ ->]]]]]].
  - rewrite is_empty_json_falsy in T.
    destruct v as [| b | n | f | s | [|x l] | [|kv d]]; try discriminate;
      eexists; (split; [|reflexivity]); discriminate.
  - eexists. split; [|reflexivity]. discriminate.
Qed.

(** ** The keys of a parsed object *)

Lemma parse_object_keys (fuel : nat) :
  forall pairs s v r,
    NoDup (List.map fst pairs) ->
    parse_object fuel pairs s = Scanned v r ->
    exists d, v = VDict d /\ NoDup (List.map fst d).
Proof.
  induction fuel as [|fuel IH]; intros pairs s v r Hnd; [discriminate|].
  destruct s as [|q s1]; [discriminate|]. cbn [parse_object].
  destruct (q =? QUOTE)%N; [|discriminate].
  destruct (scanstring s1) as [[key s2]|]; [|discriminate].
  destruct (skip_ws s2) as [|colon s3]; [discriminate|].
  destruct (colon =? ch ":")%N; [|discriminate].
  destruct (scan_once fuel (skip_ws s3)) as [w s4| |];
    [|discriminate|discriminate].
  destruct (skip_ws s4) as [|d s5]; [discriminate|].
  destruct (d =? ch "}")%N.
  - intros H. injection H as <- _. eexists. split; [reflexivity|].
    apply dict_set_nodup, Hnd.
  - destruct (d =? ch ",")%N; [|discriminate].
    apply IH, dict_set_nodup, Hnd.
Qed.

Lemma parse_array_list (fuel : nat) :
  forall items s v r,
    parse_array fuel items s = Scanned v r -> exists l, v = VList l.
Proof.
  induction fuel as [|fuel IH]; intros items s v r; [discriminate|].
  cbn [parse_array].
  destruct (scan_once fuel s) as [w s1| |]; [|discriminate|discriminate].
  destruct (skip_ws s1) as [|d s2]; [discriminate|].
  destruct (d =? ch "]")%N.
  - intros H. injection H as <- _. eexists. reflexivity.
  - destruct (d =? ch ",")%N; [|discriminate]. apply IH.
Qed.

(** A dict [json.loads] returns holds each key once. *)
Lemma value_dict_keys (s : str) (d : list (str * value)) :
  json_value s = Some (VDict d) -> NoDup (List.map fst d).
Proof.
  unfold json_value, decode.
  destruct (startswith [65279%N] s); [discriminate|].
  destruct (scan_once (S (2 * List.length s)) (skip_ws s))
    as [w rest| |] eqn:E; [|discriminate|discriminate].
  destruct (skip_ws rest); [|discriminate].
  intros H. injection H as ->. revert E.
  destruct (skip_ws s) as [|c t]; [discriminate|]. cbn [scan_once].
  destruct (c =? QUOTE)%N.
  { destruct (scanstring t) as [[text r]|]; discriminate. }
  destruct (c =? ch "{")%N.
  { destruct (skip_ws t) as [|c1 s1]; [discriminate|].
    destruct (c1 =? ch "}")%N.
    - intros H. injection H as <- _. constructor.
    - intros H.
      destruct (parse_object_keys _ [] _ _ _ (NoDup_nil _) H)
        as [d' [E Hnd]].
      injection E as ->. exact Hnd. }
  destruct (c =? ch "[")%N.
  { destruct (skip_ws t) as [|c1 s1]; [discriminate|].
    destruct (c1 =? ch "]")%N; [discriminate|].
    intros H. destruct (parse_array_list _ _ _ _ _ H) as [l E].
    discriminate. }
  destruct (startswith (py "null") (c :: t)); [discriminate|].
  destruct (startswith (py "true") (c :: t)); [discriminate|].
  destruct (startswith (py "false") (c :: t)); [discriminate|].
  destruct (startswith (py "NaN") (c :: t)); [discriminate|].
  destruct (startswith (py "Infinity") (c :: t)); [discriminate|].
  destruct (startswith (py "-Infinity") (c :: t)); [discriminate|].
  unfold scan_number.
  destruct (match_number (c :: t)) as [[[[|] text] r]|]; discriminate.
Qed.

(** X7: in the [data] built from an object payload no two records carry
    the same [name], even when the payload repeats a key. *)
Theorem record_names_are_distinct (topic : str) (raw : bytes) (now : Z)
        (text : str) (d : list (str * value)) (envelope : value)
        (records : list value) :
  utf8_decode raw = Some text ->
  json_loads (strip text) = Ok (VDict d) ->
  decide topic raw now = Forward envelope ->
  data_of envelope = Some (VList records) ->
  NoDup (List.map (fun r => getitem r (py "name")) records).
Proof.
  intros Hraw L D Hdata.
  pose proof (value_dict_keys _ _ (loads_value _ _ L)) as Hnd.
  unfold decide, is_json in D. rewrite Hraw, L in D.
  destruct (is_nil (strip text)); [discriminate|].
  destruct (startswith (py "status/AMT") topic); [|discriminate].
  destruct (is_empty_json (VDict d)); [discriminate|].
  injection D as <-. cbn in Hdata. injection Hdata as <-.
  clear L. induction d as [|[k v] d IH]; [constructor|].
  cbn [List.map fst] in Hnd |- *. inversion Hnd as [|? ? Hk Hd]; subst.
  constructor; [|exact (IH Hd)].
  intros Hin. apply Hk. clear - Hin.
  induction d as [|[k' v'] d IH]; [destruct Hin|].
  cbn [List.map fst In] in Hin |- *. destruct Hin as [H|H].
  - left. cbn in H. injection H as ->. reflexivity.
  - right. exact (IH H).
Qed.

(** ** The handler's own output *)

Lemma lstrip_head (c : char) (s : str) :
  isspace c = false -> lstrip (c :: s) = c :: s.
Proof. intros H. cbn [lstrip]. rewrite H. reflexivity. Qed.

(** A text that neither starts nor ends with whitespace is its own
    [strip]. *)
Lemma strip_framed (c d : char) (body : str) :
  isspace c = false ->
  isspace d = false ->
  strip (c :: body ++ [d]) = c :: body ++ [d].
Proof.
  intros Hc Hd. unfold strip, rstrip. rewrite (lstrip_head c _ Hc).
  assert (E : List.rev (c :: body ++ [d]) = d :: List.rev body ++ [c])
    by (cbn [List.rev]; rewrite rev_app_distr; reflexivity).
  rewrite E, (lstrip_head d _ Hd), <- E. apply rev_involutive.
Qed.

(** X8: what the handler publishes is itself a message the handler
    forwards.  Fed back on a device topic, the text of an envelope is not
    skipped: read without meeting a limit of the interpreter, it comes
    out as an envelope whose [data] holds one record for each of the four
    entries of the first. *)
Theorem own_output_is_forwarded_again (topic : str) (raw : bytes) (now : Z)
        (envelope : value) (topic' : str) (raw' : bytes) (now' : Z) :
  decide topic raw now = Forward envelope ->
  utf8_decode raw' = Some (json_dumps envelope) ->
  startswith (py "status/AMT") topic' = true ->
  within_limits (json_dumps envelope) = true ->
  exists items,
    envelope = forward_data (VList items)
                 (replace (py "status/AMT") [] topic) now
    /\ decide topic' raw' now'
       = Forward
           (forward_data
              (VList
                 [record (py "data", VList items);
                  record (py "SN",
                          VStr (py "AMT"
                                ++ replace (py "status/AMT") [] topic));
                  record (py "Type", VStr (py "park"));
                  record (py "flexem_timestamp", VInt now)])
              (replace (py "status/AMT") [] topic') now').
Proof.
  intros D Hraw' Htopic' Hroom.
  pose proof (decide_wf topic raw now envelope D) as Hwf.
  destruct (decide_forward_data topic raw now envelope D) as [items E].
  exists items. split; [exact E|].
  assert (Hstrip : strip (json_dumps envelope) = json_dumps envelope).
  { rewrite E. unfold forward_data. rewrite dumps_dict_entries.
    apply strip_framed; reflexivity. }
  assert (L : json_loads (strip (json_dumps envelope)) = Ok envelope)
    by (rewrite Hstrip, (loads_within_limits _ Hroom),
          (value_dumps _ Hwf); reflexivity).
  rewrite (decide_parsed topic' raw' now' (json_dumps envelope) envelope
             Htopic' Hraw' L).
  rewrite E. reflexivity.
Qed.

(** ** Connecting and subscribing *)

Lemma subscription_topic_has_prefix (device_id : value) :
  startswith (py "status/AMT") (subscription_topic device_id) = true.
Proof. reflexivity. Qed.

Lemma subscribe_all_ok (c : mqtt_subscriber) (items : list value) :
  (forall x, In x items -> subscribe c (subscription_topic x) = Ok tt) ->
  subscribe_all c items = (Ok tt, List.flat_map subscription_events items).
Proof.
  induction items as [|x items IH]; intros H; [reflexivity|].
  cbn [subscribe_all List.flat_map].
  rewrite (H x (or_introl eq_refl)), IH; [reflexivity|].
  intros y Hy. apply H. right. exact Hy.
Qed.

Lemma subscribe_all_stops (c : mqtt_subscriber) (before after : list value)
      (x : value) (e : exn) :
  (forall y, In y before -> subscribe c (subscription_topic y) = Ok tt) ->
  subscribe c (subscription_topic x) = Raise e ->
  subscribe_all c (before ++ x :: after)
  = (Raise e,
     List.flat_map subscription_events before
     ++ [Subscribe (subscription_topic x)]).
Proof.
  intros Hbefore Hx. induction before as [|y before IH].
  - cbn [app subscribe_all List.flat_map]. rewrite Hx. reflexivity.
  - cbn [app subscribe_all List.flat_map].
    rewrite (Hbefore y (or_introl eq_refl)), IH; [reflexivity|].
    intros z Hz. apply Hbefore. right. exact Hz.
Qed.

Lemma subscribe_all_topics (c : mqtt_subscriber) (items : list value)
      (t : str) :
  In t (subscribed (snd (subscribe_all c items))) ->
  exists x, In x items /\ t = subscription_topic x.
Proof.
  induction items as [|x items IH]; [intros []|].
  cbn [subscribe_all].
  destruct (subscribe c (subscription_topic x)) as [u|e].
  - destruct (subscribe_all c items) as [r evs]. cbn in IH |- *.
    intros [H|H].
    + exists x. split; [left; reflexivity|symmetry; exact H].
    + destruct (IH H) as [y [Hy Ht]]. exists y.
      split; [right; exact Hy|exact Ht].
  - cbn. intros [H|[]]. exists x.
    split; [left; reflexivity|symmetry; exact H].
Qed.

(** X9: with result code 0, and every [subscribe] succeeding,
    [on_connect] marks the forwarder connected and subscribes once to
    [status/AMT<device>] for each device of the configuration, in the
    order of the configuration, logging each. *)
Theorem on_connect_subscribes_each_device (c : mqtt_subscriber)
        (self : forwarder) (devices : value) (items : list value) :
  getitem (config self) (py "devices") = Ok devices ->
  iterate devices = Ok items ->
  (forall x, In x items -> subscribe c (subscription_topic x) = Ok tt) ->
  on_connect c 0 self
  = (Ok tt, set_connected true self,
     ConnLog INFO BrokerConnected
     :: List.flat_map subscription_events items).
Proof.
  intros Hdev Hit Hsub. unfold on_connect. cbn [Z.eqb set_connected config].
  rewrite Hdev, Hit, (subscribe_all_ok c items Hsub). reflexivity.
Qed.

(** X10: a [subscribe] that raises ends [on_connect]: the exception
    leaves the callback, the devices after the failing one are never
    subscribed, and the forwarder stays marked connected. *)
Theorem failed_subscribe_ends_on_connect (c : mqtt_subscriber)
        (self : forwarder) (devices : value) (before after : list value)
        (x : value) (e : exn) :
  getitem (config self) (py "devices") = Ok devices ->
  iterate devices = Ok (before ++ x :: after) ->
  (forall y, In y before -> subscribe c (subscription_topic y) = Ok tt) ->
  subscribe c (subscription_topic x) = Raise e ->
  on_connect c 0 self
  = (Raise e, set_connected true self,
     ConnLog INFO BrokerConnected
     :: List.flat_map subscription_events before
     ++ [Subscribe (subscription_topic x)]).
Proof.
  intros Hdev Hit Hbefore Hx. unfold on_connect.
  cbn [Z.eqb set_connected config].
  rewrite Hdev, Hit, (subscribe_all_stops c before after x e Hbefore Hx).
  reflexivity.
Qed.

(** X11: when the configuration has no [devices], or [devices] is not
    something to iterate over (a number, a boolean, [null]), [on_connect]
    with result code 0 raises without subscribing to anything, and the
    forwarder is marked connected all the same. *)
Theorem on_connect_without_devices (c : mqtt_subscriber) (self : forwarder)
        (e : exn) :
  getitem (config self) (py "devices") = Raise e
  \/ (exists devices, getitem (config self) (py "devices") = Ok devices
                      /\ iterate devices = Raise e) ->
  on_connect c 0 self
  = (Raise e, set_connected true self, [ConnLog INFO BrokerConnected])
  /\ is_connected (state_after (on_connect c 0 self)) = true.
Proof.
  intros H.
  assert (E : on_connect c 0 self
              = (Raise e, set_connected true self,
                 [ConnLog INFO BrokerConnected])).
  { unfold on_connect. cbn [Z.eqb set_connected config].
    destruct H as [H|[devices [H1 H2]]].
    - rewrite H. reflexivity.
    - rewrite H1, H2. reflexivity. }
  split; [exact E|]. rewrite E. reflexivity.
Qed.

(** X12: every topic [on_connect] subscribes to is one [on_message]
    takes as a device topic: no message on a subscribed topic is passed
    over as being on another topic. *)
Theorem subscribed_topics_are_handled (c : mqtt_subscriber) (rc : Z)
        (self : forwarder) (t : str) (raw : bytes) (now : Z) :
  In t (subscribed (snd (on_connect c rc self))) ->
  startswith (py "status/AMT") t = true
  /\ decide t raw now <> OtherTopic.
Proof.
  intros H.
  assert (Ht : exists x, t = subscription_topic x).
  { revert H. unfold on_connect. destruct (rc =? 0)%Z; [|cbn; intros []].
    destruct (getitem (config (set_connected true self)) (py "devices"))
      as [devices|e]; [|cbn; intros []].
    destruct (iterate devices) as [items|e]; [|cbn; intros []].
    pose proof (subscribe_all_topics c items t) as Hall.
    destruct (subscribe_all c items) as [r evs]. cbn in Hall |- *.
    intros Hin. destruct (Hall Hin) as [x [_ Hx]]. exists x. exact Hx. }
  destruct Ht as [x ->].
  split; [apply subscription_topic_has_prefix|].
  unfold decide. rewrite subscription_topic_has_prefix.
  destruct (utf8_decode raw) as [text|]; [|discriminate].
  destruct (is_nil (strip text)); [discriminate|].
  destruct (is_json (strip text)) as [[|]|e]; [|discriminate|discriminate].
  destruct (json_loads (strip text)) as [v|e]; [|discriminate].
  destruct (is_empty_json v); discriminate.
Qed.

Lemma digit_is_not_s (c : char) : is_digit c = true -> c <> ch "s".
Proof.
  intros H ->. discriminate H.
Qed.

(** X13: for a device whose identifier is made of ASCII digits, as the
    14-digit serials are, a message on the topic [on_connect] subscribes
    for it carries [SN] equal to [AMT] followed by that identifier. *)
Theorem SN_of_numeric_device (id : str) (raw : bytes) (now : Z)
        (envelope : value) :
  forallb is_digit id = true ->
  decide (subscription_topic (VStr id)) raw now = Forward envelope ->
  SN_of envelope = Some (VStr (py "AMT" ++ id)).
Proof.
  intros Hid D. apply (SN_of_plain_device id raw now envelope); [|exact D].
  apply Forall_forall. intros c Hc. apply digit_is_not_s.
  rewrite forallb_forall in Hid. exact (Hid c Hc).
Qed.

(** ** Connection and forwarding *)

(** X14: after [on_disconnect], and after an [on_connect] with a result
    code other than 0, a message to forward is dropped: [publish] is not
    called, one error is logged, and nothing is kept for later. *)
Theorem dropped_while_disconnected (c : mqtt_subscriber) (rc : Z)
        (self self' : forwarder) (msg : message) (now : Z)
        (envelope : value) :
  self' = state_after (on_disconnect rc self)
  \/ (rc <> 0%Z /\ self' = state_after (on_connect c rc self)) ->
  decide (topic msg) (payload msg) now = Forward envelope ->
  published (snd (on_message msg now self')) = []
  /\ errors (snd (on_message msg now self')) = [ClientNotConnected]
  /\ state_after (on_message msg now self') = self'.
Proof.
  intros Hstate D.
  assert (Hflag : is_connected self' = false).
  { destruct Hstate as [->|[Hrc ->]]; [reflexivity|].
    unfold on_connect. destruct (Z.eqb_spec rc 0); [contradiction|].
    reflexivity. }
  destruct (on_message_forward self' msg now envelope D) as [text [_ ->]].
  rewrite (forward_message_disconnected envelope self' (or_intror Hflag)).
  repeat split.
Qed.


(** ** Loading the configuration *)

(** X16: a configuration file that starts with a UTF-8 byte order mark
    is refused as malformed, whatever well-encoded text follows the mark:
    [load_config] logs the error and leaves with status 1. *)
Theorem config_with_bom_is_refused (content : bytes) (text : str) :
  utf8_decode content = Some text ->
  load_config (Opened (Byte.xef :: Byte.xbb :: Byte.xbf :: content))
  = (SysExit 1, [(ERROR, ConfigMalformed)]).
Proof.
  intros H. unfold load_config.
  change (utf8_decode (Byte.xef :: Byte.xbb :: Byte.xbf :: content))
    with (option_map (cons 65279%N) (utf8_decode content)).
  rewrite H. reflexivity.
Qed.

End Forwarder.

Arguments Ok {A}.
Arguments Raise {A}.

(** ** The decimal float model obeys the laws *)

Module DecimalFloatLaws.

Import DecimalFloat.

Lemma digit_not_sign (d : char) :
  is_digit d = true ->
  (d =? ch "-")%N = false /\ (d =? ch "+")%N = false
  /\ (d =? ch ".")%N = false.
Proof.
  intros H.
  destruct (is_digit_cases d H)
    as [->|[->|[->|[->|[->|[->|[->|[->|[->| ->]]]]]]]]];
    repeat split; reflexivity.
Qed.

Lemma span_digits_uint_stop (u : Decimal.uint) (c : char) (tail : str) :
  is_digit c = false ->
  span_digits (digits_of_uint u ++ c :: tail) = (digits_of_uint u, c :: tail).
Proof.
  intros Hc.
  induction u; cbn [digits_of_uint app span_digits];
    [rewrite Hc; reflexivity | ..];
    (change (is_digit _) with true; cbv iota; rewrite IHu; reflexivity).
Qed.

Lemma int_repr_magnitude (n : Z) :
  int_repr n
  = (if (n <? 0)%Z then [ch "-"] else []) ++ digits_of_uint (magnitude n).
Proof. destruct n; reflexivity. Qed.

Lemma magnitude_value (n : Z) :
  (if (n <? 0)%Z then - Z.of_uint (magnitude n) else Z.of_uint (magnitude n))%Z
  = n.
Proof.
  destruct n as [|p|p].
  - reflexivity.
  - exact (DecimalZ.of_to (Z.pos p)).
  - exact (DecimalZ.of_to (Z.neg p)).
Qed.

(** The digits of an integer start with a digit, from 1 to 9 unless they
    are the single digit zero. *)
Lemma magnitude_head (n : Z) :
  exists d ds,
    digits_of_uint (magnitude n) = d :: ds
    /\ is_digit d = true
    /\ span_digits ds = (ds, [])
    /\ (is_digit19 d = true \/ (d = ch "0" /\ ds = [])).
Proof.
  assert (Hpos : forall p,
             exists d ds,
               digits_of_uint (Pos.to_uint p) = d :: ds
               /\ is_digit d = true
               /\ span_digits ds = (ds, [])
               /\ (is_digit19 d = true \/ (d = ch "0" /\ ds = []))).
  { intros p. pose proof (to_uint_head p) as H.
    destruct (Pos.to_uint p) as [|u|u|u|u|u|u|u|u|u|u]; try contradiction;
      cbn [digits_of_uint]; eexists _, _;
      (split; [reflexivity|]); (split; [reflexivity|]);
      (split; [apply span_digits_uint|left; reflexivity]). }
  destruct n as [|p|p]; [|apply Hpos|apply Hpos].
  exists (ch "0"), []. repeat split. right. split; reflexivity.
Qed.

Lemma span_digits_head (d : char) (ds tail : str) :
  is_digit d = true ->
  span_digits (ds ++ tail) = (ds, tail) ->
  span_digits (d :: ds ++ tail) = (d :: ds, tail).
Proof. intros Hd Hds. cbn [span_digits]. rewrite Hd, Hds. reflexivity. Qed.

(** The exponent part of the text of a float is read whole. *)
Lemma read_exp_repr (e : Z) :
  read_exp (ch "e" :: int_repr e) = (ch "e" :: int_repr e, []).
Proof.
  rewrite int_repr_magnitude.
  destruct (magnitude_head e) as [d [ds [E [Hd [Hds _]]]]]. rewrite E.
  destruct (digit_not_sign d Hd) as [Hminus [Hplus _]].
  pose proof (span_digits_head d ds [] Hd) as Hspan.
  rewrite !app_nil_r in Hspan. specialize (Hspan Hds).
  destruct (e <? 0)%Z; cbn [app read_exp].
  - change ((ch "e" =? ch "e") || (ch "e" =? ch "E"))%N with true.
    change ((ch "-" =? ch "-") || (ch "-" =? ch "+"))%N with true.
    cbv iota. rewrite Hspan. reflexivity.
  - change ((ch "e" =? ch "e") || (ch "e" =? ch "E"))%N with true.
    rewrite Hminus, Hplus. cbn [orb]. cbv iota. rewrite Hspan. reflexivity.
Qed.

Lemma repr_matched (m e : Z) :
  match_number (int_repr m ++ ch "e" :: int_repr e)
  = Some (true, int_repr m ++ ch "e" :: int_repr e, []).
Proof.
  unfold match_number.
  rewrite (int_repr_magnitude m).
  destruct (magnitude_head m) as [d [ds [E [Hd [Hds H19]]]]]. rewrite E.
  destruct (digit_not_sign d Hd) as [Hminus _].
  assert (Hstop : span_digits (ds ++ ch "e" :: int_repr e)
                  = (ds, ch "e" :: int_repr e)).
  { pose proof (span_digits_app ds [ch ","] eq_refl) as H.
    rewrite Hds in H. cbn [fst snd app] in H.
    clear - Hds. revert Hds. generalize (int_repr e). intros tail.
    revert ds. induction ds as [|c ds IH]; intros Hds; [reflexivity|].
    cbn [app span_digits] in Hds |- *.
    destruct (is_digit c); [|discriminate].
    destruct (span_digits ds) as [ds' r] eqn:Eds.
    injection Hds as -> ->. rewrite (IH eq_refl). reflexivity. }
  assert (Hint : read_int ((d :: ds) ++ ch "e" :: int_repr e)
                 = Some (d :: ds, ch "e" :: int_repr e)).
  { cbn [app read_int]. destruct H19 as [H19|[-> ->]].
    - rewrite H19, Hstop. reflexivity.
    - reflexivity. }
  assert (Hfrac : read_frac (ch "e" :: int_repr e)
                  = ([], ch "e" :: int_repr e)).
  { cbn [read_frac]. destruct (int_repr e); reflexivity. }
  assert (Hsign : read_sign
                    (((if (m <? 0)%Z then [ch "-"] else []) ++ d :: ds)
                     ++ ch "e" :: int_repr e)
                  = (if (m <? 0)%Z then [ch "-"] else [],
                     (d :: ds) ++ ch "e" :: int_repr e)).
  { destruct (m <? 0)%Z; cbn [app read_sign].
    - reflexivity.
    - rewrite Hminus. reflexivity. }
  rewrite Hsign, Hint, Hfrac, read_exp_repr.
  cbn [is_nil andb negb]. rewrite app_nil_l, <- !app_assoc. reflexivity.
Qed.

Lemma of_literal_repr (m e : Z) :
  of_literal (int_repr m ++ ch "e" :: int_repr e) = DFin m e.
Proof.
  pose proof (magnitude_value m) as Hm.
  unfold of_literal. rewrite (int_repr_magnitude m).
  destruct (magnitude_head m) as [d [ds [E [Hd _]]]].
  destruct (digit_not_sign d Hd) as [Hminus _].
  assert (Hbody : forall tail,
             span_digits (digits_of_uint (magnitude m) ++ ch "e" :: tail)
             = (digits_of_uint (magnitude m), ch "e" :: tail))
    by (intros tail; apply span_digits_uint_stop; reflexivity).
  assert (Hex : match ch "e" :: int_repr e with
                | _ :: c :: t =>
                    if (c =? ch "+")%N then int_of_literal t
                    else int_of_literal (c :: t)
                | _ => 0%Z
                end = e).
  { rewrite <- (int_of_literal_repr e) at 2.
    rewrite (int_repr_magnitude e).
    destruct (magnitude_head e) as [d' [ds' [E' [Hd' _]]]]. rewrite E'.
    destruct (digit_not_sign d' Hd') as [_ [Hplus _]].
    destruct (e <? 0)%Z; cbn [app].
    - reflexivity.
    - rewrite Hplus. reflexivity. }
  destruct (m <? 0)%Z eqn:Hneg; cbn [app].
  - change (ch "-" =? ch "-")%N with true. cbv iota.
    rewrite Hbody. change (ch "e" =? ch ".")%N with false. cbv iota.
    rewrite Hex, app_nil_r, uint_of_digits_of_uint, Hm.
    cbn [List.length]. rewrite Z.sub_0_r. reflexivity.
  - rewrite E in Hbody |- *. cbn [app] in Hbody |- *.
    rewrite Hminus, Hbody. change (ch "e" =? ch ".")%N with false. cbv iota.
    rewrite Hex, app_nil_r, <- E, uint_of_digits_of_uint, Hm.
    cbn [List.length]. rewrite Z.sub_0_r. reflexivity.
Qed.

Lemma laws : @PyFloatLaws dfloat model.
Proof.
  constructor.
  - intros [m e| | |] K; try discriminate.
    unfold is_float_literal. cbn [float_repr model repr].
    rewrite repr_matched. reflexivity.
  - intros [m e| | |] K; try discriminate.
    cbn [float_repr float_of_literal model repr]. apply of_literal_repr.
  - intros text. left. cbn [float_kind_of float_of_literal model].
    unfold of_literal.
    repeat match goal with
           | |- context [let '(_, _) := ?x in _] => destruct x
           end.
    reflexivity.
  - reflexivity.
  - reflexivity.
  - reflexivity.
Qed.

End DecimalFloatLaws.

(** ** The claims at concrete messages *)

Section Concrete.

#[local] Existing Instance DecimalFloat.model.
#[local] Existing Instance CPython.runtime.

Import Samples.

Lemma falsy_json_is_skipped_witness :
  startswith (py "status/AMT") device_topic = true
  /\ utf8_decode (bytes_of " false ") = Some (py " false ")
  /\ strip (py " false ") = py "false"
  /\ decide device_topic (bytes_of " false ") 5 = Skip EmptyJson.
Proof.
  split; [reflexivity|]. split; [reflexivity|]. split; [reflexivity|].
  apply (falsy_json_is_skipped device_topic (bytes_of " false ") 5
           (py " false ") eq_refl eq_refl).
  right. reflexivity.
Defined.

(** C1, where the code departs from it: the guard is [not parsed_data],
    which holds of every falsy value, not only of the empty object the
    comment above it speaks of.  The payload [0] on a device topic is
    skipped, with the log line of an empty JSON message, although the
    value is not empty; so is [false]; and no envelope with [data = [0]]
    is built. *)
Theorem zero_payload_not_forwarded :
  decide device_topic (bytes_of "0") 5 = Skip EmptyJson
  /\ decide device_topic (bytes_of "false") 5 = Skip EmptyJson
  /\ on_message zero_message 5 connected
     = (Ok tt, connected,
        [Log INFO (DeviceMessage (py "12345678901234") (py "0"));
         Log INFO EmptyJsonSkipped])
  /\ ~ (exists envelope,
          decide device_topic (bytes_of "0") 5 = Forward envelope
          /\ data_of envelope = Some (VList [VInt 0])).
Proof.
  assert (E : decide device_topic (bytes_of "0") 5 = Skip EmptyJson)
    by (vm_compute; reflexivity).
  split; [exact E|].
  split; [vm_compute; reflexivity|].
  split; [vm_compute; reflexivity|].
  intros [envelope [H _]]. rewrite E in H. discriminate.
Qed.

Lemma non_object_data_witness :
  startswith (py "status/AMT") device_topic = true
  /\ utf8_decode (bytes_of "[1,2,3]") = Some (py "[1,2,3]")
  /\ json_loads (strip (py "[1,2,3]"))
     = Ok (VList [VInt 1; VInt 2; VInt 3])
  /\ exists envelope,
       decide device_topic (bytes_of "[1,2,3]") 5 = Forward envelope
       /\ data_of envelope = Some (VList [VInt 1; VInt 2; VInt 3]).
Proof.
  split; [reflexivity|]. split; [reflexivity|]. split; [reflexivity|].
  exact (non_object_data device_topic (bytes_of "[1,2,3]") 5
           (py "[1,2,3]") (VList [VInt 1; VInt 2; VInt 3])
           eq_refl eq_refl eq_refl eq_refl eq_refl).
Defined.

(** The payload [[1,2,3]]: [data] is not [[[1,2,3]]]. *)
Lemma array_payload_not_wrapped :
  ~ (exists envelope,
        decide device_topic (bytes_of "[1,2,3]") 5 = Forward envelope
        /\ data_of envelope
           = Some (VList [VList [VInt 1; VInt 2; VInt 3]])).
Proof.
  assert (E : decide device_topic (bytes_of "[1,2,3]") 5
              = Forward (forward_data (VList [VInt 1; VInt 2; VInt 3])
                           (py "12345678901234") 5))
    by (vm_compute; reflexivity).
  intros [envelope [H D]]. rewrite E in H.
  injection H as <-. simpl in D. discriminate.
Qed.

Lemma empty_array_is_skipped_witness :
  startswith (py "status/AMT") device_topic = true
  /\ utf8_decode (bytes_of "[]") = Some (py "[]")
  /\ strip (py "[]") = py "[]"
  /\ decide device_topic (bytes_of "[]") 5 = Skip EmptyJson.
Proof.
  split; [reflexivity|]. split; [reflexivity|]. split; [reflexivity|].
  exact (empty_array_is_skipped device_topic (bytes_of "[]") 5 (py "[]")
           eq_refl eq_refl eq_refl).
Defined.

(** The payload [[]]: no envelope with [data = [[]]]. *)
Lemma empty_array_not_forwarded :
  ~ (exists envelope,
        decide device_topic (bytes_of "[]") 5 = Forward envelope
        /\ data_of envelope = Some (VList [VList []])).
Proof.
  assert (E : decide device_topic (bytes_of "[]") 5 = Skip EmptyJson)
    by (vm_compute; reflexivity).
  intros [envelope [H _]]. rewrite E in H. discriminate.
Qed.

Lemma malformed_payload_handling_witness :
  (utf8_decode (payload bad_message) = None
   /\ on_message bad_message 5 connected
      = (Ok tt, connected, [Log ERROR (HandlerFailed UnicodeDecodeError)]))
  /\ (utf8_decode (payload text_message) = Some (py " not json ")
      /\ json_loads (py "not json") = Raise JSONDecodeError
      /\ on_message text_message 5 connected
         = (Ok tt, connected,
            [Log INFO (DeviceMessage (py "12345678901234") (py "not json"));
             Publish (VStr (py "park/data"))
               (json_dumps (forward_data (VList [VStr (py "not json")])
                              (py "12345678901234") 5));
             Log INFO (ForwardSucceeded (VStr (py "AMT12345678901234"))
                         (VStr (py "park/data")))])).
Proof.
  split.
  - split; [reflexivity|].
    exact (proj2 (proj1 (malformed_payload_handling connected bad_message 5)
                    eq_refl)).
  - split; [reflexivity|]. split; [reflexivity|].
    refine (proj2 (proj2 (malformed_payload_handling connected text_message
                            5)
                     (py " not json ") eq_refl _ eq_refl eq_refl)
              good_client
              (VDict [(py "topic", VStr (py "park/data"))])
              (VStr (py "park/data"))
              eq_refl eq_refl eq_refl eq_refl eq_refl).
    discriminate.
Defined.

(** A payload that is not UTF-8: an error is logged and nothing is
    forwarded. *)
Lemma bad_utf8_is_rejected :
  ~ (errors (snd (on_message bad_message 5 connected)) = []
     /\ exists envelope,
          decide (topic bad_message) (payload bad_message) 5
          = Forward envelope).
Proof.
  assert (E : errors (snd (on_message bad_message 5 connected))
              = [HandlerFailed UnicodeDecodeError])
    by (vm_compute; reflexivity).
  intros [H _]. rewrite E in H. discriminate.
Qed.

Lemma object_becomes_records_witness :
  startswith (py "status/AMT") device_topic = true
  /\ utf8_decode object_payload
     = Some (py "{" ++ [QUOTE] ++ py "AI1" ++ [QUOTE] ++ py ": 7, "
             ++ [QUOTE] ++ py "AI2" ++ [QUOTE] ++ py ": [true]}")
  /\ json_loads
       (strip (py "{" ++ [QUOTE] ++ py "AI1" ++ [QUOTE] ++ py ": 7, "
               ++ [QUOTE] ++ py "AI2" ++ [QUOTE] ++ py ": [true]}"))
     = Ok (VDict [(py "AI1", VInt 7); (py "AI2", VList [VBool true])])
  /\ exists envelope data,
       decide device_topic object_payload 5 = Forward envelope
       /\ data_of envelope = Some (VList data)
       /\ List.length data = 2%nat
       /\ forall i k v,
            nth_error [(py "AI1", VInt 7); (py "AI2", VList [VBool true])]
                      i = Some (k, v) ->
            nth_error data i
            = Some (VDict [(py "name", VStr k); (py "value", v)]).
Proof.
  split; [reflexivity|]. split; [reflexivity|]. split; [reflexivity|].
  exact (object_becomes_records device_topic object_payload 5 _
           [(py "AI1", VInt 7); (py "AI2", VList [VBool true])]
           eq_refl eq_refl eq_refl (le_S _ _ (le_n 1))).
Defined.

Lemma empty_payloads_are_skipped_witness :
  utf8_decode (payload blank_message) = Some (py "   ")
  /\ forallb isspace (py "   ") = true
  /\ decide (topic blank_message) (payload blank_message) 5
     = Skip EmptyPayload
  /\ published (snd (on_message blank_message 5 connected)) = [].
Proof.
  split; [reflexivity|]. split; [reflexivity|].
  split.
  - exact (proj1 (empty_payloads_are_skipped connected blank_message 5
                    (py "   ") eq_refl (or_introl eq_refl)) eq_refl).
  - exact (proj2 (proj2 (empty_payloads_are_skipped connected blank_message
                           5 (py "   ") eq_refl (or_introl eq_refl)))).
Defined.

Lemma opaque_string_fallback_witness :
  startswith (py "status/AMT") device_topic = true
  /\ utf8_decode (bytes_of " not json ") = Some (py " not json ")
  /\ strip (py " not json ") = py "not json"
  /\ json_loads (py "not json") = Raise JSONDecodeError
  /\ exists envelope,
       decide device_topic (bytes_of " not json ") 5 = Forward envelope
       /\ data_of envelope = Some (VList [VStr (py "not json")]).
Proof.
  split; [reflexivity|]. split; [reflexivity|].
  split; [reflexivity|]. split; [reflexivity|].
  refine (opaque_string_fallback device_topic (bytes_of " not json ") 5
            (py " not json ") eq_refl eq_refl _ eq_refl).
  discriminate.
Defined.

(** C8, where the code departs from it: [is_json] catches
    [JSONDecodeError] and [TypeError] and nothing else.  A payload of 4301
    digits followed by the letter [x] is valid UTF-8, not empty, and not
    JSON; but [json.loads] stops at the number, whose digits are past the
    limit, with [ValueError].  The exception leaves [is_json], the
    handler logs an error, and no envelope is built.  A payload of 2000
    opening brackets, not JSON either, ends the same way with
    [RecursionError]. *)
Theorem limit_error_is_not_forwarded :
  (utf8_decode overlong_payload = Some overlong_text
   /\ strip overlong_text = overlong_text
   /\ json_value overlong_text = None
   /\ json_loads overlong_text = Raise ValueError
   /\ on_message overlong_message 5 connected
      = (Ok tt, connected,
         [Log INFO (DeviceMessage (py "12345678901234") overlong_text);
          Log ERROR (HandlerFailed ValueError)])
   /\ ~ (exists envelope,
           decide device_topic overlong_payload 5 = Forward envelope))
  /\ (utf8_decode deep_payload = Some deep_text
      /\ strip deep_text = deep_text
      /\ json_value deep_text = None
      /\ json_loads deep_text = Raise RecursionError
      /\ on_message deep_message 5 connected
         = (Ok tt, connected,
            [Log INFO (DeviceMessage (py "12345678901234") deep_text);
             Log ERROR (HandlerFailed RecursionError)])
      /\ ~ (exists envelope,
              decide device_topic deep_payload 5 = Forward envelope)).
Proof.
  assert (Hrun : forall (msg : message) (text : str) (e : exn),
             topic msg = device_topic ->
             utf8_decode (payload msg) = Some text ->
             strip text = text ->
             json_loads text = Raise e ->
             is_limit e = true ->
             on_message msg 5 connected
             = (Ok tt, connected,
                [Log INFO (DeviceMessage (py "12345678901234") text);
                 Log ERROR (HandlerFailed e)])
             /\ ~ (exists envelope,
                     decide device_topic (payload msg) 5
                     = Forward envelope)).
  { intros msg text e Htopic Hraw Hstrip Hloads He.
    assert (D : decide device_topic (payload msg) 5 = Failed e).
    { apply (decide_limit device_topic (payload msg) 5 text e eq_refl Hraw);
        [rewrite Hstrip; exact Hloads|exact He]. }
    split.
    - rewrite on_message_decide. unfold handler_events.
      rewrite Htopic, D, Hraw, Hstrip. reflexivity.
    - intros [envelope H]. rewrite D in H. discriminate. }
  assert (U1 : utf8_decode overlong_payload = Some overlong_text)
    by (vm_compute; reflexivity).
  assert (S1 : strip overlong_text = overlong_text)
    by (apply (strip_framed (ch "1") (ch "x") (List.repeat (ch "1") 4300));
        reflexivity).
  assert (L1 : json_loads overlong_text = Raise ValueError)
    by (vm_compute; reflexivity).
  assert (U2 : utf8_decode deep_payload = Some deep_text)
    by (vm_compute; reflexivity).
  assert (S2 : strip deep_text = deep_text)
    by (apply (strip_framed (ch "[") (ch "[") (List.repeat (ch "[") 1998));
        reflexivity).
  assert (L2 : json_loads deep_text = Raise RecursionError)
    by (vm_compute; reflexivity).
  split.
  - split; [exact U1|]. split; [exact S1|].
    split; [vm_compute; reflexivity|]. split; [exact L1|].
    exact (Hrun overlong_message overlong_text ValueError eq_refl U1 S1 L1
             eq_refl).
  - split; [exact U2|]. split; [exact S2|].
    split; [vm_compute; reflexivity|]. split; [exact L2|].
    exact (Hrun deep_message deep_text RecursionError eq_refl U2 S2 L2
             eq_refl).
Qed.

Lemma envelope_round_trip_witness :
  PyFloatLaws (FL := DecimalFloat.model)
  /\ decide device_topic float_payload 5 = Forward sample_envelope
  /\ within_limits (json_dumps sample_envelope) = true
  /\ json_value (json_dumps sample_envelope) = Some sample_envelope
  /\ json_loads (json_dumps sample_envelope) = Ok sample_envelope.
Proof.
  split; [exact DecimalFloatLaws.laws|]. split; [reflexivity|].
  split; [reflexivity|].
  split.
  - exact (proj1 (@envelope_round_trip _ DecimalFloat.model CPython.runtime
                    DecimalFloatLaws.laws device_topic float_payload 5
                    sample_envelope eq_refl)).
  - exact (proj1 (proj2 (@envelope_round_trip _ DecimalFloat.model
                           CPython.runtime DecimalFloatLaws.laws
                           device_topic float_payload 5 sample_envelope
                           eq_refl))
             eq_refl).
Defined.

Lemma other_topic_is_ignored_witness :
  startswith (py "status/AMT") (topic other_message) = false
  /\ utf8_decode (payload other_message) = Some (py "7")
  /\ strip (py "7") <> []
  /\ on_message other_message 5 connected = (Ok tt, connected, []).
Proof.
  split; [reflexivity|]. split; [reflexivity|]. split; [discriminate|].
  refine (other_topic_is_ignored connected other_message 5 (py "7")
            eq_refl eq_refl _).
  discriminate.
Defined.

(** ** Further properties at concrete messages *)

Lemma publish_is_as_configured_witness :
  In (VStr (py "park/data"),
      json_dumps (forward_data (VList [VStr (py "not json")])
                    (py "12345678901234") 5))
     (published (snd (on_message text_message 5 connected)))
  /\ is_connected (@connected DecimalFloat.dfloat) = true
  /\ (exists c, client (@connected DecimalFloat.dfloat) = Some c)
  /\ (exists fw,
        getitem (config (@connected DecimalFloat.dfloat)) (py "forward") = Ok fw
                 /\ getitem fw (py "topic") = Ok (VStr (py "park/data")))
  /\ exists envelope,
       decide (topic text_message) (payload text_message) 5
       = Forward envelope
       /\ json_dumps (forward_data (VList [VStr (py "not json")])
                        (py "12345678901234") 5)
          = json_dumps envelope.
Proof.
  assert (H : In (VStr (py "park/data"),
                  json_dumps (forward_data (VList [VStr (py "not json")])
                                (py "12345678901234") 5))
                 (published (snd (on_message text_message 5 connected))))
    by (left; reflexivity).
  split; [exact H|].
  exact (publish_is_as_configured connected text_message 5 _ _ H).
Defined.

Lemma skipped_is_not_an_error_witness :
  utf8_decode (payload zero_message) = Some (py "0")
  /\ json_loads (strip (py "0")) = Ok (VInt 0)
  /\ errors (snd (on_message zero_message 5 connected)) = []
  /\ published (snd (on_message zero_message 5 connected)) = [].
Proof.
  split; [reflexivity|]. split; [reflexivity|].
  exact (skipped_is_not_an_error connected zero_message 5 (py "0") eq_refl
           (or_intror (or_intror
              (ex_intro _ (VInt 0) (conj eq_refl eq_refl))))).
Defined.



Lemma envelope_shape_witness :
  decide device_topic (bytes_of "[1,2,3]") 5
  = Forward (forward_data (VList [VInt 1; VInt 2; VInt 3])
               (py "12345678901234") 5)
  /\ exists items : list (@value DecimalFloat.dfloat),
       items <> []
       /\ forward_data (VList [VInt 1; VInt 2; VInt 3])
            (py "12345678901234") 5
          = VDict [(py "data", VList items);
                   (py "SN",
                    VStr (py "AMT"
                          ++ replace (py "status/AMT") [] device_topic));
                   (py "Type", VStr (py "park"));
                   (py "flexem_timestamp", VInt 5)].
Proof.
  split; [reflexivity|].
  exact (envelope_shape device_topic (bytes_of "[1,2,3]") 5 _ eq_refl).
Defined.

Lemma record_names_are_distinct_witness :
  json_loads (strip (py "{" ++ [QUOTE] ++ py "a" ++ [QUOTE] ++ py ": 1, "
                     ++ [QUOTE] ++ py "a" ++ [QUOTE] ++ py ": 2}"))
  = Ok (VDict [(py "a", VInt 2)])
  /\ decide device_topic repeated_payload 5
     = Forward (forward_data
                  (VList [VDict [(py "name", VStr (py "a"));
                                 (py "value", VInt 2)]])
                  (py "12345678901234") 5)
  /\ NoDup (List.map (fun r : @value DecimalFloat.dfloat =>
                         getitem r (py "name"))
              [VDict [(py "name", VStr (py "a")); (py "value", VInt 2)]]).
Proof.
  split; [reflexivity|]. split; [reflexivity|].
  exact (record_names_are_distinct device_topic repeated_payload 5 _
           [(py "a", VInt 2)] _ _ eq_refl eq_refl eq_refl eq_refl).
Defined.

Lemma own_output_is_forwarded_again_witness :
  PyFloatLaws (FL := DecimalFloat.model)
  /\ decide device_topic float_payload 5 = Forward sample_envelope
  /\ utf8_decode (ascii_bytes (json_dumps sample_envelope))
     = Some (json_dumps sample_envelope)
  /\ within_limits (json_dumps sample_envelope) = true
  /\ exists items,
       sample_envelope
       = forward_data (VList items)
           (replace (py "status/AMT") [] device_topic) 5
       /\ decide nested_topic (ascii_bytes (json_dumps sample_envelope)) 9
          = Forward
              (forward_data
                 (VList
                    [record (py "data", VList items);
                     record (py "SN",
                             VStr (py "AMT"
                                   ++ replace (py "status/AMT") []
                                        device_topic));
                     record (py "Type", VStr (py "park"));
                     record (py "flexem_timestamp", VInt 5)])
                 (replace (py "status/AMT") [] nested_topic) 9).
Proof.
  split; [exact DecimalFloatLaws.laws|]. split; [reflexivity|].
  split; [reflexivity|]. split; [reflexivity|].
  exact (@own_output_is_forwarded_again _ DecimalFloat.model
           CPython.runtime DecimalFloatLaws.laws device_topic
           float_payload 5 sample_envelope nested_topic
           (ascii_bytes (json_dumps sample_envelope)) 9
           eq_refl eq_refl eq_refl eq_refl).
Defined.

Lemma on_connect_subscribes_each_device_witness :
  getitem (config (@with_roster DecimalFloat.dfloat false)) (py "devices")
  = Ok (VList [VStr (py "12345678901234"); VStr (py "00000000000001")])
  /\ on_connect (fun _ => []) good_subscriber 0 (with_roster false)
     = (Ok tt, with_roster true,
        [ConnLog INFO BrokerConnected;
         Subscribe (py "status/AMT12345678901234");
         ConnLog INFO (TopicSubscribed (py "status/AMT12345678901234"));
         Subscribe (py "status/AMT00000000000001");
         ConnLog INFO (TopicSubscribed (py "status/AMT00000000000001"))]).
Proof.
  split; [reflexivity|].
  exact (on_connect_subscribes_each_device (fun _ => []) good_subscriber
           (with_roster false) _
           [VStr (py "12345678901234"); VStr (py "00000000000001")]
           eq_refl eq_refl (fun _ _ => eq_refl)).
Defined.

Lemma failed_subscribe_ends_on_connect_witness :
  subscribe picky_subscriber (py "status/AMT00000000000001")
  = Raise (ClientError 4)
  /\ on_connect (fun _ => []) picky_subscriber 0 (with_roster false)
     = (Raise (ClientError 4), with_roster true,
        [ConnLog INFO BrokerConnected;
         Subscribe (py "status/AMT12345678901234");
         ConnLog INFO (TopicSubscribed (py "status/AMT12345678901234"));
         Subscribe (py "status/AMT00000000000001")]).
Proof.
  split; [reflexivity|].
  refine (failed_subscribe_ends_on_connect (fun _ => []) picky_subscriber
            (with_roster false) _ [VStr (py "12345678901234")] []
            (VStr (py "00000000000001")) (ClientError 4)
            eq_refl eq_refl _ eq_refl).
  intros y [<-|[]]. reflexivity.
Defined.

Lemma on_connect_without_devices_witness :
  getitem (config (@connected DecimalFloat.dfloat)) (py "devices")
  = Raise (KeyError (py "devices"))
  /\ on_connect (fun _ => []) good_subscriber 0 connected
     = (Raise (KeyError (py "devices")), set_connected true connected,
        [ConnLog INFO BrokerConnected])
  /\ is_connected
       (state_after (on_connect (fun _ => []) good_subscriber 0 connected))
     = true.
Proof.
  split; [reflexivity|].
  exact (on_connect_without_devices (fun _ => []) good_subscriber connected
           (KeyError (py "devices")) (or_introl eq_refl)).
Defined.

Lemma subscribed_topics_are_handled_witness :
  In (py "status/AMT00000000000001")
     (subscribed (snd (on_connect (fun _ => []) good_subscriber 0
                         (with_roster false))))
  /\ startswith (py "status/AMT") (py "status/AMT00000000000001") = true
  /\ decide (py "status/AMT00000000000001") (bytes_of "7") 5 <> OtherTopic.
Proof.
  assert (H : In (py "status/AMT00000000000001")
                 (subscribed (snd (on_connect (fun _ => []) good_subscriber 0
                                     (with_roster false)))))
    by (right; left; reflexivity).
  split; [exact H|].
  exact (subscribed_topics_are_handled (fun _ => []) good_subscriber 0
           (with_roster false) _ (bytes_of "7") 5 H).
Defined.

Lemma SN_of_numeric_device_witness :
  forallb is_digit (py "12345678901234") = true
  /\ decide (subscription_topic (fun _ => []) (VStr (py "12345678901234")))
       (bytes_of "7") 5
     = Forward (forward_data (VList [VInt 7]) (py "12345678901234") 5)
  /\ @SN_of DecimalFloat.dfloat
       (forward_data (VList [VInt 7]) (py "12345678901234") 5)
     = Some (VStr (py "AMT" ++ py "12345678901234")).
Proof.
  split; [reflexivity|]. split; [reflexivity|].
  exact (SN_of_numeric_device (fun _ => []) (py "12345678901234")
           (bytes_of "7") 5 _ eq_refl eq_refl).
Defined.

Lemma dropped_while_disconnected_witness :
  decide (topic text_message) (payload text_message) 5
  = Forward (forward_data (VList [VStr (py "not json")])
               (py "12345678901234") 5)
  /\ published
       (snd (on_message text_message 5
               (state_after (on_disconnect 7 connected)))) = []
  /\ errors
       (snd (on_message text_message 5
               (state_after (on_disconnect 7 connected))))
     = [ClientNotConnected]
  /\ state_after (on_message text_message 5
                    (state_after (on_disconnect 7 connected)))
     = state_after (on_disconnect 7 connected).
Proof.
  split; [reflexivity|].
  exact (dropped_while_disconnected (fun _ => []) good_subscriber 7 connected
           _ text_message 5 _ (or_introl eq_refl) eq_refl).
Defined.


Lemma config_with_bom_is_refused_witness :
  utf8_decode (bytes_of "{}") = Some (py "{}")
  /\ load_config (Opened (bytes_of "{}"))
     = (Config (VDict []), [(INFO, ConfigLoaded)])
  /\ load_config
       (Opened (Byte.xef :: Byte.xbb :: Byte.xbf :: bytes_of "{}"))
     = (SysExit 1, [(ERROR, ConfigMalformed)]).
Proof.
  split; [reflexivity|]. split; [reflexivity|].
  exact (config_with_bom_is_refused (bytes_of "{}") (py "{}") eq_refl).
Defined.

End Concrete.
